(** * Omnii RDF reasoning service (apps/python-rdf/app/main.py)

    A shallow embedding of [RDFServiceManager] and of the Python
    library functions it relies on, with the properties of the
    natural-language specification stated over it.

    Conventions.
    - A Python [str] is a sequence of Unicode code points: [str] is
      [list N].  String literals are injected by the coercion [lit].
    - An rdflib [Graph] is a finite set of triples: [gset Triple].
      Graph objects live in a heap of locations, since the service
      rebinds [self.graph] and fills scratch graphs in place.
    - A method that can raise is a computation in the monad [M], whose
      result is either a value or an exception message; the state
      written before the exception is kept, as in Python.
    - Wall-clock readings ([execution_time_ms]) are left out. *)

From Stdlib Require Import ZArith NArith Ascii String List Lia Bool.
From Stdlib Require Import DecimalString DecimalZ.
From stdpp Require Import base decidable countable gmap.
Import ListNotations.

Local Open Scope string_scope.
Local Open Scope list_scope.
Local Open Scope N_scope.

(** ** Python strings *)

Definition str := list N.

Definition lit (s : string) : str :=
  map N_of_ascii (list_ascii_of_string s).
Coercion lit : string >-> str.

#[global] Instance str_eq_dec : EqDecision str := list_eq_dec.
#[global] Instance str_countable : Countable str := list_countable.

Module PyStr.

(** [s.startswith(p)] *)
Fixpoint startswith (s p : str) {struct p} : bool :=
  match p, s with
  | [], _ => true
  | _ :: _, [] => false
  | a :: p', b :: s' => (a =? b) && startswith s' p'
  end.

(** [s.replace(old, new)], every occurrence, scanning left to right.
    [skip] counts the characters of a matched occurrence of [old]
    that are still to be dropped. *)
Fixpoint replace_from (old new : str) (skip : nat) (s : str) : str :=
  match s with
  | [] => match skip, old with
          | O, [] => new
          | _, _ => []
          end
  | c :: s' =>
      match skip with
      | S k => replace_from old new k s'
      | O =>
          if startswith s old then
            new ++ match old with
                   | [] => c :: replace_from old new 0 s'
                   | _ :: o' => replace_from old new (length o') s'
                   end
          else c :: replace_from old new 0 s'
      end
  end.

Definition replace (s old new : str) : str := replace_from old new 0 s.

(** [sub in s] *)
Fixpoint contains (s sub : str) : bool :=
  startswith s sub ||
  match s with
  | [] => false
  | _ :: s' => contains s' sub
  end.

(** [s.count(sub)] for a non-empty [sub]: occurrences that do not
    overlap, counted from the left. *)
Fixpoint count_from (sub : str) (skip : nat) (s : str) : nat :=
  match s with
  | [] => O
  | _ :: s' =>
      match skip with
      | S k => count_from sub k s'
      | O => if startswith s sub
             then S (count_from sub (Nat.pred (length sub)) s')
             else count_from sub 0 s'
      end
  end.

Definition count (s sub : str) : nat := count_from sub 0 s.

Definition nl : str := [10].
Fixpoint spaces (n : nat) : str :=
  match n with O => [] | S k => 32 :: spaces k end.
Definition dquote : str := [34].
Definition squote : str := [39].

End PyStr.

(** ** Request models (pydantic) *)

Record BrainContext := {
  user_id : str;
  channel : str;
  memory_window_hours : Z;
  include_working_memory : bool;
  include_episodic_memory : bool;
  include_semantic_memory : bool;
  temporal_reasoning : bool
}.

(** ** Context augmenter *)

Definition block_delimiter : str := "WHERE {".

(** The f-string bound to [user_filter]. *)
Definition user_filter (bc : BrainContext) : str :=
  PyStr.nl ++ PyStr.spaces 8 ++ lit "FILTER EXISTS {" ++
  PyStr.nl ++ PyStr.spaces 12 ++ lit "?concept omnii:belongsToUser " ++
    PyStr.dquote ++ user_id bc ++ PyStr.dquote ++ lit " ." ++
  PyStr.nl ++ PyStr.spaces 8 ++ lit "}" ++
  PyStr.nl ++ PyStr.spaces 8.

(** The f-string bound to [temporal_filter]. *)
Definition temporal_filter : str :=
  PyStr.nl ++ PyStr.spaces 12 ++ lit "OPTIONAL {" ++
  PyStr.nl ++ PyStr.spaces 16 ++
    lit "?concept temporal:currentWeek ?current_week_strength ." ++
  PyStr.nl ++ PyStr.spaces 16 ++
    lit "?concept temporal:previousWeek ?previous_week_strength ." ++
  PyStr.nl ++ PyStr.spaces 16 ++
    lit "?concept temporal:nextWeek ?next_week_strength ." ++
  PyStr.nl ++ PyStr.spaces 12 ++ lit "}" ++
  PyStr.nl ++ PyStr.spaces 12.

(** [enhance_query_with_brain_context].  [user_filter] is bound and
    then not used again, exactly as in the method body. *)
Definition enhance_query_with_brain_context
    (original_query : str) (brain_context : option BrainContext) : str :=
  match brain_context with
  | None => original_query
  | Some bc =>
      let enhanced_query := original_query in
      let user_filter := user_filter bc in
      if temporal_reasoning bc then
        PyStr.replace enhanced_query block_delimiter
          (block_delimiter ++ temporal_filter)
      else enhanced_query
  end.

(** ** [json.dumps(..., sort_keys=True)] *)

#[warnings="-register-all"]
Inductive Json :=
| JNull
| JBool (b : bool)
| JInt (z : Z)
| JStr (s : str)
| JObj (fields : list (str * Json)).

Module PyJson.

(** [Py_hexdigits] *)
Definition hexdigit (n : N) : N := if n <? 10 then 48 + n else 87 + n.

(** ['{0:04x}'.format(n)] for [n < 0x10000] *)
Definition hex4 (n : N) : str :=
  [hexdigit (n / 4096 mod 16); hexdigit (n / 256 mod 16);
   hexdigit (n / 16 mod 16); hexdigit (n mod 16)].

Definition u_escape (n : N) : str := 92 :: 117 :: hex4 n.

(** One character of [py_encode_basestring_ascii] ([ensure_ascii] is
    left at its default): the short escapes, printable ASCII as it
    is, the rest as [\uXXXX], a UTF-16 surrogate pair above the BMP. *)
Definition escape_char (c : N) : str :=
  if c =? 92 then [92; 92]
  else if c =? 34 then [92; 34]
  else if c =? 8 then [92; 98]
  else if c =? 12 then [92; 102]
  else if c =? 10 then [92; 110]
  else if c =? 13 then [92; 114]
  else if c =? 9 then [92; 116]
  else if (32 <=? c) && (c <=? 126) then [c]
  else if c <? 0x10000 then u_escape c
  else
    let n := c - 0x10000 in
    u_escape (N.lor 0xd800 (N.land (N.shiftr n 10) 0x3ff)) ++
    u_escape (N.lor 0xdc00 (N.land n 0x3ff)).

Definition encode_basestring_ascii (s : str) : str :=
  PyStr.dquote ++ flat_map escape_char s ++ PyStr.dquote.

(** [str(z)] for an [int] *)
Definition str_of_int (z : Z) : str :=
  lit (DecimalString.NilEmpty.string_of_int (Z.to_int z)).

(** Order of [str] values: by code point, shorter prefix first. *)
Fixpoint str_leb (a b : str) : bool :=
  match a, b with
  | [], _ => true
  | _ :: _, [] => false
  | x :: a', y :: b' =>
      if x <? y then true else if y <? x then false else str_leb a' b'
  end.

Fixpoint insert_item (kv : str * str) (l : list (str * str))
  : list (str * str) :=
  match l with
  | [] => [kv]
  | kv' :: l' =>
      if str_leb (fst kv) (fst kv') then kv :: l
      else kv' :: insert_item kv l'
  end.

(** [sorted(dct.items())] on the rendered items; keys are distinct. *)
Definition sort_items (l : list (str * str)) : list (str * str) :=
  fold_right insert_item [] l.

Fixpoint join (sep : str) (l : list str) : str :=
  match l with
  | [] => []
  | [x] => x
  | x :: l' => x ++ sep ++ join sep l'
  end.

Fixpoint dumps (j : Json) : str :=
  match j with
  | JNull => "null"
  | JBool true => "true"
  | JBool false => "false"
  | JInt z => str_of_int z
  | JStr s => encode_basestring_ascii s
  | JObj fields =>
      let rendered :=
        (fix go (l : list (str * Json)) : list (str * str) :=
           match l with
           | [] => []
           | (k, v) :: l' => (k, dumps v) :: go l'
           end) fields in
      lit "{" ++
      join ", " (map (fun kv => encode_basestring_ascii (fst kv) ++
                                lit ": " ++ snd kv)
                     (sort_items rendered)) ++
      lit "}"
  end.

End PyJson.

(** ** [str.encode()] and [hashlib.md5] (RFC 1321) *)

Module PyBytes.

(** UTF-8.  Python raises on a surrogate code point; here it is given
    the three-byte form, a case [json.dumps] output never reaches. *)
Definition utf8 (c : N) : list N :=
  if c <? 0x80 then [c]
  else if c <? 0x800 then [0xC0 + c / 64; 0x80 + c mod 64]
  else if c <? 0x10000 then
    [0xE0 + c / 4096; 0x80 + c / 64 mod 64; 0x80 + c mod 64]
  else [0xF0 + c / 262144 mod 8; 0x80 + c / 4096 mod 64;
        0x80 + c / 64 mod 64; 0x80 + c mod 64].

Definition encode (s : str) : list N := flat_map utf8 s.

End PyBytes.

Module MD5.

Definition w32 : N := 0x100000000.
Definition add32 (x y : N) : N := (x + y) mod w32.
Definition not32 (x : N) : N := N.lxor x 0xFFFFFFFF.
Definition rotl32 (x c : N) : N :=
  N.lor (N.shiftl x c mod w32) (N.shiftr x (32 - c)).

Definition shifts : list N :=
  [7; 12; 17; 22; 7; 12; 17; 22; 7; 12; 17; 22; 7; 12; 17; 22;
   5; 9; 14; 20; 5; 9; 14; 20; 5; 9; 14; 20; 5; 9; 14; 20;
   4; 11; 16; 23; 4; 11; 16; 23; 4; 11; 16; 23; 4; 11; 16; 23;
   6; 10; 15; 21; 6; 10; 15; 21; 6; 10; 15; 21; 6; 10; 15; 21].

Definition sines : list N :=
  [0xd76aa478; 0xe8c7b756; 0x242070db; 0xc1bdceee;
   0xf57c0faf; 0x4787c62a; 0xa8304613; 0xfd469501;
   0x698098d8; 0x8b44f7af; 0xffff5bb1; 0x895cd7be;
   0x6b901122; 0xfd987193; 0xa679438e; 0x49b40821;
   0xf61e2562; 0xc040b340; 0x265e5a51; 0xe9b6c7aa;
   0xd62f105d; 0x02441453; 0xd8a1e681; 0xe7d3fbc8;
   0x21e1cde6; 0xc33707d6; 0xf4d50d87; 0x455a14ed;
   0xa9e3e905; 0xfcefa3f8; 0x676f02d9; 0x8d2a4c8a;
   0xfffa3942; 0x8771f681; 0x6d9d6122; 0xfde5380c;
   0xa4beea44; 0x4bdecfa9; 0xf6bb4b60; 0xbebfbc70;
   0x289b7ec6; 0xeaa127fa; 0xd4ef3085; 0x04881d05;
   0xd9d4d039; 0xe6db99e5; 0x1fa27cf8; 0xc4ac5665;
   0xf4292244; 0x432aff97; 0xab9423a7; 0xfc93a039;
   0x655b59c3; 0x8f0ccc92; 0xffeff47d; 0x85845dd1;
   0x6fa87e4f; 0xfe2ce6e0; 0xa3014314; 0x4e0811a1;
   0xf7537e82; 0xbd3af235; 0x2ad7d2bb; 0xeb86d391].

Record regs := { ra : N; rb : N; rc : N; rd : N }.

Definition init : regs :=
  {| ra := 0x67452301; rb := 0xefcdab89; rc := 0x98badcfe; rd := 0x10325476 |}.

(** One of the 64 operations on the 16 words [m] of a block. *)
Definition step (m : list N) (r : regs) (i : nat) : regs :=
  let '(Build_regs a b c d) := r in
  let n := N.of_nat i in
  let '(f, g) :=
    if n <? 16 then (N.lor (N.land b c) (N.land (not32 b) d), n)
    else if n <? 32 then
      (N.lor (N.land d b) (N.land (not32 d) c), (5 * n + 1) mod 16)
    else if n <? 48 then (N.lxor (N.lxor b c) d, (3 * n + 5) mod 16)
    else (N.lxor c (N.lor b (not32 d)), (7 * n) mod 16) in
  let f' := add32 (add32 (add32 f a) (nth i sines 0))
                  (nth (N.to_nat g) m 0) in
  {| ra := d; rb := add32 b (rotl32 f' (nth i shifts 0)); rc := b; rd := c |}.

(** Little-endian 32-bit words of a block. *)
Fixpoint words (bytes : list N) : list N :=
  match bytes with
  | b0 :: b1 :: b2 :: b3 :: rest =>
      (b0 + 256 * b1 + 65536 * b2 + 16777216 * b3) :: words rest
  | _ => []
  end.

Definition block (r : regs) (bytes : list N) : regs :=
  let r' := fold_left (step (words bytes)) (seq 0 64) r in
  {| ra := add32 (ra r) (ra r'); rb := add32 (rb r) (rb r');
     rc := add32 (rc r) (rc r'); rd := add32 (rd r) (rd r') |}.

Fixpoint le_bytes (k : nat) (x : N) : list N :=
  match k with
  | O => []
  | S k' => x mod 256 :: le_bytes k' (x / 256)
  end.

(** Message, one [0x80], zeros up to 56 modulo 64, bit length. *)
Definition pad (msg : list N) : list N :=
  let len := N.of_nat (length msg) in
  let zeros := N.to_nat ((119 - len mod 64) mod 64) in
  msg ++ 0x80 :: repeat 0 zeros ++ le_bytes 8 ((8 * len) mod 2 ^ 64).

Fixpoint blocks (fuel : nat) (r : regs) (bytes : list N) : regs :=
  match fuel, bytes with
  | S fuel', _ :: _ => blocks fuel' (block r (firstn 64 bytes)) (skipn 64 bytes)
  | _, _ => r
  end.

Definition digest (msg : list N) : regs :=
  let p := pad msg in blocks (length p) init p.

Definition hex_byte (b : N) : str :=
  [PyJson.hexdigit (b / 16); PyJson.hexdigit (b mod 16)].

(** [.hexdigest()] *)
Definition hexdigest (r : regs) : str :=
  flat_map hex_byte
    (le_bytes 4 (ra r) ++ le_bytes 4 (rb r) ++
     le_bytes 4 (rc r) ++ le_bytes 4 (rd r)).

Definition md5_hex (msg : list N) : str := hexdigest (digest msg).

End MD5.

(** ** Cache digest *)

Record QueryRequest := {
  query : str;
  query_type : str;
  reasoning : bool;
  timeout : Z;
  limit : Z;
  namespaces : option (list (str * str));
  brain_context : option BrainContext;
  query_hash : option str
}.

(** [BrainContext.dict()], fields in declaration order. *)
Definition BrainContext_dict (bc : BrainContext) : Json :=
  JObj [ (lit "user_id", JStr (user_id bc));
         (lit "channel", JStr (channel bc));
         (lit "memory_window_hours", JInt (memory_window_hours bc));
         (lit "include_working_memory", JBool (include_working_memory bc));
         (lit "include_episodic_memory", JBool (include_episodic_memory bc));
         (lit "include_semantic_memory", JBool (include_semantic_memory bc));
         (lit "temporal_reasoning", JBool (temporal_reasoning bc)) ].

Definition hash_input (query_data : QueryRequest) : Json :=
  JObj [ (lit "query", JStr (query query_data));
         (lit "reasoning", JBool (reasoning query_data));
         (lit "brain_context",
           match brain_context query_data with
           | Some bc => BrainContext_dict bc
           | None => JNull
           end) ].

(** [generate_query_hash], for the requests [json.dumps] renders: the
    [int] fields of a request are taken within the interpreter's limit
    on the text of an integer (4300 digits), as they are in every
    request decoded from JSON; beyond it [json.dumps] raises
    [ValueError]. *)
Definition generate_query_hash (query_data : QueryRequest) : str :=
  MD5.md5_hex (PyBytes.encode (PyJson.dumps (hash_input query_data))).

(** ** RDF terms and graphs (rdflib) *)

Inductive Term :=
| URIRef (iri : str)
| Literal (lexical : str) (datatype : option str) (language : option str)
| BNode (id : str).

#[global] Instance Term_eq_dec : EqDecision Term.
Proof. solve_decision. Defined.

Definition Term_code (t : Term) : str + (str * option str * option str) + str :=
  match t with
  | URIRef i => inl (inl i)
  | Literal l d g => inl (inr (l, d, g))
  | BNode b => inr b
  end.

Definition Term_decode (c : str + (str * option str * option str) + str) : Term :=
  match c with
  | inl (inl i) => URIRef i
  | inl (inr (l, d, g)) => Literal l d g
  | inr b => BNode b
  end.

#[global] Program Instance Term_countable : Countable Term :=
  inj_countable' Term_code Term_decode _.
Next Obligation. by intros []. Qed.

Definition Triple : Type := Term * Term * Term.

Abbreviation Graph := (gset Triple).

(** [Namespace.__getattr__] / [__getitem__] *)
Definition ns_term (ns name : str) : Term := URIRef (ns ++ name).

Definition OMNII : str := "https://omnii.ai/ontology#".
Definition CONV : str := "https://omnii.ai/conversation#".
Definition CONCEPT : str := "https://omnii.ai/concept#".
Definition TEMPORAL : str := "https://omnii.ai/temporal#".
Definition RDF : str := "http://www.w3.org/1999/02/22-rdf-syntax-ns#".
Definition RDFS : str := "http://www.w3.org/2000/01/rdf-schema#".
Definition OWL : str := "http://www.w3.org/2002/07/owl#".
Definition XSD : str := "http://www.w3.org/2001/XMLSchema#".

Definition RDF_type : Term := ns_term RDF "type".
Definition RDFS_label : Term := ns_term RDFS "label".
Definition OWL_Class : Term := ns_term OWL "Class".
Definition OWL_ObjectProperty : Term := ns_term OWL "ObjectProperty".
Definition OWL_DatatypeProperty : Term := ns_term OWL "DatatypeProperty".

(** The triples [setup_ontology] adds, in source order. *)
Definition ontology_triples : list Triple :=
  [ (ns_term OMNII "Conversation", RDF_type, OWL_Class);
    (ns_term OMNII "Concept", RDF_type, OWL_Class);
    (ns_term OMNII "Tag", RDF_type, OWL_Class);
    (ns_term OMNII "User", RDF_type, OWL_Class);
    (ns_term OMNII "Memory", RDF_type, OWL_Class);
    (ns_term OMNII "BrainContext", RDF_type, OWL_Class);
    (ns_term OMNII "mentions", RDF_type, OWL_ObjectProperty);
    (ns_term OMNII "relatesToConcept", RDF_type, OWL_ObjectProperty);
    (ns_term OMNII "hasTag", RDF_type, OWL_ObjectProperty);
    (ns_term OMNII "hasConfidence", RDF_type, OWL_DatatypeProperty);
    (ns_term OMNII "hasTimestamp", RDF_type, OWL_DatatypeProperty);
    (ns_term OMNII "hasActivationStrength", RDF_type, OWL_DatatypeProperty);
    (ns_term OMNII "hasMemoryStrength", RDF_type, OWL_DatatypeProperty);
    (ns_term TEMPORAL "previousWeek", RDF_type, OWL_DatatypeProperty);
    (ns_term TEMPORAL "currentWeek", RDF_type, OWL_DatatypeProperty);
    (ns_term TEMPORAL "nextWeek", RDF_type, OWL_DatatypeProperty);
    (ns_term TEMPORAL "recentModification", RDF_type, OWL_DatatypeProperty) ].

Definition baseline : Graph := list_to_set ontology_triples.

(** ** Responses *)

(** A value of a result row: the dict with ['type'], ['value'] and,
    for a literal, ['datatype'] and ['language']. *)
Inductive Cell :=
| CellUri (value : str)
| CellLiteral (value : str) (datatype : option str) (language : option str)
| CellBlank (value : str).

Abbreviation Row := (gmap str Cell).

Record Insight := {
  insight_concept_id : str;
  insight_type : str;
  insight_description : str
}.

Record MemoryIntegration := {
  concepts_analyzed : Z;
  memory_contexts_used : Z;
  temporal_reasoning_applied : bool
}.

Record QueryResponse := {
  success : bool;
  results : list Row;
  reasoning_applied : bool;
  response_query_hash : str;
  total_results : Z;
  error : option str;
  brain_memory_integration : option MemoryIntegration;
  concept_insights : option (list Insight)
}.

Record RDFImportRequest := {
  data : str;
  format : str;
  validation : bool;
  clear_graph : bool;
  named_graph : option str
}.

Record ImportResult := {
  import_success : bool;
  triples_imported : Z;
  total_triples : option Z;
  import_format : option str;
  import_error : option str
}.

(** ** Service state *)

(** The Redis server behind [redis_client]: its keys with their time
    to live in seconds and the stored response, and whether a command
    sent now gets through.  A command sent while [reachable] is false
    raises.  Expiry needs a clock and is not modelled: an entry stays
    until it is deleted. *)
Record Redis := {
  entries : gmap str (Z * QueryResponse);
  reachable : bool
}.

Abbreviation loc := positive.

Record State := {
  heap : gmap loc Graph;             (* the [Graph] objects alive *)
  graph : loc;                       (* [self.graph] *)
  reasoning_cache : gmap str Graph;  (* [self.reasoning_cache] *)
  redis_client : option Redis;       (* [self.redis_client] *)
  bnode_seq : N                      (* source of fresh [BNode()] ids *)
}.

Definition set_heap (h : gmap loc Graph) (s : State) : State :=
  {| heap := h; graph := graph s; reasoning_cache := reasoning_cache s;
     redis_client := redis_client s; bnode_seq := bnode_seq s |}.

Definition set_graph (l : loc) (s : State) : State :=
  {| heap := heap s; graph := l; reasoning_cache := reasoning_cache s;
     redis_client := redis_client s; bnode_seq := bnode_seq s |}.

Definition set_reasoning_cache (c : gmap str Graph) (s : State) : State :=
  {| heap := heap s; graph := graph s; reasoning_cache := c;
     redis_client := redis_client s; bnode_seq := bnode_seq s |}.

Definition set_redis (r : option Redis) (s : State) : State :=
  {| heap := heap s; graph := graph s; reasoning_cache := reasoning_cache s;
     redis_client := r; bnode_seq := bnode_seq s |}.

Definition set_bnode_seq (n : N) (s : State) : State :=
  {| heap := heap s; graph := graph s; reasoning_cache := reasoning_cache s;
     redis_client := redis_client s; bnode_seq := n |}.

(** Contents of the graph object at [l]. *)
Definition graph_at (s : State) (l : loc) : Graph := default ∅ (heap s !! l).

(** Contents of the base graph, [self.graph]. *)
Definition base_graph (s : State) : Graph := graph_at s (graph s).

(** ** Computations that may raise *)

Inductive Result (A : Type) :=
| Ok (a : A)
| Raise (e : str).
Arguments Ok {A} a.
Arguments Raise {A} e.

Definition M (A : Type) : Type := State → State * Result A.

#[global] Instance M_ret : MRet M := λ A a s, (s, Ok a).

#[global] Instance M_bind : MBind M := λ A B f m s,
  match m s with
  | (s', Ok a) => f a s'
  | (s', Raise e) => (s', Raise e)
  end.

Definition raise {A} (e : str) : M A := λ s, (s, Raise e).
Definition get_state : M State := λ s, (s, Ok s).
Definition modify (f : State → State) : M unit := λ s, (f s, Ok tt).

(** [try: body except Exception as e: handler(str(e))] *)
Definition try_except {A} (body : M A) (handler : str → M A) : M A := λ s,
  match body s with
  | (s', Ok a) => (s', Ok a)
  | (s', Raise e) => handler e s'
  end.

(** [for x in l: body(x)] *)
Fixpoint for_each {A} (l : list A) (body : A → M unit) : M unit :=
  match l with
  | [] => mret tt
  | x :: l' => body x ;; for_each l' body
  end.

Definition when (b : bool) (m : M unit) : M unit := if b then m else mret tt.

(** *** Graph objects *)

(** [Graph()] *)
Definition new_graph : M loc := λ s,
  let l := fresh (dom (heap s)) in
  (set_heap (<[l := ∅]> (heap s)) s, Ok l).

(** [g.add(t)] *)
Definition graph_add (l : loc) (t : Triple) : M unit :=
  modify (λ s, set_heap (<[l := {[t]} ∪ graph_at s l]> (heap s)) s).

(** [len(g)] *)
Definition graph_len (l : loc) : M Z :=
  s ← get_state; mret (Z.of_nat (size (graph_at s l))).

(** [BNode()] *)
Definition new_bnode : M Term := λ s,
  (set_bnode_seq (N.succ (bnode_seq s)) s,
   Ok (BNode (lit "N" ++ PyJson.str_of_int (Z.of_N (bnode_seq s))))).

(** *** Redis commands *)

Definition redis_command {A} (run : Redis → Redis * A) : M A := λ s,
  match redis_client s with
  | Some r =>
      if reachable r then
        let (r', a) := run r in (set_redis (Some r') s, Ok a)
      else (s, Raise "Error connecting to Redis")
  | None => (s, Raise "'NoneType' object has no attribute")
  end.

(** [if self.redis_client:] *)
Definition has_redis : M bool :=
  s ← get_state; mret (bool_decide (is_Some (redis_client s))).

Definition query_key_prefix : str := "rdf:query:".

(** [redis_client.get(key)] *)
Definition redis_get (key : str) : M (option QueryResponse) :=
  redis_command (λ r, (r, snd <$> entries r !! key)).

(** [redis_client.setex(key, ttl, value)] *)
Definition redis_setex (key : str) (ttl : Z) (v : QueryResponse) : M unit :=
  redis_command (λ r,
    ({| entries := <[key := (ttl, v)]> (entries r); reachable := reachable r |}, tt)).

(** [for key in scan_iter(match="rdf:query:*"): delete(key)] *)
Definition redis_delete_query_keys : M unit :=
  redis_command (λ r,
    ({| entries := filter (λ kv, PyStr.startswith (fst kv) query_key_prefix = false)
                          (entries r);
        reachable := reachable r |}, tt)).

(** ** Libraries the service calls

    rdflib's parsers and SPARQL engine, owlrl's rule catalogue and the
    conversions of Python values that are not [str] are outside the
    repository; the service is defined over any implementation of
    them. *)
Class Libraries := {
  (** Python values other than [str] that a [Dict[str, Any]] can hold *)
  PyObj : Type;
  (** [str(o)] *)
  py_str : PyObj → str;
  (** [o < 0.8] *)
  py_lt_0_8 : PyObj → Result bool;
  (** [Literal(o)] *)
  Literal_of : PyObj → Term;
  (** [URIRef(o)] *)
  URIRef_of : PyObj → Result Term;
  (** [bool(term)] *)
  term_truthy : Term → bool;
  (** A parser run on [data] in [format]: the triples it hands to the
      graph, in order, and the error it ends with, if any. *)
  rdf_parse : str → str → list Triple * option str;
  (** [prepareQuery(text, initNs=self.namespaces)] and its projection
      variables [algebra.PV] *)
  Prepared : Type;
  prepareQuery : str → Result Prepared;
  PV : Prepared → list str;
  (** [g.query(prepared)], all solutions *)
  graph_query : Graph → Prepared → Result (list (gmap str Term));
  (** The rule catalogue of the reasoner and its iteration cap *)
  rules : list (Graph → Graph);
  iteration_cap : nat
}.

(** ** The service *)

Section Service.
Context {L : Libraries}.

Inductive Any :=
| AStr (s : str)
| AObj (o : PyObj).

(** The fields of the request that [evolve_concept] reads. *)
Record ConceptEvolutionRequest := {
  concept_id : str;
  concept_name : str;
  current_properties : gmap str Any;
  new_information : list (gmap str Any)
}.

Record Change := {
  change_property : str;
  old_value : str;
  new_value : str
}.

Record EvolutionResult := {
  evolution_success : bool;
  evolution_concept_id : str;
  evolution_applied : bool;
  changes_detected : list Change;
  reasoning_chain : list str;
  evolution_error : option str
}.

(** [self.graph.add(t)] *)
Definition base_add (t : Triple) : M unit :=
  s ← get_state; graph_add (graph s) t.

(** [setup_ontology] *)
Definition setup_ontology : M unit := for_each ontology_triples base_add.

(** [g.parse(data=..., format=...)]: the triples parsed before an error
    are already in the graph when the error is raised. *)
Definition graph_parse (l : loc) (data format : str) : M unit :=
  let (triples, failure) := rdf_parse data format in
  for_each triples (graph_add l) ;;
  match failure with
  | Some e => raise e
  | None => mret tt
  end.

(** [__init__]: [setup_redis] keeps the client only if the ping gets
    through; [setup_ontology] seeds the new graph. *)
Definition init (server : Redis) : State :=
  let s0 := {| heap := {[ 1%positive := ∅ ]}; graph := 1%positive;
               reasoning_cache := ∅;
               redis_client := if reachable server then Some server else None;
               bnode_seq := 0 |} in
  fst (setup_ontology s0).

(** *** Reasoner *)

(** Modelled from the spec: owlrl's [DeductiveClosure.expand] is not
    part of the repository.  Section 4.2: apply every rule to the
    accumulating triple set and add what the rules license, until a
    round adds nothing or the iteration cap is reached. *)
Fixpoint closure (cap : nat) (g : Graph) : Graph :=
  match cap with
  | O => g
  | S cap' =>
      let new := ⋃ (map (λ rule, rule g) rules) ∖ g in
      if decide (new = ∅) then g else closure cap' (g ∪ new)
  end.

(** [DeductiveClosure(...).expand(g)], in place *)
Definition expand (l : loc) : M unit :=
  modify (λ s, set_heap (<[l := closure iteration_cap (graph_at s l)]> (heap s)) s).

(** [apply_reasoning] *)
Definition apply_reasoning : M loc :=
  reasoning_graph ← new_graph;
  s ← get_state;
  for_each (elements (base_graph s)) (graph_add reasoning_graph) ;;
  expand reasoning_graph ;;
  mret reasoning_graph.

(** *** Queries *)

Definition lift {A} (r : Result A) : M A := λ s, (s, r).

(** [l[:stop]] *)
Definition slice_to {A} (l : list A) (stop : Z) : list A :=
  if (0 <=? stop)%Z then firstn (Z.to_nat stop) l
  else firstn (length l - Z.to_nat (- stop)) l.

(** [x if x else None] on an optional string *)
Definition or_none (o : option str) : option str :=
  match o with
  | Some (_ :: _) => o
  | _ => None
  end.

Definition cell_of (value : Term) : Cell :=
  match value with
  | URIRef v => CellUri v
  | Literal v d l => CellLiteral v (or_none d) (or_none l)
  | BNode v => CellBlank v
  end.

Definition cell_value (c : Cell) : str :=
  match c with
  | CellUri v => v
  | CellLiteral v _ _ => v
  | CellBlank v => v
  end.

(** [variable == value] for a variable of the query and a value of a
    solution: identifiers of rdflib are equal only when they are of the
    same class, and a value is a [URIRef], a [Literal] or a [BNode],
    never a [Variable]. *)
Definition variable_eqb (var : str) (value : Term) : bool :=
  match value with
  | URIRef _ => false
  | Literal _ _ _ => false
  | BNode _ => false
  end.

(** [var in row]: a [ResultRow] is a tuple of the values of a solution
    and has no [__contains__] of its own, so [in] looks for the variable
    among the values, not among the names that are bound. *)
Definition var_in_row (var : str) (row : gmap str Term) : bool :=
  existsb (variable_eqb var) (map_to_list row).*2.

(** The dict built for one solution:
    [value = row[var] if var in row else None], and an entry for [var]
    if that value is true. *)
Definition result_row (pv : list str) (row : gmap str Term) : Row :=
  fold_left (λ (acc : Row) var,
               match (if var_in_row var row then row !! var else None) with
               | Some value =>
                   if term_truthy value then <[var := cell_of value]> acc else acc
               | None => acc
               end) pv ∅.

(** [s.split(sep)[-1]] *)
Definition last_segment (sep : N) (s : str) : str :=
  fold_left (λ acc c, if c =? sep then [] else acc ++ [c]) s [].

(** [generate_brain_insights]; the constant [confidence] is left out. *)
Definition generate_brain_insights (row : Row) (bc : BrainContext)
  : list Insight :=
  match row !! lit "concept" with
  | Some cell =>
      [ {| insight_concept_id := last_segment 35 (cell_value cell);
           insight_type := "semantic_connection";
           insight_description :=
             lit "Concept identified in " ++ channel bc ++
             lit " context with temporal reasoning" |} ]
  | None => []
  end.

(** [query_data.query_hash or self.generate_query_hash(query_data)] *)
Definition cache_key (query_data : QueryRequest) : str :=
  match query_hash query_data with
  | Some (c :: h) => c :: h
  | _ => generate_query_hash query_data
  end.

(** The cache check at the head of [execute_sparql_query]; a failed
    retrieval is logged and counts as a miss. *)
Definition cache_lookup (key : str) : M (option QueryResponse) :=
  connected ← has_redis;
  if connected : bool
  then try_except (redis_get key) (λ _, mret None)
  else mret None.

Definition failure_response (key e : str) : QueryResponse :=
  {| success := false; results := []; reasoning_applied := false;
     response_query_hash := key; total_results := 0; error := Some e;
     brain_memory_integration := None; concept_insights := None |}.

(** The limit step: [if len(results) > limit: results = results[:limit]] *)
Definition apply_limit (results : list Row) (limit : Z) : list Row :=
  if decide (limit < Z.of_nat (length results))%Z
  then slice_to results limit else results.

(** The response of a query that went through. *)
Definition success_response (query_data : QueryRequest) (key : str)
    (results : list Row) (brain_insights : list Insight) : QueryResponse :=
  {| success := true; results := results;
     reasoning_applied := reasoning query_data;
     response_query_hash := key;
     total_results := Z.of_nat (length results);
     error := None;
     brain_memory_integration := Some
       {| concepts_analyzed := Z.of_nat (length brain_insights);
          memory_contexts_used :=
            match brain_context query_data with
            | Some _ => 1%Z
            | None => 0%Z
            end;
          temporal_reasoning_applied :=
            match brain_context query_data with
            | Some bc => temporal_reasoning bc
            | None => false
            end |};
     concept_insights := Some brain_insights |}.

(** The insights gathered over the rows of a result. *)
Definition collect_insights (query_data : QueryRequest) (rows : list Row)
  : list Insight :=
  match brain_context query_data with
  | Some bc => flat_map (λ row, generate_brain_insights row bc) rows
  | None => []
  end.

(** [cache_ttl]: 15 minutes with reasoning, 30 without. *)
Definition cache_ttl (query_data : QueryRequest) : Z :=
  if reasoning query_data then 900%Z else 1800%Z.

(** The body of the [try] block of [execute_sparql_query]. *)
Definition evaluate (query_data : QueryRequest) (key : str) : M QueryResponse :=
  s ← get_state;
  working_graph ← (if reasoning query_data then apply_reasoning
                   else mret (graph s));
  let enhanced_query :=
    enhance_query_with_brain_context (query query_data)
                                     (brain_context query_data) in
  prepared ← lift (prepareQuery enhanced_query);
  rows ← (if decide (query_type query_data = lit "SELECT") then
            s' ← get_state;
            query_results ← lift (graph_query (graph_at s' working_graph) prepared);
            mret (map (result_row (PV prepared)) query_results)
          else mret []);
  let brain_insights := collect_insights query_data rows in
  let results := apply_limit rows (limit query_data) in
  let response := success_response query_data key results brain_insights in
  connected ← has_redis;
  when connected
    (try_except
       (redis_setex (query_key_prefix ++ key) (cache_ttl query_data) response)
       (λ _, mret tt)) ;;
  mret response.

(** [execute_sparql_query].  The cache key is computed first, outside
    the [try] block, so a digest that cannot be computed (see
    [generate_query_hash]) is not turned into a response. *)
Definition execute_sparql_query (query_data : QueryRequest) : M QueryResponse :=
  let key := cache_key query_data in
  cached_result ← cache_lookup (query_key_prefix ++ key);
  match cached_result with
  | Some response => mret response
  | None =>
      try_except (evaluate query_data key)
                 (λ e, mret (failure_response key e))
  end.

(** *** Concept evolution *)

(** [d[k]]; the message of the [KeyError] is the [repr] of the key,
    for the keys used here the key between single quotes. *)
Definition getitem (d : gmap str Any) (k : str) : M Any :=
  match d !! k with
  | Some v => mret v
  | None => raise (PyStr.squote ++ k ++ PyStr.squote)
  end.

(** [str(term)] *)
Definition term_str (t : Term) : str :=
  match t with
  | URIRef v => v
  | Literal v _ _ => v
  | BNode v => v
  end.

Fixpoint map_m {A B} (f : A → M B) (l : list A) : M (list B) :=
  match l with
  | [] => mret []
  | x :: l' => y ← f x; ys ← map_m f l'; mret (y :: ys)
  end.

(** One round of the loop over [new_information]; the value is the
    line appended to [reasoning_chain]. *)
Definition add_information (concept_uri : Term) (info : gmap str Any) : M str :=
  subject_value ← getitem info "subject";
  subject ← match subject_value with
            | AStr v =>
                mret (if PyStr.startswith v "http" then URIRef v else concept_uri)
            | AObj _ => raise "object has no attribute 'startswith'"
            end;
  predicate_value ← getitem info "predicate";
  predicate ← match predicate_value with
              | AStr v => mret (URIRef v)
              | AObj o => lift (URIRef_of o)
              end;
  object_value ← getitem info "object";
  let obj := match object_value with
             | AStr v => Literal v None None
             | AObj o => URIRef (py_str o)
             end in
  base_add (subject, predicate, obj) ;;
  match info !! lit "confidence" with
  | Some confidence =>
      confidence_triple ← new_bnode;
      base_add (confidence_triple, ns_term OMNII "hasConfidence",
                match confidence with
                | AStr v => Literal v None None
                | AObj o => Literal_of o
                end) ;;
      base_add (subject, ns_term OMNII "hasEvidence", confidence_triple)
  | None => mret tt
  end ;;
  mret (lit "Added triple: " ++ term_str subject ++ lit " " ++
        term_str predicate ++ lit " " ++ term_str obj).

(** [evolve_concept] *)
Definition evolve_concept (evolution_data : ConceptEvolutionRequest)
  : M EvolutionResult :=
  try_except
    (let concept_uri := ns_term CONCEPT (concept_id evolution_data) in
     base_add (concept_uri, RDF_type, ns_term OMNII "Concept") ;;
     base_add (concept_uri, RDFS_label,
               Literal (concept_name evolution_data) None None) ;;
     added ← map_m (add_information concept_uri)
                   (new_information evolution_data);
     let current_props := current_properties evolution_data in
     weak ← match current_props !! lit "activation_strength" with
            | None => mret true
            | Some (AStr _) => raise "'<' not supported between 'str' and 'float'"
            | Some (AObj o) => lift (py_lt_0_8 o)
            end;
     let changes :=
       if weak : bool then
         [ {| change_property := "activation_strength";
              old_value := match current_props !! lit "activation_strength" with
                           | None => lit "0"
                           | Some (AStr v) => v
                           | Some (AObj o) => py_str o
                           end;
              new_value := "0.8" |} ]
       else [] in
     let chain :=
       if weak
       then added ++
            [lit "Increased activation strength based on brain memory evidence"]
       else added in
     mret {| evolution_success := true;
             evolution_concept_id := concept_id evolution_data;
             evolution_applied := bool_decide (0 < length changes)%nat;
             changes_detected := changes;
             reasoning_chain := chain;
             evolution_error := None |})
    (λ e, mret {| evolution_success := false;
                  evolution_concept_id := concept_id evolution_data;
                  evolution_applied := false;
                  changes_detected := [];
                  reasoning_chain := [];
                  evolution_error := Some e |}).

(** *** Import *)

(** [import_rdf_data] *)
Definition import_rdf_data (import_data : RDFImportRequest) : M ImportResult :=
  try_except
    (s ← get_state;
     initial_size ← graph_len (graph s);
     when (clear_graph import_data)
       (fresh_graph ← new_graph;
        modify (set_graph fresh_graph) ;;
        setup_ontology) ;;
     when (validation import_data)
       (temp_graph ← new_graph;
        graph_parse temp_graph (data import_data) (format import_data)) ;;
     s1 ← get_state;
     graph_parse (graph s1) (data import_data) (format import_data) ;;
     modify (set_reasoning_cache ∅) ;;
     connected ← has_redis;
     when connected (try_except redis_delete_query_keys (λ _, mret tt)) ;;
     s2 ← get_state;
     final_size ← graph_len (graph s2);
     mret {| import_success := true;
             triples_imported := (final_size - initial_size)%Z;
             total_triples := Some final_size;
             import_format := Some (format import_data);
             import_error := None |})
    (λ e, mret {| import_success := false;
                  triples_imported := 0;
                  total_triples := None;
                  import_format := None;
                  import_error := Some e |}).

End Service.


(** ** Introspection endpoints *)

(** The keys of [self.namespaces], in insertion order. *)
Definition namespace_prefixes : list str :=
  [lit "omnii"; lit "conv"; lit "concept"; lit "temporal";
   lit "rdf"; lit "rdfs"; lit "owl"; lit "xsd"].

(** [p == RDF.type and o == OWL.Class] *)
Definition declares_class (t : Triple) : Prop :=
  t.1.2 = RDF_type ∧ t.2 = OWL_Class.

(** [p == RDF.type and (o == OWL.ObjectProperty or o == OWL.DatatypeProperty)] *)
Definition declares_property (t : Triple) : Prop :=
  t.1.2 = RDF_type ∧ (t.2 = OWL_ObjectProperty ∨ t.2 = OWL_DatatypeProperty).

#[global] Instance declares_class_dec (t : Triple) : Decision (declares_class t).
Proof. unfold declares_class. apply _. Defined.

#[global] Instance declares_property_dec (t : Triple) :
  Decision (declares_property t).
Proof. unfold declares_property. apply _. Defined.

(** [redis_client.dbsize()] *)
Definition redis_dbsize : M Z :=
  redis_command (λ r, (r, Z.of_nat (size (entries r)))).

(** The value of [cache_size] in [health_check]: the number of keys, 0
    without a client or when the command fails. *)
Definition health_cache_size : M Z :=
  connected ← has_redis;
  if connected : bool
  then try_except redis_dbsize (λ _, mret 0%Z)
  else mret 0%Z.

Record Health := {
  health_status : str;
  health_graph_size : Z;
  health_cache_size_value : Z;
  health_brain_integration : bool;
  health_version : str
}.

(** [health_check]; the timestamp is left out. *)
Definition health_check : M Health :=
  cache_stats ← health_cache_size;
  s ← get_state;
  n ← graph_len (graph s);
  mret {| health_status := "healthy"; health_graph_size := n;
          health_cache_size_value := cache_stats;
          health_brain_integration := true; health_version := "1.0.0" |}.

Record Metrics := {
  metrics_graph_size : Z;
  metrics_cache_connected : bool;
  metrics_cache_key_count : Z;
  metrics_namespaces : list str;
  metrics_ontology_classes : Z;
  metrics_ontology_properties : Z
}.

(** The value of [cache_stats] in [get_metrics]. *)
Definition metrics_cache_stats : M (bool * Z) :=
  connected ← has_redis;
  if connected : bool
  then try_except (n ← redis_dbsize; mret (true, n)) (λ _, mret (false, 0%Z))
  else mret (false, 0%Z).

(** [get_metrics] *)
Definition get_metrics : M Metrics :=
  cache_stats ← metrics_cache_stats;
  s ← get_state;
  n ← graph_len (graph s);
  mret {| metrics_graph_size := n;
          metrics_cache_connected := cache_stats.1;
          metrics_cache_key_count := cache_stats.2;
          metrics_namespaces := namespace_prefixes;
          metrics_ontology_classes :=
            Z.of_nat (size (filter declares_class (base_graph s)));
          metrics_ontology_properties :=
            Z.of_nat (size (filter declares_property (base_graph s))) |}.

(** ** Brain memory analysis *)

(** The values a [Dict[str, Any]] decoded from JSON holds.  A float is
    carried as its text; a dict keeps its items in order, keys
    distinct. *)
#[warnings="-register-all"]
Inductive PyVal :=
| PNone
| PBool (b : bool)
| PInt (z : Z)
| PFloat (text : str)
| PStr (s : str)
| PList (items : list PyVal)
| PDict (items : list (str * PyVal)).

Module PyDict.

(** [d.get(k)] on the items of a dict *)
Fixpoint lookup (items : list (str * PyVal)) (k : str) : option PyVal :=
  match items with
  | [] => None
  | (k', v) :: rest => if decide (k' = k) then Some v else lookup rest k
  end.

(** [v.get(k, default)]: only a dict has the method. *)
Definition get (v : PyVal) (k : str) (default : PyVal) : Result PyVal :=
  match v with
  | PDict items => Ok (from_option id default (lookup items k))
  | _ => Raise "object has no attribute 'get'"
  end.

(** [for x in v]: the elements of a list, the characters of a string,
    the keys of a dict; nothing else can be iterated. *)
Definition iterate (v : PyVal) : Result (list PyVal) :=
  match v with
  | PList items => Ok items
  | PStr s => Ok (map (λ c, PStr [c]) s)
  | PDict items => Ok (map (λ kv, PStr kv.1) items)
  | _ => Raise "object is not iterable"
  end.

(** [v[:n]]: lists and strings can be sliced. *)
Definition slice (v : PyVal) (n : nat) : Result PyVal :=
  match v with
  | PList items => Ok (PList (firstn n items))
  | PStr s => Ok (PStr (firstn n s))
  | PDict _ => Raise "unhashable type: 'slice'"
  | _ => Raise "object is not subscriptable"
  end.

End PyDict.

Record TemporalPattern := {
  pattern_type : str;
  pattern_description : str;
  temporal_distribution : PyVal
}.

Record Recommendation := {
  recommendation_type : str;
  recommendation_description : str;
  concepts_involved : PyVal
}.

Record ConceptInsight := {
  analysed_concept_id : PyVal;
  analysed_insight_type : str;
  analysed_description : str
}.

Record BrainAnalysis := {
  analysis_success : bool;
  analysis_concept_insights : list ConceptInsight;
  temporal_patterns : list TemporalPattern;
  semantic_connections : list PyVal;
  consolidation_recommendations : list Recommendation;
  analysis_error : option str
}.

Section Analysis.
(** [a > b] on Python values: a bool, or the [TypeError] raised for
    operands that cannot be ordered. *)
Variable py_gt : PyVal → PyVal → Result bool.

Definition result_bind {A B} (r : Result A) (f : A → Result B) : Result B :=
  match r with
  | Ok a => f a
  | Raise e => Raise e
  end.

(** The body of the [try] block of [analyze_brain_memory], given the
    [full_brain_context] of the request; the constant confidences are
    left out. *)
Definition analyze_body (full_context : list (str * PyVal))
  : Result BrainAnalysis :=
  let working_memory :=
    from_option id (PDict []) (PyDict.lookup full_context "working_memory") in
  result_bind (PyDict.get working_memory "active_concepts" (PList []))
    (λ active_concepts,
  result_bind (PyDict.iterate active_concepts) (λ concepts,
  let concept_insights :=
    map (λ concept,
           {| analysed_concept_id := concept;
              analysed_insight_type := "semantic_connection";
              analysed_description :=
                "Active concept in working memory with semantic connections" |})
        concepts in
  result_bind (PyDict.get working_memory "time_window_stats" (PDict []))
    (λ time_stats,
  result_bind (PyDict.get time_stats "current_week_count" (PInt 0))
    (λ current,
  result_bind (PyDict.get time_stats "previous_week_count" (PInt 0))
    (λ previous,
  result_bind (py_gt current previous) (λ increasing,
  let temporal_patterns :=
    if increasing : bool then
      [ {| pattern_type := "increasing_activity";
           pattern_description := "Increasing concept activity in current week";
           temporal_distribution := time_stats |} ]
    else [] in
  result_bind
    (if decide (5 < length concept_insights)%nat then
       result_bind (PyDict.slice active_concepts 5) (λ first_five,
         Ok [ {| recommendation_type := "memory_consolidation";
                 recommendation_description :=
                   "High concept activity suggests memory consolidation opportunity";
                 concepts_involved := first_five |} ])
     else Ok [])
    (λ recommendations,
  Ok {| analysis_success := true;
        analysis_concept_insights := concept_insights;
        temporal_patterns := temporal_patterns;
        semantic_connections := [];
        consolidation_recommendations := recommendations;
        analysis_error := None |}))))))).

(** [analyze_brain_memory]: the result dict, also when the body raises. *)
Definition analyze_brain_memory (full_context : list (str * PyVal))
  : BrainAnalysis :=
  match analyze_body full_context with
  | Ok analysis => analysis
  | Raise e =>
      {| analysis_success := false; analysis_concept_insights := [];
         temporal_patterns := []; semantic_connections := [];
         consolidation_recommendations := []; analysis_error := Some e |}
  end.

End Analysis.

(** ** The analysis endpoint of the service API *)

Record RdfAnalysis := {
  rdf_success : bool;
  rdf_brain_analysis : option BrainAnalysis;
  rdf_semantic_patterns : list PyVal;
  rdf_concepts_analyzed : Z;
  rdf_patterns_found : Z;
  rdf_recommendations : Z;
  rdf_error : option str
}.

Section AnalyzeRdf.
Variable py_gt : PyVal → PyVal → Result bool.
(** Whether the float with the given text is not zero. *)
Variable float_truthy : str → bool.
(** What the validation of a [Dict[str, Any]] field makes of a value
    that is not a dict: a dict it could be read as, or the validation
    error. *)
Variable coerce_dict : PyVal → Result (list (str * PyVal)).

(** [if v:] *)
Definition py_truthy (v : PyVal) : bool :=
  match v with
  | PNone => false
  | PBool b => b
  | PInt z => negb (z =? 0)%Z
  | PFloat text => float_truthy text
  | PStr s => negb (bool_decide (s = []))
  | PList items => negb (bool_decide (items = []))
  | PDict items => negb (bool_decide (items = []))
  end.

(** A field of [BrainAnalysisRequest(...)] *)
Definition dict_field (v : PyVal) : Result (list (str * PyVal)) :=
  match v with
  | PDict items => Ok items
  | _ => coerce_dict v
  end.

(** The concepts behind [semantic_patterns]: those of a
    [nodeProcessing] that is true. *)
Definition node_concepts (node_processing : PyVal) : Result (list PyVal) :=
  if py_truthy node_processing then
    result_bind (PyDict.get node_processing "concepts" (PList []))
                PyDict.iterate
  else Ok [].

(** The body of the [try] block of [analyze_rdf]; the constant
    confidences, the time and the timestamp are left out. *)
Definition analyze_rdf_body (data : list (str * PyVal)) : Result RdfAnalysis :=
  let node_processing :=
    from_option id (PDict []) (PyDict.lookup data "nodeProcessing") in
  let rdf_data := from_option id (PDict data) (PyDict.lookup data "rdfData") in
  result_bind (PyDict.get rdf_data "brain_memory_context" (PDict []))
    (λ brain_memory_context,
  result_bind (PyDict.get rdf_data "rdf_analysis_request" (PDict []))
    (λ rdf_analysis_request,
  result_bind (PyDict.get rdf_data "expected_outputs" (PDict []))
    (λ expected_outputs,
  result_bind (PyDict.get rdf_data "full_brain_context" (PDict []))
    (λ full_brain_context,
  result_bind (dict_field brain_memory_context) (λ _,
  result_bind (dict_field rdf_analysis_request) (λ _,
  result_bind (dict_field expected_outputs) (λ _,
  result_bind (dict_field full_brain_context) (λ full_context,
  let brain_analysis := analyze_brain_memory py_gt full_context in
  result_bind (node_concepts node_processing) (λ concepts,
  Ok {| rdf_success := true;
        rdf_brain_analysis := Some brain_analysis;
        rdf_semantic_patterns := concepts;
        rdf_concepts_analyzed := Z.of_nat (length concepts);
        rdf_patterns_found :=
          Z.of_nat (length (temporal_patterns brain_analysis));
        rdf_recommendations :=
          Z.of_nat (length (consolidation_recommendations brain_analysis));
        rdf_error := None |}))))))))).

(** [analyze_rdf] *)
Definition analyze_rdf (data : list (str * PyVal)) : RdfAnalysis :=
  match analyze_rdf_body data with
  | Ok analysis => analysis
  | Raise e =>
      {| rdf_success := false; rdf_brain_analysis := None;
         rdf_semantic_patterns := []; rdf_concepts_analyzed := 0;
         rdf_patterns_found := 0; rdf_recommendations := 0;
         rdf_error := Some e |}
  end.

End AnalyzeRdf.
(** ** Vocabulary of the properties *)

(** The reading the specification gives of the rewrite: only the first
    occurrence of [old] is replaced ([s.replace(old, new, 1)]). *)
Fixpoint replace_first (s old new : str) : str :=
  match s with
  | [] => []
  | c :: s' =>
      if PyStr.startswith s old then new ++ skipn (length old) s
      else c :: replace_first s' old new
  end.

(** A Unicode scalar value: a code point that is not a surrogate. *)
Definition scalar (c : N) : Prop := c < 0xD800 ∨ (0xE000 ≤ c ∧ c ≤ 0x10FFFF).

(** A string free of surrogate code points, as any text decoded from
    UTF-8 is. *)
Definition scalar_str (s : str) : Prop := Forall scalar s.

(** [self.graph] refers to a graph object that exists. *)
Definition wf (s : State) : Prop := graph s ∈ dom (heap s).

#[global] Instance wf_dec (s : State) : Decision (wf s).
Proof. unfold wf. apply _. Defined.

(** The two halves of the surrogate pair of a code point above the BMP. *)
Definition surrogate_high (c : N) : N :=
  N.lor 0xd800 (N.land (N.shiftr (c - 0x10000) 10) 0x3ff).

Definition surrogate_low (c : N) : N :=
  N.lor 0xdc00 (N.land (c - 0x10000) 0x3ff).

(** The short escapes: code point and letter behind the backslash. *)
Definition short_escape (c e : N) : Prop :=
  (c = 92 ∧ e = 92) ∨ (c = 34 ∧ e = 34) ∨ (c = 8 ∧ e = 98) ∨
  (c = 12 ∧ e = 102) ∨ (c = 10 ∧ e = 110) ∨ (c = 13 ∧ e = 114) ∨
  (c = 9 ∧ e = 116).

Definition is_ascii (c : N) : Prop := c < 128.

(** The text [json.dumps] gives for [brain_context]. *)
Definition context_text (c : option BrainContext) : str :=
  match c with
  | Some bc => PyJson.dumps (BrainContext_dict bc)
  | None => lit "null"
  end.

(** One [key: value] item of a rendered object. *)
Definition item (k v : str) : str :=
  PyJson.encode_basestring_ascii k ++ lit ": " ++ v.

Definition scalar_context (c : option BrainContext) : Prop :=
  match c with
  | Some bc => scalar_str (user_id bc) ∧ scalar_str (channel bc)
  | None => True
  end.

(** The strings a request contributes to the hash input are free of
    surrogates. *)
Definition scalar_request (q : QueryRequest) : Prop :=
  scalar_str (query q) ∧ scalar_context (brain_context q).

#[global] Instance scalar_dec (c : N) : Decision (scalar c).
Proof. unfold scalar. apply _. Defined.

#[global] Instance scalar_str_dec (s : str) : Decision (scalar_str s).
Proof. unfold scalar_str. apply _. Defined.

#[global] Instance scalar_context_dec (c : option BrainContext) :
  Decision (scalar_context c).
Proof. destruct c; simpl; apply _. Defined.

#[global] Instance scalar_request_dec (q : QueryRequest) :
  Decision (scalar_request q).
Proof. unfold scalar_request. apply _. Defined.

(** Settle a decidable statement about concrete data by evaluation. *)
(** The bytes of a request that are handed to MD5. *)
Definition digest_input (q : QueryRequest) : list N :=
  PyBytes.encode (PyJson.dumps (hash_input q)).

Ltac by_evaluation := apply (bool_decide_unpack _); vm_compute; exact I.

(** The state after [Graph()]. *)
Definition alloc (s : State) : State :=
  set_heap (<[fresh (dom (heap s)) := ∅]> (heap s)) s.

(** The state after adding the triples [ts], in order, to the graph
    object at [l]. *)
Definition add_all (l : loc) (ts : list Triple) (s : State) : State :=
  fold_left (λ s t, set_heap (<[l := {[t]} ∪ graph_at s l]> (heap s)) s) ts s.

(** Nothing is stored under [key] in a cache that can be reached. *)
Definition cache_miss (s : State) (key : str) : Prop :=
  ∀ r, redis_client s = Some r → reachable r = true → entries r !! key = None.

(** The keys of the query cache that are stored in [s]. *)
Definition cached_queries (s : State) : gset str :=
  match redis_client s with
  | Some r => filter (λ k, PyStr.startswith k query_key_prefix = true)
                     (dom (entries r))
  | None => ∅
  end.

(** The state [__init__] starts from, before the ontology is set up. *)
Definition blank (server : Redis) : State :=
  {| heap := {[ 1%positive := ∅ ]}; graph := 1%positive;
     reasoning_cache := ∅;
     redis_client := if reachable server then Some server else None;
     bnode_seq := 0 |}.

(** The state after the cache write that ends a query. *)
Definition stored (key : str) (ttl : Z) (response : QueryResponse) (s : State)
  : State :=
  match redis_client s with
  | Some r =>
      if reachable r then
        set_redis
          (Some {| entries := <[query_key_prefix ++ key := (ttl, response)]>
                                (entries r);
                   reachable := reachable r |}) s
      else s
  | None => s
  end.

(** [s'] differs from [s] by graph objects that grew or were created:
    the references of the service and its cache are the same, the base
    graph has lost no triple. *)
Definition extends (s s' : State) : Prop :=
  graph s' = graph s ∧ redis_client s' = redis_client s ∧
  reasoning_cache s' = reasoning_cache s ∧
  base_graph s ⊆ base_graph s' ∧ dom (heap s) ⊆ dom (heap s').

(** Every run of [m] ends in a state related to the initial one by [R],
    whether it returns or raises. *)
Definition keeps (R : State → State → Prop) {A} (m : M A) : Prop :=
  ∀ s, R s (m s).1.

Section ServiceVocabulary.
Context {L : Libraries}.

(** The state after [apply_reasoning]: a new graph object holding the
    closure of a copy of the base graph. *)
Definition reasoned (s : State) : State :=
  let l := fresh (dom (heap s)) in
  let s1 := add_all l (elements (base_graph s)) (alloc s) in
  set_heap (<[l := closure iteration_cap (graph_at s1 l)]> (heap s1)) s1.

(** The triples the query of a request is evaluated on. *)
Definition working_triples (s : State) (query_data : QueryRequest) : Graph :=
  if reasoning query_data then closure iteration_cap (base_graph s)
  else base_graph s.

(** The triples the parser hands over for the data of an import, and
    the error it ends with. *)
Definition parsed (req : RDFImportRequest) : list Triple :=
  (rdf_parse (data req) (format req)).1.

Definition parse_error (req : RDFImportRequest) : option str :=
  (rdf_parse (data req) (format req)).2.

(** The state of an import after the optional clear ... *)
Definition cleared (req : RDFImportRequest) (s : State) : State :=
  if clear_graph req then
    let l := fresh (dom (heap s)) in
    add_all l ontology_triples (set_graph l (alloc s))
  else s.

(** ... after the optional validation parse into a scratch graph ... *)
Definition validated (req : RDFImportRequest) (s : State) : State :=
  if validation req then
    let s1 := cleared req s in
    add_all (fresh (dom (heap s1))) (parsed req) (alloc s1)
  else cleared req s.

(** ... and after the parse into the base graph. *)
Definition merged (req : RDFImportRequest) (s : State) : State :=
  let s2 := validated req s in add_all (graph s2) (parsed req) s2.

(** The state after the cache clearing step of an import. *)
Definition invalidated (s : State) : State :=
  match redis_client s with
  | Some r =>
      if reachable r then
        set_redis
          (Some {| entries :=
                     filter (λ kv, PyStr.startswith kv.1 query_key_prefix = false)
                            (entries r);
                   reachable := reachable r |}) s
      else s
  | None => s
  end.

Definition import_failure (e : str) : ImportResult :=
  {| import_success := false; triples_imported := 0; total_triples := None;
     import_format := None; import_error := Some e |}.

End ServiceVocabulary.

(** ** A small implementation of the libraries

    Used to run the service on concrete requests: a parser that accepts
    one Turtle document and the empty one, an engine that answers every
    well-formed query with all triples of the graph bound to
    [?s ?p ?o], one reasoning rule, and the integers as the Python
    values that are not strings. *)
Module Fixture.

Definition c1 : Triple :=
  (URIRef "http://example.org/c1", RDF_type, ns_term OMNII "Concept").

Definition c1_document : str :=
  "<http://example.org/c1> a <https://omnii.ai/ontology#Concept> .".

Definition parse (data format : str) : list Triple * option str :=
  if decide (data = c1_document) then ([c1], None)
  else if decide (data = []) then ([], None)
  else ([], Some (lit "Bad syntax")).

Definition prepare (text : str) : Result str :=
  if PyStr.contains text block_delimiter then Ok text
  else Raise "Expected {SelectQuery | ConstructQuery | DescribeQuery | AskQuery}".

Definition solutions_of (g : Graph) : list (gmap str Term) :=
  map (λ t : Triple,
         let '(s, p, o) := t in
         <[lit "s" := s]> (<[lit "p" := p]> {[lit "o" := o]}))
      (elements g).

Definition solutions (g : Graph) (prepared : str)
  : Result (list (gmap str Term)) :=
  Ok (solutions_of g).

(** Every declared class is a subclass of itself. *)
Definition reflexive_subclass (g : Graph) : Graph :=
  set_map (λ t : Triple, (t.1.1, ns_term RDFS "subClassOf", t.1.1))
          (filter (λ t : Triple, t.1.2 = RDF_type ∧ t.2 = OWL_Class) g).

Definition libraries : Libraries :=
  {| PyObj := Z;
     py_str := PyJson.str_of_int;
     py_lt_0_8 := λ z, Ok (z <? 1)%Z;
     Literal_of := λ z, Literal (PyJson.str_of_int z)
                                (Some (XSD ++ lit "integer")) None;
     URIRef_of := λ _, Raise "argument of type 'int' is not iterable";
     term_truthy := λ t, match t with
                         | URIRef [] | BNode [] | Literal [] _ _ => false
                         | _ => true
                         end;
     rdf_parse := parse;
     Prepared := str;
     prepareQuery := prepare;
     PV := λ _, [lit "s"; lit "p"; lit "o"];
     graph_query := solutions;
     rules := [reflexive_subclass];
     iteration_cap := 8 |}.

Definition cache_server : Redis := {| entries := ∅; reachable := true |}.

Definition select_all (n : Z) : QueryRequest :=
  {| query := "SELECT ?s ?p ?o WHERE { ?s ?p ?o }";
     query_type := "SELECT"; reasoning := false; timeout := 10;
     limit := n; namespaces := None; brain_context := None;
     query_hash := None |}.

Definition malformed (clear : bool) : RDFImportRequest :=
  {| data := "INVALID RDF DATA"; format := "turtle"; validation := true;
     clear_graph := clear; named_graph := None |}.

Definition import_c1 (clear : bool) : RDFImportRequest :=
  {| data := c1_document; format := "turtle"; validation := true;
     clear_graph := clear; named_graph := None |}.

Definition import_empty (clear : bool) : RDFImportRequest :=
  {| data := ""; format := "turtle"; validation := true;
     clear_graph := clear; named_graph := None |}.

(** The state after the service started and imported [c1]. *)
Definition after_import : State :=
  (import_rdf_data (L := libraries) (import_c1 false) (init cache_server)).1.

Definition context (temporal : bool) : BrainContext :=
  {| user_id := "123e4567-e89b-12d3-a456-426614174000"; channel := "sms";
     memory_window_hours := 168; include_working_memory := true;
     include_episodic_memory := true; include_semantic_memory := true;
     temporal_reasoning := temporal |}.

Definition select_with_context (n : Z) : QueryRequest :=
  {| query := "SELECT ?s ?p ?o WHERE { ?s ?p ?o }";
     query_type := "SELECT"; reasoning := false; timeout := 10;
     limit := n; namespaces := None; brain_context := Some (context true);
     query_hash := None |}.

Definition concept_query : str :=
  "SELECT ?concept WHERE { ?concept a omnii:Concept . }".

(** A query with a sub-select: two blocks, two delimiters. *)
Definition nested_query : str :=
  "SELECT ?concept WHERE { { SELECT ?concept WHERE { ?concept a omnii:Concept } } }".

(** A request that brings its own cache key. *)
Definition select_keyed (text key : str) : QueryRequest :=
  {| query := text; query_type := "SELECT"; reasoning := false;
     timeout := 10; limit := 100; namespaces := None;
     brain_context := None; query_hash := Some key |}.

Definition keyed_all : QueryRequest :=
  select_keyed "SELECT ?s ?p ?o WHERE { ?s ?p ?o }" "shared".

Definition keyed_classes : QueryRequest :=
  select_keyed "SELECT ?s WHERE { ?s a owl:Class }" "shared".

(** The response of the engine to [q] on a graph holding [g]. *)
Definition answer (q : QueryRequest) (g : Graph) : QueryResponse :=
  let rows := map (result_row (L := libraries) [lit "s"; lit "p"; lit "o"])
                  (solutions_of g) in
  success_response q (cache_key q) (apply_limit rows (limit q))
                   (collect_insights q rows).

(** The state after the service started and answered one query. *)
Definition after_query : State :=
  (execute_sparql_query (L := libraries) (select_all 5) (init cache_server)).1.

(** The same state, with the connection to the cache server lost. *)
Definition offline (s : State) : State :=
  set_redis
    (match redis_client s with
     | Some r => Some {| entries := entries r; reachable := false |}
     | None => None
     end) s.

End Fixture.

(** ** Vocabulary of the further properties *)

(** [s'] has every graph object of [s] with the triples it had, and the
    same references; objects may have been created. *)
Definition keeps_objects (s s' : State) : Prop :=
  graph s' = graph s ∧ reasoning_cache s' = reasoning_cache s ∧
  dom (heap s) ⊆ dom (heap s') ∧
  ∀ l, l ∈ dom (heap s) → graph_at s' l = graph_at s l.

(** A hexadecimal digit in lower case. *)
Definition hex_char (c : N) : Prop := (48 ≤ c ∧ c ≤ 57) ∨ (97 ≤ c ∧ c ≤ 102).

Section QueryVocabulary.
Context {L : Libraries}.

(** The state a query is evaluated in: with reasoning, the closure has
    been computed into a new graph object. *)
Definition working_state (query_data : QueryRequest) (s : State) : State :=
  if reasoning query_data then reasoned s else s.

(** The solutions of the prepared query [p] of a request: those of the
    engine for a SELECT query, none for another query type. *)
Definition solutions_for (query_data : QueryRequest) (s : State) (p : Prepared)
  : Result (list (gmap str Term)) :=
  if decide (query_type query_data = lit "SELECT")
  then graph_query (working_triples s query_data) p
  else Ok [].

(** The response built from the solutions [sols] of the prepared query
    [p]. *)
Definition response_for (query_data : QueryRequest) (key : str) (p : Prepared)
    (sols : list (gmap str Term)) : QueryResponse :=
  let rows := map (result_row (PV p)) sols in
  success_response query_data key (apply_limit rows (limit query_data))
                   (collect_insights query_data rows).

End QueryVocabulary.


Section EvolutionVocabulary.
Context {L : Libraries}.

(** An entry of [new_information] whose subject, predicate and object
    are the strings of [item], and that carries no confidence. *)
Definition plain_item (info : gmap str Any) (item : str * str * str) : Prop :=
  info !! lit "subject" = Some (AStr item.1.1) ∧
  info !! lit "predicate" = Some (AStr item.1.2) ∧
  info !! lit "object" = Some (AStr item.2) ∧
  info !! lit "confidence" = None.

(** The subject a statement is attached to. *)
Definition item_subject (concept_uri : Term) (item : str * str * str) : Term :=
  if PyStr.startswith item.1.1 "http" then URIRef item.1.1 else concept_uri.

(** The triple such an entry stands for. *)
Definition item_triple (concept_uri : Term) (item : str * str * str) : Triple :=
  (item_subject concept_uri item, URIRef item.1.2, Literal item.2 None None).

(** The two triples every call of [evolve_concept] starts with. *)
Definition concept_triples (req : ConceptEvolutionRequest) : list Triple :=
  [ (ns_term CONCEPT (concept_id req), RDF_type, ns_term OMNII "Concept");
    (ns_term CONCEPT (concept_id req), RDFS_label,
     Literal (concept_name req) None None) ].

End EvolutionVocabulary.

(** The cache server a command can reach from [s], if any. *)
Definition reachable_cache (s : State) : option Redis :=
  match redis_client s with
  | Some r => if reachable r then Some r else None
  | None => None
  end.

(** The field [k] of the dict with items [d] is a dict, or is missing
    and defaults to the empty one. *)
Definition dict_or_absent (d : list (str * PyVal)) (k : str) : Prop :=
  ∃ items, from_option id (PDict []) (PyDict.lookup d k) = PDict items.

(** ** Sample inputs of the further properties *)

Module Sample.

(** [a > b] on two integers; other operands are not ordered here. *)
Definition int_gt (a b : PyVal) : Result bool :=
  match a, b with
  | PInt x, PInt y => Ok (bool_decide (y < x)%Z)
  | _, _ => Raise "'>' not supported between these instances"
  end.

(** The [full_brain_context] of the test suite's analysis request. *)
Definition working_memory : list (str * PyVal) :=
  [ (lit "active_concepts", PList [PStr "concept1"; PStr "concept2"]);
    (lit "time_window_stats",
     PDict [ (lit "current_week_count", PInt 10);
             (lit "previous_week_count", PInt 5) ]) ].

Definition full_brain_context : list (str * PyVal) :=
  [ (lit "working_memory", PDict working_memory) ].

(** The query of the test suite that is not SPARQL. *)
Definition unparsable : QueryRequest :=
  {| query := "INVALID SPARQL SYNTAX"; query_type := "SELECT";
     reasoning := false; timeout := 10; limit := 100; namespaces := None;
     brain_context := None; query_hash := None |}.

Definition select_reasoned : QueryRequest :=
  {| query := "SELECT ?s ?p ?o WHERE { ?s ?p ?o }"; query_type := "SELECT";
     reasoning := true; timeout := 10; limit := 100; namespaces := None;
     brain_context := None; query_hash := None |}.

Definition ask_all : QueryRequest :=
  {| query := "ASK WHERE { ?s ?p ?o }"; query_type := "ASK";
     reasoning := false; timeout := 10; limit := 100; namespaces := None;
     brain_context := None; query_hash := None |}.

(** A parser that hands over one triple of a document that breaks off
    after it. *)
Definition truncated_document : str :=
  "<http://example.org/c1> a <https://omnii.ai/ontology#Concept> . <http://".

Definition partial_parse (data format : str) : list Triple * option str :=
  if decide (data = truncated_document)
  then ([Fixture.c1], Some (lit "Bad syntax"))
  else Fixture.parse data format.

Definition partial_libraries : Libraries :=
  {| PyObj := Z;
     py_str := @py_str Fixture.libraries;
     py_lt_0_8 := @py_lt_0_8 Fixture.libraries;
     Literal_of := @Literal_of Fixture.libraries;
     URIRef_of := @URIRef_of Fixture.libraries;
     term_truthy := @term_truthy Fixture.libraries;
     rdf_parse := partial_parse;
     Prepared := str;
     prepareQuery := Fixture.prepare;
     PV := @PV Fixture.libraries;
     graph_query := Fixture.solutions;
     rules := [Fixture.reflexive_subclass];
     iteration_cap := 8 |}.

Definition truncated : RDFImportRequest :=
  {| data := truncated_document; format := "turtle"; validation := false;
     clear_graph := false; named_graph := None |}.

(** An evolution request with one entry that has no keys, and one with
    a statement about the concept itself. *)
Definition evolution_without_subject
  : ConceptEvolutionRequest (L := Fixture.libraries) :=
  {| concept_id := "123e4567-e89b-12d3-a456-426614174000";
     concept_name := "test_concept";
     current_properties := ∅;
     new_information := [∅] |}.

Definition statement : str * str * str :=
  (lit "self", lit "https://omnii.ai/ontology#relatedTo", lit "memory").

Definition evolution_with_statement
  : ConceptEvolutionRequest (L := Fixture.libraries) :=
  {| concept_id := "123e4567-e89b-12d3-a456-426614174000";
     concept_name := "test_concept";
     current_properties := ∅;
     new_information :=
       [ <[lit "subject" := AStr statement.1.1]>
           (<[lit "predicate" := AStr statement.1.2]>
              {[ lit "object" := AStr statement.2 ]}) ] |}.

(** A validation that takes dicts only, and a reading of floats. *)
Definition strict_dict (v : PyVal) : Result (list (str * PyVal)) :=
  Raise "value is not a valid dict".

Definition float_nonzero (text : str) : bool :=
  existsb (λ c, (49 <=? c) && (c <=? 57)) text.

(** A request to the analysis endpoint whose working memory is a list,
    and one whose [rdfData] is a list. *)
Definition analysis_request : list (str * PyVal) :=
  [ (lit "nodeProcessing", PDict [ (lit "concepts", PList [PStr "c1"]) ]);
    (lit "rdfData",
     PDict [ (lit "full_brain_context",
              PDict [ (lit "working_memory", PList []) ]) ]) ].

Definition misshapen_request : list (str * PyVal) :=
  [ (lit "rdfData", PList []) ].

(** An engine that binds [?concept] to every subject of the graph, and
    the query of the test suite for concepts, with its context. *)
Definition concept_solutions (g : Graph) (prepared : str)
  : Result (list (gmap str Term)) :=
  Ok (map (λ t : Triple, {[ lit "concept" := t.1.1 ]}) (elements g)).

Definition concept_libraries : Libraries :=
  {| PyObj := Z;
     py_str := @py_str Fixture.libraries;
     py_lt_0_8 := @py_lt_0_8 Fixture.libraries;
     Literal_of := @Literal_of Fixture.libraries;
     URIRef_of := @URIRef_of Fixture.libraries;
     term_truthy := @term_truthy Fixture.libraries;
     rdf_parse := Fixture.parse;
     Prepared := str;
     prepareQuery := Fixture.prepare;
     PV := λ _, [lit "concept"];
     graph_query := concept_solutions;
     rules := [Fixture.reflexive_subclass];
     iteration_cap := 8 |}.

Definition concept_request : QueryRequest :=
  {| query := Fixture.concept_query; query_type := "SELECT";
     reasoning := false; timeout := 10; limit := 100; namespaces := None;
     brain_context := Some (Fixture.context true); query_hash := None |}.

(** A cache server that cannot be reached. *)
Definition server_down : Redis := {| entries := ∅; reachable := false |}.

End Sample.

(** * Properties *)

(** ** Text replacement *)

Module PyStrFacts.
Import PyStr.

Lemma startswith_app (p r : str) : startswith (p ++ r) p = true.
Proof.
  induction p as [|c p IH]; simpl; [done|].
  by rewrite N.eqb_refl, IH.
Qed.

Lemma startswith_true (s p : str) :
  startswith s p = true → ∃ r, s = p ++ r.
Proof.
  revert s; induction p as [|a p IH]; intros s Hs; simpl in *.
  - by exists s.
  - destruct s as [|b s]; [done|].
    apply andb_true_iff in Hs as [Hab Hs].
    apply N.eqb_eq in Hab as ->.
    destruct (IH _ Hs) as [r ->]. by exists r.
Qed.

(** Looking at a prefix long enough to hold [p] decides the test. *)
Lemma startswith_long_prefix (a b p : str) :
  (length p ≤ length a)%nat → startswith (a ++ b) p = startswith a p.
Proof.
  revert a; induction p as [|x p IH]; intros a Hlen; simpl in *.
  - by destruct a.
  - destruct a as [|y a]; simpl in *; [lia|].
    rewrite IH; [done|lia].
Qed.

Lemma replace_from_skip (old new a r : str) :
  old ≠ [] →
  replace_from old new (length a) (a ++ r) = replace_from old new 0 r.
Proof.
  intros Hold. induction a as [|c a IH]; simpl; [done|]. exact IH.
Qed.

(** No occurrence: the text is returned as it is. *)
Lemma replace_absent (s old new : str) :
  contains s old = false → replace s old new = s.
Proof.
  unfold replace. induction s as [|c s IH]; simpl; intros Hc.
  - destruct old; [done|reflexivity].
  - apply orb_false_iff in Hc as [Hst Hc].
    destruct old as [|a old']; [done|].
    simpl in *. rewrite Hst. f_equal. by apply IH.
Qed.

(** The leftmost occurrence is rewritten and the scan goes on behind
    it: every later occurrence is rewritten as well. *)
Lemma replace_leftmost (old' : str) (z : N) (new p r : str) :
  contains (p ++ old') (old' ++ [z]) = false →
  replace (p ++ (old' ++ [z]) ++ r) (old' ++ [z]) new
  = p ++ new ++ replace r (old' ++ [z]) new.
Proof.
  unfold replace. set (old := old' ++ [z]).
  assert (Hne : old ≠ []) by (subst old; by destruct old').
  assert (Hlen : length old = S (length old'))
    by (subst old; rewrite length_app; simpl; lia).
  induction p as [|c p IH]; intros Hc.
  - simpl app at 1.
    destruct old as [|a o] eqn:Ho; [done|].
    simpl. rewrite N.eqb_refl, startswith_app. simpl.
    f_equal. apply (replace_from_skip (a :: o) new o r). done.
  - simpl in Hc. apply orb_false_iff in Hc as [Hst Hc].
    specialize (IH Hc).
    assert (Hst' : startswith ((c :: p) ++ old ++ r) old = false).
    { rewrite <- Hst.
      replace ((c :: p) ++ old ++ r) with (((c :: p) ++ old') ++ [z] ++ r)
        by (subst old; by rewrite <- !app_assoc).
      apply startswith_long_prefix.
      rewrite Hlen. simpl. rewrite length_app. lia. }
    destruct old as [|a o] eqn:Ho; [done|].
    simpl in *. rewrite Hst'. f_equal. exact IH.
Qed.

End PyStrFacts.

(** ** Context augmenter *)

(** The identifier of the context has no influence on the rewritten
    text. *)
Lemma enhance_ignores_user_id (q u : str) (bc : BrainContext) :
  enhance_query_with_brain_context q (Some bc)
  = enhance_query_with_brain_context q
      (Some {| user_id := u; channel := channel bc;
               memory_window_hours := memory_window_hours bc;
               include_working_memory := include_working_memory bc;
               include_episodic_memory := include_episodic_memory bc;
               include_semantic_memory := include_semantic_memory bc;
               temporal_reasoning := temporal_reasoning bc |}).
Proof. reflexivity. Qed.

(** Without the temporal flag a context changes nothing at all. *)
Lemma enhance_without_temporal (q : str) (bc : BrainContext) :
  temporal_reasoning bc = false →
  enhance_query_with_brain_context q (Some bc) = q.
Proof. intros Ht. unfold enhance_query_with_brain_context. by rewrite Ht. Qed.

(** C2, evaluated on the test suite's context and a query over
    [?concept]: the text returned for a query with a context holds no
    existence filter and does not mention the user identifier, with the
    temporal flag set (only the optional block is inserted) and with the
    flag cleared (the query comes back unchanged). *)
Theorem user_filter_is_not_inserted :
  PyStr.contains
    (enhance_query_with_brain_context Fixture.concept_query
                                      (Some (Fixture.context true)))
    "FILTER EXISTS" = false ∧
  PyStr.contains
    (enhance_query_with_brain_context Fixture.concept_query
                                      (Some (Fixture.context true)))
    (user_id (Fixture.context true)) = false ∧
  PyStr.contains
    (enhance_query_with_brain_context Fixture.concept_query
                                      (Some (Fixture.context true)))
    "OPTIONAL {" = true ∧
  enhance_query_with_brain_context Fixture.concept_query
                                   (Some (Fixture.context false))
  = Fixture.concept_query.
Proof. repeat split; vm_compute; reflexivity. Qed.

(** C3, as amended: with the temporal flag set, the rewrite returns a
    text without the delimiter unchanged, and in a text whose leftmost
    delimiter follows [p] it inserts the optional block behind that
    delimiter and goes on rewriting the rest [r] in the same way, so
    that every delimiter of the text gets the block. *)
Theorem augmenter_rewrites_every_delimiter (bc : BrainContext) :
  temporal_reasoning bc = true →
  (∀ q : str,
     PyStr.contains q block_delimiter = false →
     enhance_query_with_brain_context q (Some bc) = q) ∧
  (∀ p r : str,
     PyStr.contains (p ++ lit "WHERE ") block_delimiter = false →
     enhance_query_with_brain_context (p ++ block_delimiter ++ r) (Some bc)
     = p ++ block_delimiter ++ temporal_filter ++
       enhance_query_with_brain_context r (Some bc)).
Proof.
  intros Ht. unfold enhance_query_with_brain_context. rewrite Ht. split.
  - intros q Hq. by apply PyStrFacts.replace_absent.
  - intros p r Hp.
    change block_delimiter with (lit "WHERE " ++ [123]) at 1 2 4.
    rewrite PyStrFacts.replace_leftmost by exact Hp.
    by rewrite <- !app_assoc.
Qed.

Lemma augmenter_rewrites_every_delimiter_witness :
  temporal_reasoning (Fixture.context true) = true ∧
  enhance_query_with_brain_context
    (lit "ASK " ++ block_delimiter ++ lit " ?s ?p ?o }")
    (Some (Fixture.context true))
  = lit "ASK " ++ block_delimiter ++ temporal_filter ++
    enhance_query_with_brain_context (lit " ?s ?p ?o }")
                                     (Some (Fixture.context true)).
Proof.
  split; [reflexivity|].
  apply (augmenter_rewrites_every_delimiter (Fixture.context true)
           eq_refl).
  vm_compute. reflexivity.
Defined.

(** C3 as stated fails on a query with a sub-select: the delimiter
    occurs twice, the optional block is inserted twice, and the result
    is not the text in which only the first delimiter is rewritten. *)
Lemma augmenter_not_first_occurrence_only :
  PyStr.count Fixture.nested_query block_delimiter = 2%nat ∧
  PyStr.count
    (enhance_query_with_brain_context Fixture.nested_query
                                      (Some (Fixture.context true)))
    "OPTIONAL {" = 2%nat ∧
  enhance_query_with_brain_context Fixture.nested_query
                                   (Some (Fixture.context true))
  ≠ replace_first Fixture.nested_query block_delimiter
                  (block_delimiter ++ temporal_filter).
Proof.
  split; [vm_compute; reflexivity|]. split; [vm_compute; reflexivity|].
  intros Heq.
  apply (f_equal (λ s : str, PyStr.count s "OPTIONAL {")) in Heq.
  vm_compute in Heq. discriminate Heq.
Qed.

(** ** JSON text of the hash input *)

Module PyJsonFacts.
Import PyJson.

Lemma hexdigit_inj a b : a < 16 → b < 16 → hexdigit a = hexdigit b → a = b.
Proof.
  unfold hexdigit. intros Ha Hb.
  destruct (N.ltb_spec a 10), (N.ltb_spec b 10); lia.
Qed.

Lemma hex4_digits n :
  n < 65536 →
  n = 4096 * (n / 4096 mod 16) + 256 * (n / 256 mod 16) +
      16 * (n / 16 mod 16) + n mod 16.
Proof.
  intros Hn.
  assert (E2 : n / 16 / 16 = n / 256)
    by (rewrite N.Div0.div_div; reflexivity).
  assert (E3 : n / 256 / 16 = n / 4096)
    by (rewrite N.Div0.div_div; reflexivity).
  assert (E4 : n / 4096 / 16 = 0)
    by (rewrite N.Div0.div_div; apply N.div_small; exact Hn).
  pose proof (N.div_mod' n 16) as H0.
  pose proof (N.div_mod' (n / 16) 16) as H1.
  pose proof (N.div_mod' (n / 256) 16) as H2.
  pose proof (N.div_mod' (n / 4096) 16) as H3.
  rewrite E2 in H1. rewrite E3 in H2. rewrite E4 in H3.
  lia.
Qed.

Lemma hex4_inj n m : n < 65536 → m < 65536 → hex4 n = hex4 m → n = m.
Proof.
  intros Hn Hm Heq. unfold hex4 in Heq.
  injection Heq as H3 H2 H1 H0.
  apply hexdigit_inj in H3; [|apply N.mod_upper_bound; lia..].
  apply hexdigit_inj in H2; [|apply N.mod_upper_bound; lia..].
  apply hexdigit_inj in H1; [|apply N.mod_upper_bound; lia..].
  apply hexdigit_inj in H0; [|apply N.mod_upper_bound; lia..].
  rewrite (hex4_digits n Hn), (hex4_digits m Hm). congruence.
Qed.

(** The two halves of a surrogate pair, arithmetically. *)
Lemma lor_surrogate a :
  a < 1024 →
  N.lor 0xd800 a = 0xd800 + a ∧ N.lor 0xdc00 a = 0xdc00 + a.
Proof.
  intros Ha.
  assert (Hall : forallb (λ k, (N.lor 0xd800 k =? 0xd800 + k) &&
                               (N.lor 0xdc00 k =? 0xdc00 + k))
                         (map N.of_nat (seq 0 1024)) = true)
    by (vm_compute; reflexivity).
  rewrite forallb_forall in Hall.
  specialize (Hall a).
  rewrite andb_true_iff, !N.eqb_eq in Hall. apply Hall.
  apply in_map_iff. exists (N.to_nat a). split; [apply N2Nat.id|].
  apply in_seq. lia.
Qed.


Lemma high_low_spec c :
  surrogate_high c = 0xd800 + (c - 0x10000) / 1024 mod 1024 ∧
  surrogate_low c = 0xdc00 + (c - 0x10000) mod 1024.
Proof.
  unfold surrogate_high, surrogate_low.
  change 0x3ff with (N.ones 10). rewrite !N.land_ones, N.shiftr_div_pow2.
  change (2 ^ 10) with 1024.
  split; apply lor_surrogate; apply N.mod_upper_bound; lia.
Qed.

Lemma pair_inj c c' :
  0x10000 ≤ c ≤ 0x10FFFF → 0x10000 ≤ c' ≤ 0x10FFFF →
  surrogate_high c = surrogate_high c' → surrogate_low c = surrogate_low c' → c = c'.
Proof.
  intros Hc Hc' Hh Hl.
  destruct (high_low_spec c) as [Eh El].
  destruct (high_low_spec c') as [Eh' El'].
  rewrite Eh, Eh' in Hh. rewrite El, El' in Hl.
  pose proof (N.div_mod' (c - 0x10000) 1024) as D.
  pose proof (N.div_mod' (c' - 0x10000) 1024) as D'.
  assert (B : (c - 0x10000) / 1024 < 1024)
    by (apply N.Div0.div_lt_upper_bound; lia).
  assert (B' : (c' - 0x10000) / 1024 < 1024)
    by (apply N.Div0.div_lt_upper_bound; lia).
  rewrite (N.mod_small _ _ B) in Hh. rewrite (N.mod_small _ _ B') in Hh.
  lia.
Qed.


(** The four shapes of an escaped character. *)
Lemma escape_char_shape c :
  (∃ e, escape_char c = [92; e] ∧ short_escape c e) ∨
  (escape_char c = [c] ∧ c ≠ 92 ∧ c ≠ 34 ∧ c ≤ 126) ∨
  (escape_char c = 92 :: 117 :: hex4 c ∧ c < 0x10000) ∨
  (escape_char c = (92 :: 117 :: hex4 (surrogate_high c)) ++ 92 :: 117 :: hex4 (surrogate_low c)
   ∧ 0x10000 ≤ c).
Proof.
  unfold escape_char, short_escape.
  repeat match goal with
         | |- context [?a =? ?b] =>
             destruct (N.eqb_spec a b);
             [left; eexists; split; [reflexivity|lia]|]
         end.
  destruct ((32 <=? c) && (c <=? 126)) eqn:Hp.
  { apply andb_true_iff in Hp as [_ Hp%N.leb_le]. right; left; done. }
  destruct (N.ltb_spec c 0x10000).
  - right; right; left. done.
  - right; right; right. done.
Qed.

Lemma high_range c : 0xd800 ≤ surrogate_high c ∧ surrogate_high c < 0xdc00.
Proof.
  destruct (high_low_spec c) as [-> _].
  assert ((c - 0x10000) / 1024 mod 1024 < 1024) as Hlt
    by (apply N.mod_upper_bound; lia).
  revert Hlt. generalize ((c - 0x10000) / 1024 mod 1024). lia.
Qed.

Lemma low_range c : 0xdc00 ≤ surrogate_low c ∧ surrogate_low c < 0xe000.
Proof.
  destruct (high_low_spec c) as [_ ->].
  assert ((c - 0x10000) mod 1024 < 1024) as Hlt
    by (apply N.mod_upper_bound; lia).
  revert Hlt. generalize ((c - 0x10000) mod 1024). lia.
Qed.

(** Escaped characters form a prefix code on scalar values: the
    escape at the head of a text determines the character. *)
Lemma escape_char_prefix_free (c c' : N) (x x' : str) :
  scalar c → scalar c' →
  escape_char c ++ x = escape_char c' ++ x' → c = c' ∧ x = x'.
Proof.
  intros Hc Hc' Heq. unfold scalar in Hc, Hc'.
  pose proof (high_range c) as Rh. pose proof (high_range c') as Rh'.
  pose proof (low_range c) as Rl. pose proof (low_range c') as Rl'.
  destruct (escape_char_shape c) as [(e & E & He)|[(E & N1 & N2 & N3)|[(E & B)|(E & B)]]];
  destruct (escape_char_shape c') as [(e' & E' & He')|[(E' & N1' & N2' & N3')|[(E' & B')|(E' & B')]]];
    rewrite E, E' in Heq; clear E E';
    unfold short_escape in *; simpl in Heq;
    try (injection Heq as E1 E2; first [lia | split; [lia | congruence]]).
  - injection Heq as E3 E2 E1 E0 Ex.
    assert (c = c'); [|by subst].
    apply hex4_inj; [done|done|]. unfold hex4. congruence.
  - injection Heq as E3 E2 E1 E0 Ex.
    assert (c = surrogate_high c'); [|lia].
    apply hex4_inj; [done|lia|]. unfold hex4. congruence.
  - injection Heq as E3 E2 E1 E0 Ex.
    assert (surrogate_high c = c'); [|lia].
    apply hex4_inj; [lia|done|]. unfold hex4. congruence.
  - injection Heq as E3 E2 E1 E0 F3 F2 F1 F0 Ex.
    assert (surrogate_high c = surrogate_high c')
      by (apply hex4_inj; [lia|lia|]; unfold hex4; congruence).
    assert (surrogate_low c = surrogate_low c')
      by (apply hex4_inj; [lia|lia|]; unfold hex4; congruence).
    split; [|done]. apply pair_inj; [lia|lia|done|done].
Qed.

(** No escape begins with the closing quote. *)
Lemma escape_char_not_quote (c : N) (x y : str) :
  escape_char c ++ x ≠ 34 :: y.
Proof.
  intros Heq.
  destruct (escape_char_shape c) as [(e & E & He)|[(E & N1 & N2 & N3)|[(E & B)|(E & B)]]];
    rewrite E in Heq; simpl in Heq; injection Heq as E1; lia.
Qed.

Lemma escaped_inj (s s' r r' : str) :
  scalar_str s → scalar_str s' →
  flat_map escape_char s ++ 34 :: r = flat_map escape_char s' ++ 34 :: r' →
  s = s' ∧ r = r'.
Proof.
  intros Hs. revert s'.
  induction Hs as [|c s Hc Hs IH]; intros s' Hs' Heq;
    destruct Hs' as [|c' s' Hc' Hs']; simpl in Heq.
  - by injection Heq as ->.
  - rewrite <- app_assoc in Heq. symmetry in Heq.
    by apply escape_char_not_quote in Heq.
  - rewrite <- app_assoc in Heq.
    by apply escape_char_not_quote in Heq.
  - rewrite <- !app_assoc in Heq.
    apply escape_char_prefix_free in Heq as [-> Heq]; [|done|done].
    apply IH in Heq as [-> ->]; done.
Qed.

(** A rendered string ends at its closing quote: what follows it is
    not part of the string. *)
Lemma encode_basestring_ascii_inj (s s' r r' : str) :
  scalar_str s → scalar_str s' →
  encode_basestring_ascii s ++ r = encode_basestring_ascii s' ++ r' →
  s = s' ∧ r = r'.
Proof.
  intros Hs Hs' Heq. unfold encode_basestring_ascii, PyStr.dquote in Heq.
  rewrite <- !app_assoc in Heq. simpl in Heq.
  injection Heq as Heq. by apply escaped_inj.
Qed.

Lemma bool_text_inj (b b' : bool) (r r' : str) :
  dumps (JBool b) ++ r = dumps (JBool b') ++ r' → b = b' ∧ r = r'.
Proof.
  destruct b, b'; intros Heq; try discriminate Heq;
    apply app_inv_head in Heq; done.
Qed.

(** *** Integers *)

Lemma lit_cons (a : ascii) (s : string) :
  lit (String a s) = N_of_ascii a :: lit s.
Proof. reflexivity. Qed.

Lemma lit_inj (s s' : string) : lit s = lit s' → s = s'.
Proof.
  revert s'; induction s as [|a s IH]; intros [|a' s'] Heq;
    try discriminate Heq; [done|].
  rewrite !lit_cons in Heq. injection Heq as Ha Hs.
  f_equal; [|by apply IH].
  rewrite <- (ascii_N_embedding a), <- (ascii_N_embedding a'). by rewrite Ha.
Qed.

Lemma str_of_int_inj (z z' : Z) : str_of_int z = str_of_int z' → z = z'.
Proof.
  unfold str_of_int. intros Heq. apply lit_inj in Heq.
  apply (f_equal NilEmpty.int_of_string) in Heq.
  rewrite !NilEmpty.isi in Heq. injection Heq as Heq.
  rewrite <- (DecimalZ.of_to z), <- (DecimalZ.of_to z'). by rewrite Heq.
Qed.

(** [str(z)] is made of a sign and digits. *)
Lemma uint_chars (d : Decimal.uint) :
  Forall (λ c, 45 ≤ c ∧ c ≤ 57) (lit (NilEmpty.string_of_uint d)).
Proof.
  induction d; simpl NilEmpty.string_of_uint;
    [constructor | rewrite lit_cons; constructor; [by vm_compute|done]..].
Qed.

Lemma str_of_int_chars (z : Z) :
  Forall (λ c, 45 ≤ c ∧ c ≤ 57) (str_of_int z).
Proof.
  unfold str_of_int. destruct (Z.to_int z) as [d|d]; simpl NilEmpty.string_of_int.
  - apply uint_chars.
  - rewrite lit_cons. constructor; [by vm_compute|apply uint_chars].
Qed.

Lemma str_of_int_no_comma (z : Z) : Forall (λ c, c ≠ 44) (str_of_int z).
Proof.
  eapply Forall_impl; [apply str_of_int_chars|]. simpl. intros c Hc. lia.
Qed.

Lemma split_at_comma (a b r r' : str) :
  Forall (λ c, c ≠ 44) a → Forall (λ c, c ≠ 44) b →
  a ++ 44 :: r = b ++ 44 :: r' → a = b ∧ r = r'.
Proof.
  intros Ha. revert b.
  induction Ha as [|x a Hx Ha IH]; intros b Hb Heq;
    destruct Hb as [|y b Hy Hb]; simpl in Heq.
  - by injection Heq as ->.
  - injection Heq as E _. by subst.
  - injection Heq as E _. by subst.
  - injection Heq as -> Heq. apply IH in Heq as [-> ->]; done.
Qed.

(** An integer ends at the comma that separates the items. *)
Lemma str_of_int_comma_inj (z z' : Z) (r r' : str) :
  str_of_int z ++ lit ", " ++ r = str_of_int z' ++ lit ", " ++ r' →
  z = z' ∧ r = r'.
Proof.
  intros Heq. change (lit ", ") with [44; 32] in Heq. simpl in Heq.
  apply split_at_comma in Heq as [Hz Hr]; try apply str_of_int_no_comma.
  split; [by apply str_of_int_inj|congruence].
Qed.

(** *** The rendered context and hash input *)

Lemma dumps_context (bc : BrainContext) :
  dumps (BrainContext_dict bc) =
  lit "{" ++
  (item "channel" (encode_basestring_ascii (channel bc)) ++ lit ", " ++
   item "include_episodic_memory"
        (dumps (JBool (include_episodic_memory bc))) ++ lit ", " ++
   item "include_semantic_memory"
        (dumps (JBool (include_semantic_memory bc))) ++ lit ", " ++
   item "include_working_memory"
        (dumps (JBool (include_working_memory bc))) ++ lit ", " ++
   item "memory_window_hours" (str_of_int (memory_window_hours bc)) ++
   lit ", " ++
   item "temporal_reasoning" (dumps (JBool (temporal_reasoning bc))) ++
   lit ", " ++
   item "user_id" (encode_basestring_ascii (user_id bc))) ++
  lit "}".
Proof. reflexivity. Qed.

Lemma dumps_hash_input (q : QueryRequest) :
  dumps (hash_input q) =
  lit "{" ++
  (item "brain_context" (context_text (brain_context q)) ++ lit ", " ++
   item "query" (encode_basestring_ascii (query q)) ++ lit ", " ++
   item "reasoning" (dumps (JBool (reasoning q)))) ++
  lit "}".
Proof. unfold hash_input. destruct (brain_context q); reflexivity. Qed.

(** Take the leading piece off both sides of an equation between two
    rendered texts. *)
Ltac peel H :=
  first
    [ apply encode_basestring_ascii_inj in H as [? H]; [|assumption..]
    | apply bool_text_inj in H as [? H]
    | apply str_of_int_comma_inj in H as [? H]
    | apply app_inv_head in H ].

Lemma dumps_context_inj (a b : BrainContext) (r r' : str) :
  scalar_context (Some a) → scalar_context (Some b) →
  dumps (BrainContext_dict a) ++ r = dumps (BrainContext_dict b) ++ r' →
  a = b ∧ r = r'.
Proof.
  intros [Hua Hca] [Hub Hcb] Heq.
  rewrite !dumps_context in Heq. unfold item in Heq.
  rewrite <- !app_assoc in Heq.
  repeat peel Heq.
  split; [|done]. destruct a, b; simpl in *; congruence.
Qed.

Lemma context_text_inj (a b : option BrainContext) (r r' : str) :
  scalar_context a → scalar_context b →
  context_text a ++ r = context_text b ++ r' → a = b ∧ r = r'.
Proof.
  intros Ha Hb Heq. destruct a as [a|], b as [b|]; unfold context_text in Heq.
  - apply dumps_context_inj in Heq as [-> ->]; done.
  - rewrite dumps_context in Heq. discriminate Heq.
  - rewrite dumps_context in Heq. discriminate Heq.
  - apply app_inv_head in Heq. by subst.
Qed.

(** The hashed text determines the three components. *)
Lemma dumps_hash_input_inj (q1 q2 : QueryRequest) :
  scalar_request q1 → scalar_request q2 →
  dumps (hash_input q1) = dumps (hash_input q2) →
  query q1 = query q2 ∧ reasoning q1 = reasoning q2 ∧
  brain_context q1 = brain_context q2.
Proof.
  intros [Hq1 Hc1] [Hq2 Hc2] Heq.
  rewrite !dumps_hash_input in Heq. unfold item in Heq.
  rewrite <- !app_assoc in Heq.
  do 3 peel Heq.
  apply context_text_inj in Heq as [Hc Heq]; [|done|done].
  repeat peel Heq. done.
Qed.

(** *** The rendered text is ASCII *)


Lemma hex4_ascii (n : N) : Forall is_ascii (hex4 n).
Proof.
  assert (Hd : ∀ k, is_ascii (hexdigit (k mod 16))).
  { intros k. assert (k mod 16 < 16) as Hk by (apply N.mod_upper_bound; lia).
    revert Hk. generalize (k mod 16). intros m Hm.
    unfold is_ascii, hexdigit. destruct (N.ltb_spec m 10); lia. }
  unfold hex4. repeat constructor; apply Hd.
Qed.

Lemma escape_char_ascii (c : N) : Forall is_ascii (escape_char c).
Proof.
  destruct (escape_char_shape c)
    as [(e & E & He)|[(E & N1 & N2 & N3)|[(E & B)|(E & B)]]]; rewrite E.
  - unfold short_escape in He. repeat constructor; unfold is_ascii; lia.
  - repeat constructor; unfold is_ascii; lia.
  - repeat (constructor; [by unfold is_ascii|]). apply hex4_ascii.
  - apply Forall_app; split;
      repeat (constructor; [by unfold is_ascii|]); apply hex4_ascii.
Qed.

Lemma encode_basestring_ascii_ascii (s : str) :
  Forall is_ascii (encode_basestring_ascii s).
Proof.
  unfold encode_basestring_ascii, PyStr.dquote.
  apply Forall_app; split; [by repeat constructor|].
  apply Forall_app; split; [|by repeat constructor].
  induction s as [|c s IH]; simpl; [constructor|].
  apply Forall_app; split; [apply escape_char_ascii|exact IH].
Qed.

Lemma bool_text_ascii (b : bool) : Forall is_ascii (dumps (JBool b)).
Proof. destruct b; vm_compute; repeat constructor. Qed.

Lemma str_of_int_ascii (z : Z) : Forall is_ascii (str_of_int z).
Proof.
  eapply Forall_impl; [apply str_of_int_chars|].
  unfold is_ascii. simpl. intros c Hc. lia.
Qed.

Ltac ascii_text :=
  repeat first
    [ apply encode_basestring_ascii_ascii
    | apply bool_text_ascii
    | apply str_of_int_ascii
    | match goal with
      | |- Forall _ (lit _) => vm_compute; repeat constructor
      end
    | apply Forall_app; split ].

Lemma dumps_hash_input_ascii (q : QueryRequest) :
  Forall is_ascii (dumps (hash_input q)).
Proof.
  rewrite dumps_hash_input. unfold item, context_text.
  destruct (brain_context q) as [bc|];
    [rewrite dumps_context; unfold item|]; ascii_text.
Qed.

(** On ASCII text the UTF-8 encoding is the text itself. *)
Lemma encode_ascii (s : str) : Forall is_ascii s → PyBytes.encode s = s.
Proof.
  induction 1 as [|c s Hc Hs IH]; [done|].
  unfold PyBytes.encode in *. simpl. rewrite IH.
  unfold PyBytes.utf8. unfold is_ascii in Hc.
  destruct (N.ltb_spec c 0x80); [done|lia].
Qed.

End PyJsonFacts.

(** ** Cache digest *)

(** The bytes handed to MD5 are the rendered text. *)
Lemma hashed_bytes (q : QueryRequest) :
  PyBytes.encode (PyJson.dumps (hash_input q)) = PyJson.dumps (hash_input q).
Proof.
  apply PyJsonFacts.encode_ascii, PyJsonFacts.dumps_hash_input_ascii.
Qed.

(** C4, as amended: the digest is a function of the query text, the
    reasoning flag and the context alone, so requests that agree on
    these three get the same digest whatever their other fields; and
    for requests whose strings hold no surrogate code point, a
    difference in any of the three gives different bytes to hash, and
    so a different digest unless those bytes are a collision of MD5. *)
Theorem digest_deterministic_and_input_sensitive (q1 q2 : QueryRequest) :
  (query q1 = query q2 → reasoning q1 = reasoning q2 →
   brain_context q1 = brain_context q2 →
   generate_query_hash q1 = generate_query_hash q2) ∧
  (scalar_request q1 → scalar_request q2 →
   query q1 ≠ query q2 ∨ reasoning q1 ≠ reasoning q2 ∨
   brain_context q1 ≠ brain_context q2 →
   digest_input q1 ≠ digest_input q2 ∧
   (generate_query_hash q1 ≠ generate_query_hash q2 ∨
    MD5.md5_hex (digest_input q1) = MD5.md5_hex (digest_input q2))).
Proof.
  split.
  - intros Hq Hr Hc. unfold generate_query_hash, hash_input.
    rewrite ?Hq, ?Hr, ?Hc. reflexivity.
  - intros H1 H2 Hdiff. split.
    + unfold digest_input. intros Heq. rewrite !hashed_bytes in Heq.
      apply PyJsonFacts.dumps_hash_input_inj in Heq as (Hq & Hr & Hc);
        [|done|done].
      destruct Hdiff as [Hd|[Hd|Hd]]; by apply Hd.
    + destruct (decide (generate_query_hash q1 = generate_query_hash q2))
        as [Heq|Hne]; [right|by left].
      exact Heq.
Qed.

Lemma digest_deterministic_and_input_sensitive_witness :
  generate_query_hash (Fixture.select_all 5)
  = generate_query_hash (Fixture.select_all 10) ∧
  digest_input (Fixture.select_all 5)
  ≠ digest_input (Fixture.select_with_context 5) ∧
  generate_query_hash (Fixture.select_all 5)
  ≠ generate_query_hash (Fixture.select_with_context 5).
Proof.
  split.
  - exact (proj1 (digest_deterministic_and_input_sensitive
                    (Fixture.select_all 5) (Fixture.select_all 10))
                 eq_refl eq_refl eq_refl).
  - assert (H1 : scalar_request (Fixture.select_all 5)) by by_evaluation.
    assert (H2 : scalar_request (Fixture.select_with_context 5))
      by by_evaluation.
    assert (H3 : brain_context (Fixture.select_all 5)
                 ≠ brain_context (Fixture.select_with_context 5))
      by discriminate.
    pose proof (proj2 (digest_deterministic_and_input_sensitive
                         (Fixture.select_all 5)
                         (Fixture.select_with_context 5))
                      H1 H2 (or_intror (or_intror H3))) as H.
    destruct H as [Hbytes [Hne|Hcollide]].
    + split; [exact Hbytes|exact Hne].
    + split; [exact Hbytes|]. clear Hcollide. by_evaluation.
Defined.

(** C4 as stated fails: the one-character text U+10000 and the
    two-character text U+D800 U+DC00 are different query texts, and with
    the same flag and context they get the same digest. *)
Lemma digest_collision_on_surrogate_pair :
  let q1 := {| query := [0x10000]; query_type := "SELECT"; reasoning := false;
               timeout := 10; limit := 100; namespaces := None;
               brain_context := None; query_hash := None |} in
  let q2 := {| query := [0xD800; 0xDC00]; query_type := "SELECT";
               reasoning := false; timeout := 10; limit := 100;
               namespaces := None; brain_context := None;
               query_hash := None |} in
  query q1 ≠ query q2 ∧ reasoning q1 = reasoning q2 ∧
  brain_context q1 = brain_context q2 ∧
  generate_query_hash q1 = generate_query_hash q2.
Proof.
  split; [discriminate|]. split; [reflexivity|]. split; [reflexivity|].
  vm_compute. reflexivity.
Qed.

(** ** Graph objects and the heap *)

Ltac unfold_monad :=
  unfold mbind, M_bind, mret, M_ret, get_state, modify, raise, when, try_except
    in *.

Section Heap.
Implicit Types (s : State) (l : loc) (ts : list Triple).

Lemma graph_at_set_heap_insert s l l' (g : Graph) :
  graph_at (set_heap (<[l := g]> (heap s)) s) l'
  = if decide (l = l') then g else graph_at s l'.
Proof.
  unfold graph_at. simpl. destruct (decide (l = l')) as [->|Hne].
  - by rewrite lookup_insert_eq.
  - by rewrite lookup_insert_ne.
Qed.

Lemma fresh_not_allocated s : fresh (dom (heap s)) ∉ dom (heap s).
Proof. apply is_fresh. Qed.

(** A new graph is empty, and so was its location before. *)
Lemma graph_at_alloc s l : graph_at (alloc s) l = graph_at s l.
Proof.
  unfold alloc. rewrite graph_at_set_heap_insert.
  destruct (decide _) as [<-|]; [|done].
  unfold graph_at.
  by rewrite (not_elem_of_dom_1 _ _ (fresh_not_allocated s)).
Qed.

Lemma dom_alloc s :
  dom (heap (alloc s)) = {[fresh (dom (heap s))]} ∪ dom (heap s).
Proof. unfold alloc. simpl. by rewrite dom_insert_L. Qed.

Lemma wf_fresh s : wf s → fresh (dom (heap s)) ≠ graph s.
Proof. intros Hwf Heq. apply (fresh_not_allocated s). by rewrite Heq. Qed.

Lemma add_all_cons l t ts s :
  add_all l (t :: ts) s
  = add_all l ts (set_heap (<[l := {[t]} ∪ graph_at s l]> (heap s)) s).
Proof. reflexivity. Qed.

Lemma graph_add_all l ts s : graph (add_all l ts s) = graph s.
Proof.
  revert s; induction ts as [|t ts IH]; intros s; [done|].
  rewrite add_all_cons, IH. done.
Qed.

Lemma redis_add_all l ts s : redis_client (add_all l ts s) = redis_client s.
Proof.
  revert s; induction ts as [|t ts IH]; intros s; [done|].
  rewrite add_all_cons, IH. done.
Qed.

Lemma graph_at_add_all l l' ts s :
  graph_at (add_all l ts s) l'
  = if decide (l = l') then list_to_set ts ∪ graph_at s l else graph_at s l'.
Proof.
  revert s; induction ts as [|t ts IH]; intros s.
  - simpl. destruct (decide _) as [->|]; [|done].
    by rewrite (left_id_L ∅ (∪)).
  - rewrite add_all_cons, IH, !graph_at_set_heap_insert.
    destruct (decide (l = l')) as [->|]; [|done].
    rewrite decide_True by done.
    rewrite list_to_set_cons, (comm_L (∪) {[t]} (list_to_set ts)).
    by rewrite <- (assoc_L (∪)).
Qed.

Lemma dom_add_all l ts s : dom (heap s) ⊆ dom (heap (add_all l ts s)).
Proof.
  revert s; induction ts as [|t ts IH]; intros s; [done|].
  rewrite add_all_cons. etrans; [|apply IH].
  change (dom (heap s) ⊆ dom (<[l := {[t]} ∪ graph_at s l]> (heap s))).
  rewrite dom_insert_L. apply union_subseteq_r.
Qed.

Lemma run_for_each_add l ts s :
  for_each ts (graph_add l) s = (add_all l ts s, Ok tt).
Proof.
  revert s; induction ts as [|t ts IH]; intros s; [done|].
  simpl for_each. unfold mbind, M_bind, graph_add at 1, modify.
  by rewrite IH.
Qed.

Lemma run_for_each_base_add ts s :
  for_each ts base_add s = (add_all (graph s) ts s, Ok tt).
Proof.
  revert s; induction ts as [|t ts IH]; intros s; [done|].
  simpl for_each. unfold mbind, M_bind, base_add at 1, get_state.
  unfold mbind, M_bind, graph_add, modify. rewrite IH. done.
Qed.

Lemma run_setup_ontology s :
  setup_ontology s = (add_all (graph s) ontology_triples s, Ok tt).
Proof. apply run_for_each_base_add. Qed.

(** The base graph after [Graph()] and [setup_ontology]. *)
Lemma base_graph_reseeded s :
  let l := fresh (dom (heap s)) in
  base_graph (add_all l ontology_triples (set_graph l (alloc s))) = baseline.
Proof.
  intros l. unfold base_graph. rewrite graph_add_all.
  change (graph (set_graph l (alloc s))) with l.
  rewrite graph_at_add_all, decide_True by done.
  change (graph_at (set_graph l (alloc s)) l) with (graph_at (alloc s) l).
  rewrite graph_at_alloc.
  unfold graph_at. rewrite (not_elem_of_dom_1 _ _ (fresh_not_allocated s)).
  apply union_empty_r_L.
Qed.

Lemma init_eq (server : Redis) :
  init server = add_all 1%positive ontology_triples (blank server).
Proof.
  unfold init. fold (blank server). by rewrite run_setup_ontology.
Qed.

Lemma wf_init (server : Redis) : wf (init server).
Proof.
  rewrite init_eq. unfold wf. rewrite graph_add_all.
  apply (dom_add_all _ _ _).
  change (1%positive ∈ dom ({[ 1%positive := ∅ ]} : gmap loc Graph)).
  rewrite dom_singleton_L. by apply elem_of_singleton.
Qed.

Lemma base_graph_init (server : Redis) : base_graph (init server) = baseline.
Proof.
  rewrite init_eq. unfold base_graph. rewrite graph_add_all.
  change (graph (blank server)) with 1%positive.
  rewrite graph_at_add_all, decide_True by done.
  unfold graph_at.
  change (heap (blank server)) with ({[ 1%positive := ∅ ]} : gmap loc Graph).
  rewrite lookup_singleton_eq. apply union_empty_r_L.
Qed.

Lemma redis_init (server : Redis) :
  redis_client (init server)
  = if reachable server then Some server else None.
Proof. rewrite init_eq. by rewrite redis_add_all. Qed.

Lemma size_baseline : size baseline = 17%nat.
Proof.
  unfold baseline. rewrite size_list_to_set; [reflexivity|].
  apply (bool_decide_unpack _). vm_compute. exact I.
Qed.

End Heap.

(** ** Reasoner *)

Section ReasonerFacts.
Context {L : Libraries}.
Implicit Types (s : State) (g : Graph).

(** A round of rule application only adds triples, whatever the rules. *)
Lemma closure_extensive (cap : nat) g : g ⊆ closure cap g.
Proof.
  revert g; induction cap as [|cap IH]; intros g; simpl; [done|].
  destruct (decide _); [done|].
  etrans; [|apply IH]. apply union_subseteq_l.
Qed.

Lemma run_apply_reasoning s :
  apply_reasoning s = (reasoned s, Ok (fresh (dom (heap s)))).
Proof.
  unfold apply_reasoning, new_graph, expand. unfold_monad.
  fold (alloc s).
  replace (base_graph (alloc s)) with (base_graph s)
    by (unfold base_graph; by rewrite graph_at_alloc).
  by rewrite run_for_each_add.
Qed.

Lemma graph_reasoned s : graph (reasoned s) = graph s.
Proof. unfold reasoned. simpl. by rewrite graph_add_all. Qed.

Lemma redis_reasoned s : redis_client (reasoned s) = redis_client s.
Proof. unfold reasoned. simpl. by rewrite redis_add_all. Qed.

(** The new object holds the closure of the base graph. *)
Lemma graph_at_reasoned_new s :
  graph_at (reasoned s) (fresh (dom (heap s)))
  = closure iteration_cap (base_graph s).
Proof.
  unfold reasoned. rewrite graph_at_set_heap_insert, decide_True by done.
  rewrite graph_at_add_all, decide_True by done.
  rewrite graph_at_alloc. unfold graph_at at 1.
  rewrite (not_elem_of_dom_1 _ _ (fresh_not_allocated s)).
  f_equal. rewrite list_to_set_elements_L. apply union_empty_r_L.
Qed.

(** Every other object is as it was. *)
Lemma graph_at_reasoned_old s (l : loc) :
  l ≠ fresh (dom (heap s)) → graph_at (reasoned s) l = graph_at s l.
Proof.
  intros Hl. unfold reasoned.
  rewrite graph_at_set_heap_insert, decide_False by done.
  rewrite graph_at_add_all, decide_False by done.
  apply graph_at_alloc.
Qed.

Lemma base_graph_reasoned s : wf s → base_graph (reasoned s) = base_graph s.
Proof.
  intros Hwf. unfold base_graph. rewrite graph_reasoned.
  apply graph_at_reasoned_old. intros Heq. by apply (wf_fresh s).
Qed.

Lemma wf_reasoned s : wf s → wf (reasoned s).
Proof.
  intros Hwf. unfold wf. rewrite graph_reasoned. unfold reasoned. simpl.
  rewrite dom_insert_L. apply elem_of_union_r.
  apply (dom_add_all _ _ _). rewrite dom_alloc. by apply elem_of_union_r.
Qed.

(** C6: the graph that [apply_reasoning] returns contains every triple
    of the base graph. *)
Theorem reasoner_monotonic s :
  ∃ s' l, apply_reasoning s = (s', Ok l) ∧ base_graph s ⊆ graph_at s' l.
Proof.
  exists (reasoned s), (fresh (dom (heap s))).
  split; [apply run_apply_reasoning|].
  rewrite graph_at_reasoned_new. apply closure_extensive.
Qed.

(** C7: [apply_reasoning] leaves the base graph as it was; the graph
    it returns is another object than [self.graph], which still refers
    to the same object. *)
Theorem reasoning_keeps_base_graph s :
  wf s →
  ∃ s' l, apply_reasoning s = (s', Ok l) ∧
          base_graph s' = base_graph s ∧ graph s' = graph s ∧ l ≠ graph s'.
Proof.
  intros Hwf. exists (reasoned s), (fresh (dom (heap s))).
  split; [apply run_apply_reasoning|].
  split; [by apply base_graph_reasoned|].
  split; [apply graph_reasoned|].
  rewrite graph_reasoned. by apply wf_fresh.
Qed.

End ReasonerFacts.

Lemma reasoning_keeps_base_graph_witness :
  wf (init Fixture.cache_server) ∧
  ∃ s' l, apply_reasoning (L := Fixture.libraries) (init Fixture.cache_server)
          = (s', Ok l) ∧
          base_graph s' = base_graph (init Fixture.cache_server) ∧
          graph s' = graph (init Fixture.cache_server) ∧ l ≠ graph s'.
Proof.
  assert (Hwf : wf (init Fixture.cache_server)) by apply wf_init.
  split; [exact Hwf|].
  apply (reasoning_keeps_base_graph (L := Fixture.libraries)). exact Hwf.
Defined.

(** ** Import *)

Section ImportFacts.
Context {L : Libraries}.
Implicit Types (s : State) (req : RDFImportRequest).

Lemma run_graph_parse (l : loc) (d f : str) s :
  graph_parse l d f s
  = (add_all l (rdf_parse d f).1 s,
     match (rdf_parse d f).2 with
     | Some e => Raise e
     | None => Ok tt
     end).
Proof.
  unfold graph_parse. destruct (rdf_parse d f) as [ts [e|]];
    unfold_monad; by rewrite run_for_each_add.
Qed.

(** The clearing step never fails the import: a cache that cannot be
    reached is left as it is. *)
Lemma run_has_redis s :
  has_redis s = (s, Ok (bool_decide (is_Some (redis_client s)))).
Proof. reflexivity. Qed.

Lemma run_clear_query_cache s :
  when (bool_decide (is_Some (redis_client s)))
       (try_except redis_delete_query_keys (λ _, mret tt)) s
  = (invalidated s, Ok tt).
Proof.
  unfold redis_delete_query_keys, redis_command, invalidated.
  unfold_monad.
  destruct (redis_client s) as [r|] eqn:Hr.
  - rewrite bool_decide_eq_true_2 by (by eexists).
    rewrite Hr. by destruct (reachable r).
  - rewrite bool_decide_eq_false_2 by (by intros [? ?]). done.
Qed.

Lemma run_import_clear req s :
  when (clear_graph req)
    (fresh_graph ← new_graph; modify (set_graph fresh_graph) ;; setup_ontology) s
  = (cleared req s, Ok tt).
Proof.
  unfold cleared. destruct (clear_graph req); [|done].
  unfold new_graph. unfold_monad. fold (alloc s).
  by rewrite run_setup_ontology.
Qed.

Lemma run_import_validate req s :
  when (validation req)
    (temp_graph ← new_graph;
     graph_parse temp_graph (data req) (format req)) (cleared req s)
  = (validated req s,
     if validation req then
       match parse_error req with
       | Some e => Raise e
       | None => Ok tt
       end
     else Ok tt).
Proof.
  unfold validated. destruct (validation req); [|done].
  unfold new_graph. unfold_monad. fold (alloc (cleared req s)).
  by rewrite run_graph_parse.
Qed.

(** What [import_rdf_data] does, by the outcome of the parser. *)
Lemma run_import_rdf_data req s :
  import_rdf_data req s =
  match parse_error req with
  | Some e =>
      (if validation req then validated req s else merged req s,
       Ok (import_failure e))
  | None =>
      let s' := invalidated (set_reasoning_cache ∅ (merged req s)) in
      (s', Ok {| import_success := true;
                 triples_imported :=
                   (Z.of_nat (size (base_graph s'))
                    - Z.of_nat (size (base_graph s)))%Z;
                 total_triples := Some (Z.of_nat (size (base_graph s')));
                 import_format := Some (format req);
                 import_error := None |})
  end.
Proof.
  unfold import_rdf_data, try_except.
  unfold mbind at 1, M_bind at 1, get_state at 1.
  unfold mbind at 1, M_bind at 1, graph_len at 1.
  unfold mbind at 1, M_bind at 1, get_state at 1, mret at 1, M_ret at 1.
  unfold mbind at 1, M_bind at 1. rewrite run_import_clear.
  unfold mbind at 1, M_bind at 1. rewrite run_import_validate.
  destruct (parse_error req) as [e|] eqn:He.
  - destruct (validation req) eqn:Hv.
    + reflexivity.
    + unfold mbind at 1, M_bind at 1, get_state at 1.
      unfold mbind at 1, M_bind at 1. rewrite run_graph_parse.
      fold (parsed req) (parse_error req). rewrite He.
      unfold merged. reflexivity.
  - assert (Hval : (if validation req then Ok tt else Ok tt) = Ok tt :> Result unit)
      by (by destruct (validation req)).
    rewrite Hval.
    unfold mbind at 1, M_bind at 1, get_state at 1.
    unfold mbind at 1, M_bind at 1. rewrite run_graph_parse.
    fold (parsed req) (parse_error req). rewrite He.
    fold (merged req s).
    unfold mbind at 1, M_bind at 1, modify at 1.
    unfold mbind at 1, M_bind at 1. rewrite run_has_redis.
    unfold mbind at 1, M_bind at 1. rewrite run_clear_query_cache.
    reflexivity.
Qed.

Lemma wf_set_graph_alloc s :
  wf (set_graph (fresh (dom (heap s))) (alloc s)).
Proof.
  unfold wf.
  change (fresh (dom (heap s)) ∈ dom (heap (alloc s))).
  rewrite dom_alloc. apply elem_of_union_l. by apply elem_of_singleton.
Qed.

Lemma wf_add_all (l : loc) (ts : list Triple) s : wf s → wf (add_all l ts s).
Proof.
  unfold wf. intros Hwf. rewrite graph_add_all. by apply (dom_add_all _ _ _).
Qed.

Lemma wf_alloc s : wf s → wf (alloc s).
Proof.
  unfold wf. intros Hwf. rewrite dom_alloc.
  change (graph (alloc s)) with (graph s). by apply elem_of_union_r.
Qed.

Lemma wf_cleared req s : clear_graph req = true ∨ wf s → wf (cleared req s).
Proof.
  unfold cleared. intros [Hc|Hwf].
  - rewrite Hc. apply wf_add_all, wf_set_graph_alloc.
  - destruct (clear_graph req); [|done].
    apply wf_add_all, wf_set_graph_alloc.
Qed.

Lemma base_graph_cleared req s :
  base_graph (cleared req s)
  = if clear_graph req then baseline else base_graph s.
Proof.
  unfold cleared. destruct (clear_graph req); [|done].
  apply base_graph_reseeded.
Qed.

Lemma redis_cleared req s : redis_client (cleared req s) = redis_client s.
Proof.
  unfold cleared. destruct (clear_graph req); [|done].
  by rewrite redis_add_all.
Qed.

Lemma graph_validated req s : graph (validated req s) = graph (cleared req s).
Proof.
  unfold validated. destruct (validation req); [|done].
  by rewrite graph_add_all.
Qed.

(** The validation parse fills a scratch graph: the base graph is not
    touched by it. *)
Lemma base_graph_validated req s :
  wf (cleared req s) → base_graph (validated req s) = base_graph (cleared req s).
Proof.
  intros Hwf. unfold base_graph. rewrite graph_validated.
  unfold validated. destruct (validation req); [|done].
  rewrite graph_at_add_all, decide_False by (by apply wf_fresh).
  apply graph_at_alloc.
Qed.

Lemma redis_validated req s : redis_client (validated req s) = redis_client s.
Proof.
  unfold validated. destruct (validation req).
  - rewrite redis_add_all. apply redis_cleared.
  - apply redis_cleared.
Qed.

Lemma base_graph_merged req s :
  wf (cleared req s) →
  base_graph (merged req s)
  = list_to_set (parsed req) ∪ base_graph (cleared req s).
Proof.
  intros Hwf. unfold merged, base_graph at 1. rewrite graph_add_all.
  rewrite graph_at_add_all, decide_True by done.
  fold (base_graph (validated req s)). by rewrite base_graph_validated.
Qed.

Lemma redis_merged req s : redis_client (merged req s) = redis_client s.
Proof. unfold merged. rewrite redis_add_all. apply redis_validated. Qed.

Lemma base_graph_invalidated s : base_graph (invalidated s) = base_graph s.
Proof.
  unfold invalidated. destruct (redis_client s) as [r|]; [|done].
  by destruct (reachable r).
Qed.

Lemma base_graph_set_reasoning_cache (c : gmap str Graph) s :
  base_graph (set_reasoning_cache c s) = base_graph s.
Proof. reflexivity. Qed.

Lemma redis_set_reasoning_cache (c : gmap str Graph) s :
  redis_client (set_reasoning_cache c s) = redis_client s.
Proof. reflexivity. Qed.

(** The state and the base graph after an import whose data parses. *)
Lemma import_parsed req s :
  parse_error req = None →
  (import_rdf_data req s).1
  = invalidated (set_reasoning_cache ∅ (merged req s)).
Proof. intros He. by rewrite run_import_rdf_data, He. Qed.

Lemma base_graph_imported req s :
  parse_error req = None → clear_graph req = true ∨ wf s →
  base_graph (import_rdf_data req s).1
  = list_to_set (parsed req)
    ∪ (if clear_graph req then baseline else base_graph s).
Proof.
  intros He Hwf. rewrite import_parsed by done.
  rewrite base_graph_invalidated, base_graph_set_reasoning_cache.
  rewrite base_graph_merged by (by apply wf_cleared).
  by rewrite base_graph_cleared.
Qed.

(** An import with validation whose data does not parse: the response
    reports the failure; without [clear_graph] the base graph is what it
    was, with [clear_graph] it is the re-seeded baseline, whatever it
    held before. *)
Lemma import_validation_failure req s (e : str) :
  validation req = true → parse_error req = Some e →
  ∃ s', import_rdf_data req s = (s', Ok (import_failure e)) ∧
        (clear_graph req = false → wf s → base_graph s' = base_graph s) ∧
        (clear_graph req = true → base_graph s' = baseline).
Proof.
  intros Hv He. exists (validated req s).
  rewrite run_import_rdf_data, He, Hv. split; [done|]. split.
  - intros Hc Hwf. rewrite base_graph_validated by (apply wf_cleared; by right).
    by rewrite base_graph_cleared, Hc.
  - intros Hc. rewrite base_graph_validated by (apply wf_cleared; by left).
    by rewrite base_graph_cleared, Hc.
Qed.

Lemma size_list_to_set_le (ts : list Triple) :
  (size (list_to_set ts : Graph) ≤ length ts)%nat.
Proof.
  induction ts as [|t ts IH].
  - by rewrite list_to_set_nil, size_empty.
  - rewrite list_to_set_cons, size_union_alt, size_singleton. simpl length.
    assert (size (list_to_set ts ∖ {[t]} : Graph) ≤ size (list_to_set ts : Graph))%nat
      by (apply subseteq_size, subseteq_difference_l; done).
    lia.
Qed.

(** C10: after a successful import with [clear_graph], the base graph is
    the baseline with the parsed triples, and [triples_imported] is its
    size less the size of the graph before the clear; it is negative
    when that graph held more triples than the baseline and the parsed
    data together. *)
Theorem triples_imported_counts_from_before_clear req s s' (res : ImportResult) :
  clear_graph req = true →
  import_rdf_data req s = (s', Ok res) →
  import_success res = true →
  base_graph s' = list_to_set (parsed req) ∪ baseline ∧
  triples_imported res
  = (Z.of_nat (size (base_graph s')) - Z.of_nat (size (base_graph s)))%Z ∧
  ((size baseline + length (parsed req) < size (base_graph s))%nat →
   (triples_imported res < 0)%Z).
Proof.
  intros Hc Hrun Hok. rewrite run_import_rdf_data in Hrun.
  destruct (parse_error req) as [e|].
  { injection Hrun as _ <-. discriminate Hok. }
  simpl in Hrun. injection Hrun as <- <-.
  assert (Hbase : base_graph (invalidated (set_reasoning_cache ∅ (merged req s)))
                  = list_to_set (parsed req) ∪ baseline).
  { rewrite base_graph_invalidated.
    change (base_graph (set_reasoning_cache ∅ (merged req s)))
      with (base_graph (merged req s)).
    rewrite base_graph_merged by (apply wf_cleared; by left).
    by rewrite base_graph_cleared, Hc. }
  split; [exact Hbase|]. split; [reflexivity|].
  intros Hlt. cbn [triples_imported]. rewrite Hbase.
  pose proof (size_list_to_set_le (parsed req)) as Hle.
  assert (size (list_to_set (parsed req) ∪ baseline)
          ≤ size (list_to_set (parsed req) : Graph) + size baseline)%nat.
  { rewrite size_union_alt.
    assert (size (baseline ∖ list_to_set (parsed req)) ≤ size baseline)%nat
      by (apply subseteq_size, subseteq_difference_l; done).
    lia. }
  lia.
Qed.

End ImportFacts.

(** ** Concept evolution and the cache *)

Section Frames.
Context (R : State → State → Prop) `{!Reflexive R} `{!Transitive R}.

Lemma keeps_ret {A} (a : A) : keeps R (mret a).
Proof. intros s. simpl. reflexivity. Qed.

Lemma keeps_raise {A} (e : str) : keeps R (raise e : M A).
Proof. intros s. simpl. reflexivity. Qed.

Lemma keeps_bind {A B} (m : M A) (f : A → M B) :
  keeps R m → (∀ a, keeps R (f a)) → keeps R (m ≫= f).
Proof.
  intros Hm Hf s. unfold mbind, M_bind.
  specialize (Hm s). destruct (m s) as [s' [a|e]]; simpl in *; [|done].
  etrans; [exact Hm|apply Hf].
Qed.

Lemma keeps_try_except {A} (m : M A) (h : str → M A) :
  keeps R m → (∀ e, keeps R (h e)) → keeps R (try_except m h).
Proof.
  intros Hm Hh s. unfold try_except.
  specialize (Hm s). destruct (m s) as [s' [a|e]]; simpl in *; [done|].
  etrans; [exact Hm|apply Hh].
Qed.

Lemma keeps_map_m {A B} (f : A → M B) (l : list A) :
  (∀ a, keeps R (f a)) → keeps R (map_m f l).
Proof.
  intros Hf. induction l as [|x l IH]; simpl.
  - apply keeps_ret.
  - apply keeps_bind; [apply Hf|]. intros y.
    apply keeps_bind; [apply IH|]. intros ys. apply keeps_ret.
Qed.

End Frames.

#[global] Instance extends_refl : Reflexive extends.
Proof. intros s. by repeat split. Qed.

#[global] Instance extends_trans : Transitive extends.
Proof.
  intros s1 s2 s3 (G1 & C1 & K1 & B1 & D1) (G2 & C2 & K2 & B2 & D2).
  repeat split; try congruence; etrans; done.
Qed.

Section EvolveFacts.
Context {L : Libraries}.
Implicit Types (s : State).

Lemma extends_base_add (t : Triple) s :
  extends s (base_add t s).1 ∧ t ∈ base_graph (base_add t s).1.
Proof.
  unfold base_add, graph_add. unfold_monad. cbn [fst].
  unfold extends, base_graph. cbn [graph set_heap redis_client reasoning_cache heap].
  rewrite graph_at_set_heap_insert, decide_True by done.
  rewrite dom_insert_L.
  repeat split; try done.
  - apply union_subseteq_r.
  - apply union_subseteq_r.
  - apply elem_of_union_l. by apply elem_of_singleton.
Qed.

Lemma keeps_base_add (t : Triple) : keeps extends (base_add t).
Proof. intros s. apply extends_base_add. Qed.

Lemma keeps_new_bnode : keeps extends new_bnode.
Proof. intros s. by repeat split. Qed.

Lemma keeps_lift {A} (r : Result A) : keeps extends (lift r).
Proof. intros s. reflexivity. Qed.

Lemma keeps_getitem (d : gmap str Any) (k : str) : keeps extends (getitem d k).
Proof.
  unfold getitem. destruct (d !! k); [apply keeps_ret|apply keeps_raise]; apply _.
Qed.

Lemma keeps_add_information (concept_uri : Term) (info : gmap str Any) :
  keeps extends (add_information concept_uri info).
Proof.
  unfold add_information.
  apply keeps_bind; [apply _|apply keeps_getitem|]. intros subject_value.
  apply keeps_bind; [apply _| |].
  { destruct subject_value; [apply keeps_ret|apply keeps_raise]; apply _. }
  intros subject.
  apply keeps_bind; [apply _|apply keeps_getitem|]. intros predicate_value.
  apply keeps_bind; [apply _| |].
  { destruct predicate_value; [apply keeps_ret; apply _|apply keeps_lift]. }
  intros predicate.
  apply keeps_bind; [apply _|apply keeps_getitem|]. intros object_value.
  apply keeps_bind; [apply _|apply keeps_base_add|]. intros _.
  apply keeps_bind; [apply _| |].
  { destruct (info !! lit "confidence"); [|apply keeps_ret; apply _].
    apply keeps_bind; [apply _|apply keeps_new_bnode|]. intros b.
    apply keeps_bind; [apply _|apply keeps_base_add|]. intros _.
    apply keeps_base_add. }
  intros _. apply keeps_ret. apply _.
Qed.

(** [evolve_concept] only adds triples to the base graph and leaves the
    references and the cache alone, also when it fails half way. *)
Lemma keeps_evolve_concept (req : ConceptEvolutionRequest) :
  keeps extends (evolve_concept req).
Proof.
  unfold evolve_concept.
  apply keeps_try_except; [apply _| |intros e; apply keeps_ret; apply _].
  apply keeps_bind; [apply _|apply keeps_base_add|]. intros _.
  apply keeps_bind; [apply _|apply keeps_base_add|]. intros _.
  apply keeps_bind; [apply _| |].
  { apply keeps_map_m; [apply _..|]. intros info. apply keeps_add_information. }
  intros added.
  apply keeps_bind; [apply _| |].
  { destruct (current_properties req !! lit "activation_strength") as [[v|o]|];
      [apply keeps_raise; apply _|apply keeps_lift|apply keeps_ret; apply _]. }
  intros weak. apply keeps_ret. apply _.
Qed.

(** The concept is typed in the base graph after the call. *)
Lemma evolve_concept_adds_type (req : ConceptEvolutionRequest) s :
  (ns_term CONCEPT (concept_id req), RDF_type, ns_term OMNII "Concept")
  ∈ base_graph (evolve_concept req s).1.
Proof.
  set (t := (ns_term CONCEPT (concept_id req), RDF_type, ns_term OMNII "Concept")).
  assert (Hrest : ∀ (m : M EvolutionResult) (h : str → M EvolutionResult),
             keeps extends m → (∀ e, keeps extends (h e)) →
             t ∈ base_graph (try_except (base_add t ;; m) h s).1).
  { intros m h Hm Hh.
    destruct (extends_base_add t s) as [_ Hin].
    pose proof (keeps_try_except extends m h Hm Hh (base_add t s).1) as Hk.
    assert (Heq : try_except (base_add t ;; m) h s
                  = try_except m h (base_add t s).1) by reflexivity.
    rewrite Heq. destruct Hk as (_ & _ & _ & Hsub & _). apply Hsub, Hin. }
  unfold evolve_concept. apply Hrest.
  - apply keeps_bind; [apply _|apply keeps_base_add|]. intros _.
    apply keeps_bind; [apply _| |].
    { apply keeps_map_m; [apply _..|]. intros info. apply keeps_add_information. }
    intros added.
    apply keeps_bind; [apply _| |].
    { destruct (current_properties req !! lit "activation_strength") as [[v|o]|];
        [apply keeps_raise; apply _|apply keeps_lift|apply keeps_ret; apply _]. }
    intros weak. apply keeps_ret. apply _.
  - intros e. apply keeps_ret. apply _.
Qed.

End EvolveFacts.

(** ** Cache invalidation *)

Section CacheFacts.
Context {L : Libraries}.
Implicit Types (s : State).

Lemma cached_queries_invalidated s (r : Redis) :
  redis_client s = Some r → reachable r = true →
  cached_queries (invalidated s) = ∅.
Proof.
  intros Hr Hreach. unfold invalidated, cached_queries. rewrite Hr, Hreach.
  cbn [redis_client set_redis entries].
  apply set_eq. intros k. split; [|by intros ?%not_elem_of_empty].
  intros [Hk Hin]%elem_of_filter.
  apply elem_of_dom in Hin as [v Hv].
  apply map_lookup_filter_Some in Hv as [_ Hv].
  change (PyStr.startswith k query_key_prefix = false) in Hv.
  rewrite Hk in Hv. discriminate Hv.
Qed.

Lemma invalidated_unreachable s (r : Redis) :
  redis_client s = Some r → reachable r = false → invalidated s = s.
Proof. intros Hr Hreach. unfold invalidated. by rewrite Hr, Hreach. Qed.

(** C8, as amended: [evolve_concept] adds to the base graph and leaves
    the cache exactly as it was; an import that succeeds leaves no query
    entry in a cache that can be reached, and leaves a cache that cannot
    be reached as it was. *)
Theorem evolve_keeps_cache_import_clears_it :
  (∀ (req : ConceptEvolutionRequest) s,
     redis_client (evolve_concept req s).1 = redis_client s ∧
     base_graph s ⊆ base_graph (evolve_concept req s).1 ∧
     (ns_term CONCEPT (concept_id req), RDF_type, ns_term OMNII "Concept")
     ∈ base_graph (evolve_concept req s).1) ∧
  (∀ (req : RDFImportRequest) s s' (res : ImportResult) (r : Redis),
     import_rdf_data req s = (s', Ok res) → import_success res = true →
     redis_client s = Some r →
     (reachable r = true → cached_queries s' = ∅) ∧
     (reachable r = false → redis_client s' = Some r)).
Proof.
  split.
  - intros req s. destruct (keeps_evolve_concept req s) as (_ & Hc & _ & Hb & _).
    split; [exact Hc|]. split; [exact Hb|]. apply evolve_concept_adds_type.
  - intros req s s' res r Hrun Hok Hr.
    rewrite run_import_rdf_data in Hrun.
    destruct (parse_error req) as [e|].
    { injection Hrun as _ <-. discriminate Hok. }
    simpl in Hrun. injection Hrun as <- _.
    assert (Hr' : redis_client (set_reasoning_cache ∅ (merged req s)) = Some r)
      by (cbn [redis_client set_reasoning_cache]; by rewrite redis_merged).
    split; intros Hreach.
    + by apply (cached_queries_invalidated _ r).
    + by rewrite (invalidated_unreachable _ r).
Qed.

End CacheFacts.


(** ** Queries *)

Section QueryFacts.
Context {L : Libraries}.
Implicit Types (s : State) (q : QueryRequest).

Lemma set_redis_same s (r : Redis) :
  redis_client s = Some r → set_redis (Some r) s = s.
Proof. destruct s. simpl. by intros ->. Qed.

(** A key supplied with the request is the cache key, unless it is the
    empty string. *)
Lemma cache_key_supplied q (h : str) :
  query_hash q = Some h → h ≠ [] → cache_key q = h.
Proof. unfold cache_key. intros -> Hh. by destruct h. Qed.

Lemma cache_key_computed q :
  query_hash q = None ∨ query_hash q = Some [] →
  cache_key q = generate_query_hash q.
Proof. unfold cache_key. by intros [-> | ->]. Qed.

Lemma run_cache_lookup_miss s (key : str) :
  cache_miss s key → cache_lookup key s = (s, Ok None).
Proof.
  intros Hmiss. unfold cache_lookup, redis_get, redis_command.
  unfold_monad. unfold has_redis. unfold_monad.
  destruct (redis_client s) as [r|] eqn:Hr.
  - rewrite bool_decide_eq_true_2 by (by eexists).
    rewrite Hr. destruct (reachable r) eqn:Hreach; [|done].
    rewrite (Hmiss r Hr Hreach). simpl. by rewrite set_redis_same.
  - by rewrite bool_decide_eq_false_2 by (by intros [? ?]).
Qed.

Lemma run_cache_lookup_hit s (r : Redis) (key : str) (ttl : Z)
    (response : QueryResponse) :
  redis_client s = Some r → reachable r = true →
  entries r !! key = Some (ttl, response) →
  cache_lookup key s = (s, Ok (Some response)).
Proof.
  intros Hr Hreach Hkey. unfold cache_lookup, redis_get, redis_command.
  unfold_monad. unfold has_redis. unfold_monad.
  rewrite bool_decide_eq_true_2 by (by eexists).
  rewrite Hr, Hreach, Hkey. simpl. by rewrite set_redis_same.
Qed.

(** The cache write at the end of a query. *)
Lemma run_store s (key : str) (ttl : Z) (response : QueryResponse) :
  when (bool_decide (is_Some (redis_client s)))
       (try_except (redis_setex (query_key_prefix ++ key) ttl response)
                   (λ _, mret tt)) s
  = (stored key ttl response s, Ok tt).
Proof.
  unfold redis_setex, redis_command, stored. unfold_monad.
  destruct (redis_client s) as [r|] eqn:Hr.
  - rewrite bool_decide_eq_true_2 by (by eexists).
    rewrite Hr. by destruct (reachable r).
  - by rewrite bool_decide_eq_false_2 by (by intros [? ?]).
Qed.

(** The graph a query is evaluated on, and the state it is evaluated
    in. *)
Lemma run_working_graph s q :
  ∃ l, (if reasoning q then apply_reasoning else mret (graph s)) s
       = (if reasoning q then reasoned s else s, Ok l) ∧
       graph_at (if reasoning q then reasoned s else s) l = working_triples s q.
Proof.
  unfold working_triples. destruct (reasoning q).
  - exists (fresh (dom (heap s))). split; [apply run_apply_reasoning|].
    apply graph_at_reasoned_new.
  - by exists (graph s).
Qed.

(** A query that is prepared and evaluated without an error. *)
Lemma run_evaluate s q (key : str) (p : Prepared)
    (sols : list (gmap str Term)) :
  prepareQuery (enhance_query_with_brain_context (query q) (brain_context q))
  = Ok p →
  query_type q = lit "SELECT" →
  graph_query (working_triples s q) p = Ok sols →
  let rows := map (result_row (PV p)) sols in
  let response :=
    success_response q key (apply_limit rows (limit q))
                     (collect_insights q rows) in
  evaluate q key s
  = (stored key (cache_ttl q) response (if reasoning q then reasoned s else s),
     Ok response).
Proof.
  intros Hp Ht Hq rows response. unfold evaluate.
  unfold mbind at 1, M_bind at 1, get_state at 1.
  destruct (run_working_graph s q) as (l & Hrun & Hl).
  unfold mbind at 1, M_bind at 1. rewrite Hrun.
  unfold mbind at 1, M_bind at 1, lift at 1. rewrite Hp.
  unfold mbind at 1, M_bind at 1. rewrite decide_True by exact Ht.
  unfold mbind at 1, M_bind at 1, get_state at 1.
  unfold mbind at 1, M_bind at 1, lift at 1. rewrite Hl, Hq.
  unfold mret at 1, M_ret at 1.
  unfold mbind at 1, M_bind at 1. rewrite run_has_redis.
  unfold mbind at 1, M_bind at 1. rewrite run_store.
  reflexivity.
Qed.

Lemma redis_stored_working s q :
  redis_client (if reasoning q then reasoned s else s) = redis_client s.
Proof. destruct (reasoning q); [apply redis_reasoned|done]. Qed.

(** *** The limit *)

Lemma apply_limit_nonneg (rows : list Row) (n : Z) :
  (0 ≤ n)%Z → apply_limit rows n = firstn (Z.to_nat n) rows.
Proof.
  intros Hn. unfold apply_limit, slice_to.
  destruct (decide _) as [Hlt|Hge].
  - by rewrite (proj2 (Z.leb_le 0 n) Hn).
  - symmetry. apply firstn_all2. lia.
Qed.

Lemma apply_limit_negative (rows : list Row) (n : Z) :
  (n < 0)%Z →
  apply_limit rows n = firstn (length rows - Z.to_nat (- n)) rows.
Proof.
  intros Hn. unfold apply_limit, slice_to.
  rewrite decide_True by lia.
  by rewrite (proj2 (Z.leb_gt 0 n) Hn).
Qed.

Lemma length_apply_limit (rows : list Row) (n : Z) :
  Z.of_nat (length (apply_limit rows n))
  = if (0 <=? n)%Z then Z.min n (Z.of_nat (length rows))
    else Z.max 0 (Z.of_nat (length rows) + n).
Proof.
  destruct (Z.leb_spec 0 n) as [Hn|Hn].
  - rewrite apply_limit_nonneg, length_firstn by done. lia.
  - rewrite apply_limit_negative, length_firstn by done. lia.
Qed.

(** *** Running a query *)

(** A hit returns the stored response and changes nothing. *)
Lemma execute_hit s q (r : Redis) (ttl : Z) (response : QueryResponse) :
  redis_client s = Some r → reachable r = true →
  entries r !! (query_key_prefix ++ cache_key q) = Some (ttl, response) →
  execute_sparql_query q s = (s, Ok response).
Proof.
  intros Hr Hreach Hkey. unfold execute_sparql_query.
  unfold mbind, M_bind.
  by rewrite (run_cache_lookup_hit s r _ ttl response).
Qed.

(** A miss evaluates the query in full, cuts the rows to the limit and
    stores the response. *)
Lemma execute_miss s q (p : Prepared) (sols : list (gmap str Term)) :
  cache_miss s (query_key_prefix ++ cache_key q) →
  prepareQuery (enhance_query_with_brain_context (query q) (brain_context q))
  = Ok p →
  query_type q = lit "SELECT" →
  graph_query (working_triples s q) p = Ok sols →
  let rows := map (result_row (PV p)) sols in
  let response :=
    success_response q (cache_key q) (apply_limit rows (limit q))
                     (collect_insights q rows) in
  execute_sparql_query q s
  = (stored (cache_key q) (cache_ttl q) response
            (if reasoning q then reasoned s else s),
     Ok response).
Proof.
  intros Hmiss Hp Ht Hq rows response. unfold execute_sparql_query.
  unfold mbind, M_bind. rewrite run_cache_lookup_miss by exact Hmiss.
  unfold try_except.
  by rewrite (run_evaluate s q (cache_key q) p sols Hp Ht Hq).
Qed.

Lemma redis_stored (key : str) (ttl : Z) (response : QueryResponse) s
    (r : Redis) :
  redis_client s = Some r → reachable r = true →
  redis_client (stored key ttl response s)
  = Some {| entries := <[query_key_prefix ++ key := (ttl, response)]> (entries r);
            reachable := true |}.
Proof. intros Hr Hreach. unfold stored. rewrite Hr, Hreach. done. Qed.

Lemma cached_queries_stored (key : str) (ttl : Z) (response : QueryResponse) s
    (r : Redis) :
  redis_client s = Some r → reachable r = true →
  query_key_prefix ++ key ∈ cached_queries (stored key ttl response s).
Proof.
  intros Hr Hreach. unfold cached_queries.
  rewrite (redis_stored key ttl response s r Hr Hreach).
  apply elem_of_filter. split; [apply PyStrFacts.startswith_app|].
  cbn [entries]. rewrite dom_insert_L.
  apply elem_of_union_l. by apply elem_of_singleton.
Qed.

Lemma base_graph_stored (key : str) (ttl : Z) (response : QueryResponse) s :
  base_graph (stored key ttl response s) = base_graph s.
Proof.
  unfold stored. destruct (redis_client s) as [r|]; [|done].
  by destruct (reachable r).
Qed.

(** The cache key is read off the supplied key, the query text, the
    reasoning flag and the context; the limit has no part in it. *)
Lemma cache_key_ignores_limit q q' :
  query q' = query q → reasoning q' = reasoning q →
  brain_context q' = brain_context q → query_hash q' = query_hash q →
  cache_key q' = cache_key q.
Proof.
  intros Hq Hr Hc Hh. unfold cache_key, generate_query_hash, hash_input.
  by rewrite Hq, Hr, Hc, Hh.
Qed.

(** C5, as amended: a SELECT query with a limit that is not negative,
    not answered from the cache and running without an error, is
    evaluated in full; the rows of the response are the first [limit]
    rows of the full result, [total_results] is the smaller of the limit
    and the number of rows of the full result, and the response reports
    the reasoning flag of the request.  A query that is in the cache is
    answered with the stored response, whatever its limit: the limit is
    not part of the cache key. *)
Theorem limit_is_a_post_filter s q :
  query_type q = lit "SELECT" →
  (∀ (p : Prepared) (sols : list (gmap str Term)),
     (0 ≤ limit q)%Z →
     cache_miss s (query_key_prefix ++ cache_key q) →
     prepareQuery (enhance_query_with_brain_context (query q) (brain_context q))
     = Ok p →
     graph_query (working_triples s q) p = Ok sols →
     ∃ s' response,
       execute_sparql_query q s = (s', Ok response) ∧
       success response = true ∧
       reasoning_applied response = reasoning q ∧
       results response
       = firstn (Z.to_nat (limit q)) (map (result_row (PV p)) sols) ∧
       total_results response = Z.min (limit q) (Z.of_nat (length sols))) ∧
  (∀ (q' : QueryRequest) (r : Redis) (ttl : Z) (response : QueryResponse),
     query q' = query q → reasoning q' = reasoning q →
     brain_context q' = brain_context q → query_hash q' = query_hash q →
     redis_client s = Some r → reachable r = true →
     entries r !! (query_key_prefix ++ cache_key q) = Some (ttl, response) →
     execute_sparql_query q' s = (s, Ok response)).
Proof.
  intros Ht. split.
  - intros p sols Hn Hmiss Hp Hq. eexists _, _.
    split; [by apply (execute_miss s q p sols)|].
    split; [done|]. split; [done|].
    cbn [results total_results success_response].
    rewrite length_apply_limit, length_map.
    rewrite apply_limit_nonneg by done.
    by rewrite (proj2 (Z.leb_le 0 _) Hn).
  - intros q' r ttl response Hq Hr Hc Hh Hclient Hreach Hentry.
    apply (execute_hit s q' r ttl response Hclient Hreach).
    by rewrite (cache_key_ignores_limit q q' Hq Hr Hc Hh).
Qed.

End QueryFacts.

(** ** The service at work *)

Module Scenario.
Import Fixture.

Lemma fresh_cache_miss (key : str) : cache_miss (init cache_server) key.
Proof.
  intros r Hr _. rewrite redis_init in Hr.
  change (Some cache_server = Some r) in Hr.
  injection Hr as <-. apply lookup_empty.
Qed.

Lemma length_solutions_of (g : Graph) : length (solutions_of g) = size g.
Proof. unfold solutions_of. by rewrite length_map. Qed.

(** A query without reasoning that the engine accepts and the cache
    does not hold. *)
Lemma run_fixture_query (q : QueryRequest) (s : State) :
  cache_miss s (query_key_prefix ++ cache_key q) →
  PyStr.contains
    (enhance_query_with_brain_context (query q) (brain_context q))
    block_delimiter = true →
  query_type q = lit "SELECT" →
  reasoning q = false →
  execute_sparql_query (L := libraries) q s
  = (stored (cache_key q) 1800 (answer q (base_graph s)) s,
     Ok (answer q (base_graph s))).
Proof.
  intros Hmiss Hp Ht Hr.
  pose proof (execute_miss (L := libraries) s q
                (enhance_query_with_brain_context (query q) (brain_context q))
                (solutions_of (base_graph s)) Hmiss) as Hrun.
  unfold working_triples, cache_ttl in Hrun. rewrite Hr in Hrun.
  apply Hrun; [|exact Ht|reflexivity].
  change (prepare (enhance_query_with_brain_context (query q) (brain_context q))
          = Ok (enhance_query_with_brain_context (query q) (brain_context q))).
  unfold prepare. by rewrite Hp.
Qed.

Lemma select_all_accepted (n : Z) :
  PyStr.contains
    (enhance_query_with_brain_context (query (select_all n))
                                      (brain_context (select_all n)))
    block_delimiter = true.
Proof. vm_compute. reflexivity. Qed.

Lemma run_select_all (n : Z) :
  execute_sparql_query (L := libraries) (select_all n) (init cache_server)
  = (stored (cache_key (select_all n)) 1800 (answer (select_all n) baseline)
            (init cache_server),
     Ok (answer (select_all n) baseline)).
Proof.
  rewrite <- (base_graph_init cache_server).
  apply run_fixture_query;
    [apply fresh_cache_miss|apply select_all_accepted|reflexivity..].
Qed.

Lemma total_results_answer (q : QueryRequest) (g : Graph) :
  total_results (answer q g)
  = if (0 <=? limit q)%Z then Z.min (limit q) (Z.of_nat (size g))
    else Z.max 0 (Z.of_nat (size g) + limit q).
Proof.
  unfold answer. cbn [total_results success_response].
  by rewrite length_apply_limit, length_map, length_solutions_of.
Qed.

(** *** The limit *)

Lemma select_all_prepared (n : Z) :
  @prepareQuery libraries
    (enhance_query_with_brain_context (query (select_all n))
                                      (brain_context (select_all n)))
  = Ok (query (select_all n)).
Proof. vm_compute. reflexivity. Qed.

Lemma select_all_solutions (n : Z) :
  @graph_query libraries
    (working_triples (L := libraries) (init cache_server) (select_all n))
    (query (select_all n))
  = Ok (solutions_of baseline).
Proof.
  unfold working_triples. cbn [reasoning select_all].
  by rewrite base_graph_init.
Qed.

Lemma limit_is_a_post_filter_witness :
  query_type (select_all 5) = lit "SELECT" ∧
  ∃ s' response,
    execute_sparql_query (L := libraries) (select_all 5) (init cache_server)
    = (s', Ok response) ∧
    success response = true ∧ reasoning_applied response = false ∧
    results response
    = firstn 5 (map (result_row (L := libraries) [lit "s"; lit "p"; lit "o"])
                    (solutions_of baseline)) ∧
    total_results response = Z.min 5 (Z.of_nat (size baseline)) ∧
    total_results response = 5%Z.
Proof.
  split; [reflexivity|].
  destruct (proj1 (limit_is_a_post_filter (L := libraries) (init cache_server)
                     (select_all 5) eq_refl)
              (query (select_all 5)) (solutions_of baseline)
              (proj1 (Z.leb_le 0 5) eq_refl) (fresh_cache_miss _) (select_all_prepared 5)
              (select_all_solutions 5))
    as (s' & response & Hrun & Hok & Hreason & Hrows & Htotal).
  exists s', response. split; [exact Hrun|]. split; [exact Hok|].
  split; [exact Hreason|]. split; [exact Hrows|].
  rewrite Htotal, length_solutions_of, size_baseline. split; reflexivity.
Defined.

Lemma cache_key_select_all (n m : Z) :
  cache_key (select_all n) = cache_key (select_all m).
Proof. reflexivity. Qed.

Lemma after_query_eq :
  after_query
  = stored (cache_key (select_all 5)) 1800 (answer (select_all 5) baseline)
           (init cache_server).
Proof. unfold after_query. by rewrite run_select_all. Qed.

Lemma redis_after_query :
  redis_client after_query
  = Some {| entries := <[query_key_prefix ++ cache_key (select_all 5)
                         := (1800%Z, answer (select_all 5) baseline)]> ∅;
            reachable := true |}.
Proof.
  rewrite after_query_eq.
  apply (redis_stored _ _ _ _ cache_server); [|reflexivity].
  apply redis_init.
Qed.

Lemma base_graph_after_query : base_graph after_query = baseline.
Proof.
  rewrite after_query_eq, base_graph_stored. apply base_graph_init.
Qed.

(** C5 as stated fails in two ways.  With the limit -1 the fresh
    service answers the query over its 17 triples with 16 rows, not
    with min(-1, 17).  And after that query was answered with the limit
    5, the same query with the limit 10 is answered from the cache with
    5 rows, although the full result still has 17. *)
Lemma limit_claim_fails :
  (∃ s' response,
     execute_sparql_query (L := libraries) (select_all (-1)) (init cache_server)
     = (s', Ok response) ∧
     success response = true ∧
     length (solutions_of (base_graph (init cache_server))) = 17%nat ∧
     total_results response = 16%Z ∧
     total_results response ≠ Z.min (-1) 17) ∧
  (∃ response,
     execute_sparql_query (L := libraries) (select_all 10) after_query
     = (after_query, Ok response) ∧
     success response = true ∧
     length (solutions_of (base_graph after_query)) = 17%nat ∧
     total_results response = 5%Z ∧
     total_results response ≠ Z.min 10 17).
Proof.
  split.
  - eexists _, _. split; [apply run_select_all|].
    split; [reflexivity|].
    split; [by rewrite length_solutions_of, base_graph_init, size_baseline|].
    rewrite total_results_answer, size_baseline. split; [reflexivity|discriminate].
  - exists (answer (select_all 5) baseline).
    split.
    { eapply execute_hit; [apply redis_after_query|reflexivity|].
      cbn [entries]. rewrite (cache_key_select_all 10 5).
      apply lookup_insert_eq. }
    split; [reflexivity|].
    split; [by rewrite length_solutions_of, base_graph_after_query, size_baseline|].
    rewrite total_results_answer, size_baseline. split; [reflexivity|discriminate].
Qed.

(** *** Supplied cache keys *)

Lemma run_keyed_all :
  execute_sparql_query (L := libraries) keyed_all (init cache_server)
  = (stored (lit "shared") 1800 (answer keyed_all baseline) (init cache_server),
     Ok (answer keyed_all baseline)).
Proof.
  rewrite <- (base_graph_init cache_server).
  apply (run_fixture_query keyed_all);
    [apply fresh_cache_miss|by vm_compute|reflexivity..].
Qed.

(** C9, as amended: a query_hash that is supplied and not empty is the
    cache key: a response stored under it is returned as it is, and a
    response computed on a miss carries it and is stored under it.  So
    two requests with different query texts and the same supplied key
    share a cache entry: the second is answered with the response of
    the first. *)
Theorem supplied_query_hash_is_the_cache_key :
  (∀ (L : Libraries) (q : QueryRequest) (h : str) (s : State),
     query_hash q = Some h → h ≠ [] →
     cache_key q = h ∧
     (∀ (r : Redis) (ttl : Z) (response : QueryResponse),
        redis_client s = Some r → reachable r = true →
        entries r !! (query_key_prefix ++ h) = Some (ttl, response) →
        execute_sparql_query q s = (s, Ok response)) ∧
     (∀ (r : Redis) (p : Prepared) (sols : list (gmap str Term)),
        redis_client s = Some r → reachable r = true →
        entries r !! (query_key_prefix ++ h) = None →
        prepareQuery
          (enhance_query_with_brain_context (query q) (brain_context q))
        = Ok p →
        query_type q = lit "SELECT" →
        graph_query (working_triples s q) p = Ok sols →
        ∃ s' response,
          execute_sparql_query q s = (s', Ok response) ∧
          response_query_hash response = h ∧
          ∃ r', redis_client s' = Some r' ∧
                entries r' !! (query_key_prefix ++ h)
                = Some (cache_ttl q, response))) ∧
  (∃ (q1 q2 : QueryRequest) (s1 : State) (response : QueryResponse),
     query q1 ≠ query q2 ∧ query_hash q1 = query_hash q2 ∧
     execute_sparql_query (L := libraries) q1 (init cache_server)
     = (s1, Ok response) ∧
     execute_sparql_query (L := libraries) q2 s1 = (s1, Ok response)).
Proof.
  split.
  - intros L q h s Hh Hne.
    pose proof (cache_key_supplied q h Hh Hne) as Hkey.
    split; [exact Hkey|]. split.
    + intros r ttl response Hr Hreach Hentry.
      apply (execute_hit s q r ttl response Hr Hreach). by rewrite Hkey.
    + intros r p sols Hr Hreach Hentry Hp Ht Hq.
      assert (Hmiss : cache_miss s (query_key_prefix ++ cache_key q)).
      { intros r0 Hr0 _. rewrite Hr in Hr0. injection Hr0 as <-.
        by rewrite Hkey. }
      eexists _, _. split; [by apply (execute_miss s q p sols)|].
      split; [exact Hkey|].
      eexists. split.
      * apply redis_stored; [|exact Hreach].
        rewrite redis_stored_working. exact Hr.
      * cbn [entries]. rewrite Hkey. apply lookup_insert_eq.
  - exists keyed_all, keyed_classes. eexists _, _.
    split; [discriminate|]. split; [reflexivity|].
    split; [apply run_keyed_all|].
    eapply execute_hit.
    + apply (redis_stored _ _ _ _ cache_server); [apply redis_init|reflexivity].
    + reflexivity.
    + cbn [entries]. apply lookup_insert_eq.
Qed.

Lemma supplied_query_hash_is_the_cache_key_witness :
  query_hash keyed_classes = Some (lit "shared") ∧
  cache_key keyed_classes = lit "shared" ∧
  ∃ s1, execute_sparql_query (L := libraries) keyed_classes s1
        = (s1, Ok (answer keyed_all baseline)).
Proof.
  split; [reflexivity|].
  destruct (proj1 supplied_query_hash_is_the_cache_key libraries keyed_classes
              (lit "shared")
              (stored (lit "shared") 1800 (answer keyed_all baseline)
                      (init cache_server))
              eq_refl ltac:(discriminate)) as (Hkey & Hhit & _).
  split; [exact Hkey|]. eexists. eapply Hhit.
  - apply (redis_stored _ _ _ _ cache_server); [apply redis_init|reflexivity].
  - reflexivity.
  - cbn [entries]. apply lookup_insert_eq.
Defined.

(** C9 as stated fails for a supplied key that is the empty string: it
    is taken for a missing one and the digest of the request is the cache
    key. *)
Lemma empty_query_hash_is_not_used :
  let q := select_keyed "SELECT ?s ?p ?o WHERE { ?s ?p ?o }" "" in
  query_hash q = Some [] ∧
  cache_key q = generate_query_hash q ∧
  cache_key q = lit "2a84a0515a09d9f4ba971975bfad83a3" ∧
  cache_key q ≠ [].
Proof.
  intros q. split; [reflexivity|]. split; [reflexivity|].
  assert (Hkey : cache_key q = lit "2a84a0515a09d9f4ba971975bfad83a3")
    by (vm_compute; reflexivity).
  split; [exact Hkey|]. rewrite Hkey. discriminate.
Qed.

(** *** Imports *)

Lemma parse_import_c1 (clear : bool) :
  parse_error (L := libraries) (import_c1 clear) = None ∧
  parsed (L := libraries) (import_c1 clear) = [c1].
Proof. split; vm_compute; reflexivity. Qed.

Lemma parse_import_empty (clear : bool) :
  parse_error (L := libraries) (import_empty clear) = None ∧
  parsed (L := libraries) (import_empty clear) = [].
Proof. split; vm_compute; reflexivity. Qed.

Lemma parse_malformed (clear : bool) :
  parse_error (L := libraries) (malformed clear) = Some (lit "Bad syntax").
Proof. vm_compute. reflexivity. Qed.

Lemma c1_not_in_baseline : c1 ∉ baseline.
Proof.
  unfold baseline. rewrite elem_of_list_to_set.
  apply (bool_decide_unpack _). vm_compute. exact I.
Qed.

Lemma base_graph_after_import : base_graph after_import = {[c1]} ∪ baseline.
Proof.
  unfold after_import.
  rewrite base_graph_imported;
    [|apply parse_import_c1|right; apply wf_init].
  rewrite (proj2 (parse_import_c1 false)). cbn [clear_graph import_c1].
  rewrite base_graph_init, list_to_set_cons, list_to_set_nil.
  by rewrite (right_id_L ∅ (∪) {[c1]}).
Qed.

Lemma size_after_import : size (base_graph after_import) = 18%nat.
Proof.
  rewrite base_graph_after_import, size_union, size_singleton, size_baseline;
    [done|].
  apply disjoint_singleton_l, c1_not_in_baseline.
Qed.

(** C1, evaluated: the service holds the baseline and the triple [c1];
    an import of malformed data with validation and [clear_graph] is
    refused, and the base graph after it is the bare baseline: [c1] is
    gone. *)
Theorem failed_import_with_clear_resets_graph :
  let out := import_rdf_data (L := libraries) (malformed true) after_import in
  c1 ∈ base_graph after_import ∧
  out.2 = Ok (import_failure (lit "Bad syntax")) ∧
  base_graph out.1 = baseline ∧
  (c1 ∉ base_graph out.1) ∧
  (base_graph out.1 ≠ base_graph after_import).
Proof.
  intros out.
  destruct (import_validation_failure (L := libraries) (malformed true)
              after_import (lit "Bad syntax") eq_refl (parse_malformed true))
    as (s' & Hrun & _ & Hbase).
  specialize (Hbase eq_refl).
  assert (Hin : c1 ∈ base_graph after_import).
  { rewrite base_graph_after_import. apply elem_of_union_l.
    by apply elem_of_singleton. }
  subst out. rewrite Hrun. cbn [fst snd].
  split; [exact Hin|]. split; [reflexivity|]. split; [exact Hbase|].
  rewrite Hbase. split; [apply c1_not_in_baseline|].
  intros Heq. apply c1_not_in_baseline. by rewrite Heq.
Qed.

Lemma triples_imported_counts_from_before_clear_witness :
  clear_graph (import_empty true) = true ∧
  ∃ s' res,
    import_rdf_data (L := libraries) (import_empty true) after_import
    = (s', Ok res) ∧
    import_success res = true ∧
    base_graph s' = baseline ∧
    triples_imported res = (-1)%Z.
Proof.
  split; [reflexivity|].
  pose proof (run_import_rdf_data (L := libraries) (import_empty true)
                after_import) as Hrun.
  rewrite (proj1 (parse_import_empty true)) in Hrun. cbv zeta in Hrun.
  destruct (triples_imported_counts_from_before_clear (L := libraries)
              (import_empty true) after_import _ _ eq_refl Hrun eq_refl)
    as (Hbase & Hcount & _).
  eexists _, _. split; [exact Hrun|]. split; [reflexivity|].
  rewrite (proj2 (parse_import_empty true)), list_to_set_nil in Hbase.
  rewrite (left_id_L ∅ (∪) baseline) in Hbase.
  split; [exact Hbase|].
  rewrite Hcount, Hbase, size_baseline, size_after_import. reflexivity.
Defined.

(** *** Imports and the cache *)

Lemma cached_after_query :
  query_key_prefix ++ cache_key (select_all 5) ∈ cached_queries after_query.
Proof.
  rewrite after_query_eq.
  apply (cached_queries_stored _ _ _ _ cache_server); [|reflexivity].
  apply redis_init.
Qed.

Lemma evolve_keeps_cache_import_clears_it_witness :
  cached_queries after_query ≠ ∅ ∧
  ∃ s' res,
    import_rdf_data (L := libraries) (import_c1 false) after_query
    = (s', Ok res) ∧
    import_success res = true ∧ cached_queries s' = ∅.
Proof.
  split.
  { intros Hempty. pose proof cached_after_query as Hin.
    rewrite Hempty in Hin. by apply not_elem_of_empty in Hin. }
  pose proof (run_import_rdf_data (L := libraries) (import_c1 false)
                after_query) as Hrun.
  rewrite (proj1 (parse_import_c1 false)) in Hrun. cbv zeta in Hrun.
  eexists _, _. split; [exact Hrun|]. split; [reflexivity|].
  exact (proj1 (proj2 (evolve_keeps_cache_import_clears_it (L := libraries))
                  (import_c1 false) after_query _ _ _ Hrun eq_refl
                  redis_after_query) eq_refl).
Defined.

Lemma redis_offline (s : State) (r : Redis) :
  redis_client s = Some r →
  redis_client (offline s)
  = Some {| entries := entries r; reachable := false |}.
Proof. intros Hr. unfold offline. cbn [redis_client set_redis]. by rewrite Hr. Qed.

Lemma cached_queries_offline (s : State) :
  cached_queries (offline s) = cached_queries s.
Proof.
  unfold cached_queries, offline. cbn [redis_client set_redis].
  by destruct (redis_client s).
Qed.

(** C8 as stated fails when the cache server cannot be reached at the
    time of the import: the import succeeds and the query entry is still
    stored. *)
Lemma import_keeps_cache_when_unreachable :
  let s := offline after_query in
  let out := import_rdf_data (L := libraries) (import_c1 false) s in
  (∃ res, out.2 = Ok res ∧ import_success res = true) ∧
  cached_queries out.1 = cached_queries s ∧
  cached_queries s ≠ ∅.
Proof.
  intros s out.
  pose proof (run_import_rdf_data (L := libraries) (import_c1 false) s) as Hrun.
  rewrite (proj1 (parse_import_c1 false)) in Hrun. cbv zeta in Hrun.
  fold out in Hrun.
  assert (Hredis : redis_client out.1 = redis_client s).
  { rewrite Hrun. cbn [fst].
    pose proof (redis_offline after_query _ redis_after_query) as Hoff.
    fold s in Hoff.
    rewrite (invalidated_unreachable _ _
               (eq_trans (redis_set_reasoning_cache ∅ _)
                         (eq_trans (redis_merged _ s) Hoff)) eq_refl).
    rewrite redis_set_reasoning_cache. apply redis_merged. }
  split; [|split].
  - rewrite Hrun. cbn [snd]. eexists. split; reflexivity.
  - unfold cached_queries. by rewrite Hredis.
  - subst s. rewrite cached_queries_offline.
    intros Hempty. pose proof cached_after_query as Hin.
    rewrite Hempty in Hin. by apply not_elem_of_empty in Hin.
Qed.

End Scenario.

(** ** Further properties: handlers and the cache lookup *)

Section BoundaryFacts.
Context {L : Libraries}.
Implicit Types (s : State).

Lemma try_except_returns {A} (m : M A) (h : str → A) s :
  ∃ s' a, try_except m (λ e, mret (h e)) s = (s', Ok a).
Proof.
  unfold try_except. destruct (m s) as [s1 [a|e]]; by eexists _, _.
Qed.

Lemma cache_lookup_returns (key : str) s :
  ∃ c, cache_lookup key s = (s, Ok c).
Proof.
  destruct (redis_client s) as [r|] eqn:Hr.
  - destruct (reachable r) eqn:Hreach.
    + destruct (entries r !! key) as [[ttl response]|] eqn:Hkey.
      * exists (Some response). by apply (run_cache_lookup_hit s r key ttl).
      * exists None. apply run_cache_lookup_miss.
        intros r0 Hr0 _. rewrite Hr in Hr0. by injection Hr0 as <-.
    + exists None. apply run_cache_lookup_miss.
      intros r0 Hr0 Hreach0. rewrite Hr in Hr0. injection Hr0 as <-. congruence.
  - exists None. apply run_cache_lookup_miss. intros r0 Hr0. congruence.
Qed.

End BoundaryFacts.

(** ** Further properties: queries, case by case *)

Section EvaluationFacts.
Context {L : Libraries}.
Implicit Types (s : State) (q : QueryRequest).

(** What the [try] block of a query does, by the outcome of the parser
    and of the engine. *)
Lemma run_evaluate_cases s q (key : str) :
  evaluate q key s =
  match prepareQuery
          (enhance_query_with_brain_context (query q) (brain_context q)) with
  | Raise e => (working_state q s, Raise e)
  | Ok p =>
      match solutions_for q s p with
      | Raise e => (working_state q s, Raise e)
      | Ok sols =>
          (stored key (cache_ttl q) (response_for q key p sols)
                  (working_state q s),
           Ok (response_for q key p sols))
      end
  end.
Proof.
  unfold evaluate, working_state, solutions_for, response_for.
  unfold mbind at 1, M_bind at 1, get_state at 1.
  destruct (run_working_graph s q) as (l & Hrun & Hl).
  unfold mbind at 1, M_bind at 1. rewrite Hrun.
  unfold mbind at 1, M_bind at 1, lift at 1.
  destruct (prepareQuery _) as [p|e]; [|reflexivity].
  unfold mbind at 1, M_bind at 1.
  destruct (decide (query_type q = lit "SELECT")) as [Ht|Ht].
  - unfold mbind at 1, M_bind at 1, get_state at 1.
    unfold mbind at 1, M_bind at 1, lift at 1. rewrite Hl.
    destruct (graph_query _ p) as [sols|e]; [|reflexivity].
    unfold mret at 1, M_ret at 1.
    unfold mbind at 1, M_bind at 1. rewrite run_has_redis.
    unfold mbind at 1, M_bind at 1. rewrite run_store.
    reflexivity.
  - unfold mret at 1, M_ret at 1.
    unfold mbind at 1, M_bind at 1. rewrite run_has_redis.
    unfold mbind at 1, M_bind at 1. rewrite run_store.
    reflexivity.
Qed.

(** What [execute_sparql_query] does when the cache has no answer. *)
Lemma run_execute_miss s q :
  cache_miss s (query_key_prefix ++ cache_key q) →
  execute_sparql_query q s =
  match prepareQuery
          (enhance_query_with_brain_context (query q) (brain_context q)) with
  | Raise e => (working_state q s, Ok (failure_response (cache_key q) e))
  | Ok p =>
      match solutions_for q s p with
      | Raise e => (working_state q s, Ok (failure_response (cache_key q) e))
      | Ok sols =>
          (stored (cache_key q) (cache_ttl q)
                  (response_for q (cache_key q) p sols) (working_state q s),
           Ok (response_for q (cache_key q) p sols))
      end
  end.
Proof.
  intros Hmiss. unfold execute_sparql_query.
  unfold mbind, M_bind. rewrite run_cache_lookup_miss by exact Hmiss.
  unfold try_except. rewrite run_evaluate_cases.
  destruct (prepareQuery _) as [p|e]; [|reflexivity].
  by destruct (solutions_for q s p).
Qed.

End EvaluationFacts.

(** ** Further properties: queries *)

#[global] Instance keeps_objects_refl : Reflexive keeps_objects.
Proof. intros s. by repeat split. Qed.

#[global] Instance keeps_objects_trans : Transitive keeps_objects.
Proof.
  intros s1 s2 s3 (G1 & K1 & D1 & O1) (G2 & K2 & D2 & O2).
  split; [congruence|]. split; [congruence|]. split; [by etrans|].
  intros l Hl. rewrite O2 by (by apply D1). by apply O1.
Qed.

Section QueryMoreFacts.
Context {L : Libraries}.
Implicit Types (s : State) (q : QueryRequest).

Lemma keeps_objects_stored (key : str) (ttl : Z) (response : QueryResponse) s :
  keeps_objects s (stored key ttl response s).
Proof.
  unfold stored. destruct (redis_client s) as [r|]; [|reflexivity].
  destruct (reachable r); [|reflexivity]. by repeat split.
Qed.

Lemma keeps_objects_reasoned s : keeps_objects s (reasoned s).
Proof.
  split; [apply graph_reasoned|]. split.
  { unfold reasoned. cbn [reasoning_cache set_heap].
    generalize (elements (base_graph s)). intros ts.
    revert s. induction ts as [|t ts IH] using rev_ind; intros s; [done|].
    unfold add_all. rewrite fold_left_app. cbn [fold_left reasoning_cache set_heap].
    apply IH. }
  split.
  { unfold reasoned. cbn [heap set_heap]. rewrite dom_insert_L.
    etrans; [|apply union_subseteq_r]. etrans; [|apply dom_add_all].
    rewrite dom_alloc. apply union_subseteq_r. }
  intros l Hl. apply graph_at_reasoned_old.
  intros ->. by apply (fresh_not_allocated s).
Qed.

Lemma keeps_objects_working s q : keeps_objects s (working_state q s).
Proof.
  unfold working_state. destruct (reasoning q);
    [apply keeps_objects_reasoned|reflexivity].
Qed.

Lemma redis_working_state s q :
  redis_client (working_state q s) = redis_client s.
Proof. apply redis_stored_working. Qed.

(** The three states a query can end in. *)
Lemma execute_state s q :
  (execute_sparql_query q s).1 = s ∨
  (execute_sparql_query q s).1 = working_state q s ∨
  ∃ response,
    (execute_sparql_query q s).1
    = stored (cache_key q) (cache_ttl q) response (working_state q s).
Proof.
  unfold execute_sparql_query.
  destruct (cache_lookup_returns (query_key_prefix ++ cache_key q) s) as [c Hc].
  unfold mbind, M_bind. rewrite Hc. destruct c as [response|]; [by left|].
  unfold try_except. rewrite run_evaluate_cases.
  destruct (prepareQuery _) as [p|e]; [|by right; left].
  destruct (solutions_for q s p) as [sols|e]; [|by right; left].
  right; right. by eexists.
Qed.

Lemma keeps_objects_execute s q :
  keeps_objects s (execute_sparql_query q s).1.
Proof.
  destruct (execute_state s q) as [->|[->|[response ->]]].
  - reflexivity.
  - apply keeps_objects_working.
  - etrans; [apply keeps_objects_working|apply keeps_objects_stored].
Qed.

(** X2: a query is read-only on the store: whatever the request and
    its outcome, [self.graph] refers to the same object afterwards and
    that object holds the same triples, also when reasoning was
    applied. *)
Theorem queries_leave_the_base_graph s q :
  wf s →
  base_graph (execute_sparql_query q s).1 = base_graph s ∧
  graph (execute_sparql_query q s).1 = graph s ∧
  wf (execute_sparql_query q s).1.
Proof.
  intros Hwf.
  destruct (keeps_objects_execute s q) as (Hg & _ & Hdom & Hobj).
  split; [|split].
  - unfold base_graph. rewrite Hg. by apply Hobj.
  - exact Hg.
  - unfold wf. rewrite Hg. by apply Hdom.
Qed.

(** X3: a query that is not in the cache and whose text does not parse,
    or whose evaluation raises, is answered with success:false, no
    rows, [total_results] 0, the message of the exception and
    [reasoning_applied] false, also when reasoning was requested and
    computed; nothing is written to the cache, and without reasoning
    the state is untouched. *)
Theorem failed_query_response s q (e : str) :
  cache_miss s (query_key_prefix ++ cache_key q) →
  prepareQuery (enhance_query_with_brain_context (query q) (brain_context q))
  = Raise e ∨
  (∃ p, prepareQuery
          (enhance_query_with_brain_context (query q) (brain_context q))
        = Ok p ∧ solutions_for q s p = Raise e) →
  ∃ s' response,
    execute_sparql_query q s = (s', Ok response) ∧
    success response = false ∧ results response = [] ∧
    total_results response = 0%Z ∧ reasoning_applied response = false ∧
    error response = Some e ∧ response_query_hash response = cache_key q ∧
    redis_client s' = redis_client s ∧
    (reasoning q = false → s' = s).
Proof.
  intros Hmiss Hfail.
  exists (working_state q s), (failure_response (cache_key q) e).
  split.
  { rewrite run_execute_miss by exact Hmiss.
    destruct Hfail as [->|(p & -> & ->)]; reflexivity. }
  do 6 (split; [reflexivity|]).
  split; [apply redis_working_state|].
  intros Hr. unfold working_state. by rewrite Hr.
Qed.

(** X4: a query that is evaluated without an error is answered with
    success:true and stored under its cache key, for 900 seconds with
    reasoning and 1800 without, next to the entries that were there; if
    the cache server cannot be reached, or there is no client, the
    response is the same and the cache is as before. *)
Theorem answered_query_is_cached s q (p : Prepared)
    (sols : list (gmap str Term)) :
  cache_miss s (query_key_prefix ++ cache_key q) →
  prepareQuery (enhance_query_with_brain_context (query q) (brain_context q))
  = Ok p →
  solutions_for q s p = Ok sols →
  ∃ s',
    execute_sparql_query q s
    = (s', Ok (response_for q (cache_key q) p sols)) ∧
    success (response_for q (cache_key q) p sols) = true ∧
    (∀ r, redis_client s = Some r → reachable r = true →
       redis_client s'
       = Some {| entries :=
                   <[query_key_prefix ++ cache_key q
                     := ((if reasoning q then 900 else 1800)%Z,
                         response_for q (cache_key q) p sols)]> (entries r);
                 reachable := true |}) ∧
    (∀ r, redis_client s = Some r → reachable r = false →
       redis_client s' = Some r) ∧
    (redis_client s = None → redis_client s' = None).
Proof.
  intros Hmiss Hp Hsols. eexists. split.
  { rewrite run_execute_miss by exact Hmiss. by rewrite Hp, Hsols. }
  split; [reflexivity|].
  split; [|split].
  - intros r Hr Hreach.
    apply redis_stored; [|exact Hreach]. by rewrite redis_working_state.
  - intros r Hr Hreach. unfold stored.
    rewrite redis_working_state, Hr, Hreach. by rewrite redis_working_state.
  - intros Hr. unfold stored.
    rewrite redis_working_state, Hr. by rewrite redis_working_state.
Qed.

(** X5: only SELECT queries are evaluated: a request with another
    [query_type] whose text parses is answered with success:true and no
    rows, without a call of the engine. *)
Theorem other_query_types_are_not_evaluated s q (p : Prepared) :
  cache_miss s (query_key_prefix ++ cache_key q) →
  prepareQuery (enhance_query_with_brain_context (query q) (brain_context q))
  = Ok p →
  query_type q ≠ lit "SELECT" →
  ∃ s' response,
    execute_sparql_query q s = (s', Ok response) ∧
    success response = true ∧ results response = [] ∧
    total_results response = 0%Z ∧ concept_insights response = Some [].
Proof.
  intros Hmiss Hp Ht. eexists _, _. split.
  { rewrite run_execute_miss by exact Hmiss. rewrite Hp.
    unfold solutions_for. rewrite decide_False by exact Ht. reflexivity. }
  unfold response_for. cbn [map success results total_results concept_insights
                            success_response].
  assert (Hlim : apply_limit [] (limit q) = []).
  { unfold apply_limit, slice_to. destruct (decide _); [|done].
    destruct (0 <=? limit q)%Z; by rewrite firstn_nil. }
  rewrite Hlim. repeat split.
  unfold collect_insights. by destruct (brain_context q).
Qed.

End QueryMoreFacts.

(** ** Further properties: rows and insights *)

Section RowFacts.
Context {L : Libraries}.
Implicit Types (s : State) (q : QueryRequest).

(** X6: the cache is not told about [evolve_concept]: a query answered
    and cached before the call gets the same response after it, though
    the base graph now holds the triples of the concept. *)
Theorem cached_response_survives_evolve s q (p : Prepared)
    (sols : list (gmap str Term)) (r : Redis) (req : ConceptEvolutionRequest) :
  redis_client s = Some r → reachable r = true →
  entries r !! (query_key_prefix ++ cache_key q) = None →
  prepareQuery (enhance_query_with_brain_context (query q) (brain_context q))
  = Ok p →
  solutions_for q s p = Ok sols →
  let s1 := (execute_sparql_query q s).1 in
  let s2 := (evolve_concept req s1).1 in
  execute_sparql_query q s = (s1, Ok (response_for q (cache_key q) p sols)) ∧
  execute_sparql_query q s2 = (s2, Ok (response_for q (cache_key q) p sols)) ∧
  (ns_term CONCEPT (concept_id req), RDF_type, ns_term OMNII "Concept")
  ∈ base_graph s2.
Proof.
  intros Hr Hreach Hentry Hp Hsols s1 s2.
  assert (Hmiss : cache_miss s (query_key_prefix ++ cache_key q)).
  { intros r0 Hr0 _. rewrite Hr in Hr0. by injection Hr0 as <-. }
  assert (Hrun : execute_sparql_query q s
                 = (stored (cache_key q) (cache_ttl q)
                           (response_for q (cache_key q) p sols)
                           (working_state q s),
                    Ok (response_for q (cache_key q) p sols))).
  { rewrite run_execute_miss by exact Hmiss. by rewrite Hp, Hsols. }
  assert (Hs1 : s1 = stored (cache_key q) (cache_ttl q)
                            (response_for q (cache_key q) p sols)
                            (working_state q s))
    by (subst s1; by rewrite Hrun).
  split; [by rewrite Hrun, <- Hs1|]. split.
  - destruct (keeps_evolve_concept req s1) as (_ & Hc & _).
    fold s2 in Hc.
    eapply execute_hit.
    + rewrite Hc, Hs1.
      apply redis_stored; [|exact Hreach]. by rewrite redis_working_state.
    + reflexivity.
    + cbn [entries]. apply lookup_insert_eq.
  - apply evolve_concept_adds_type.
Qed.

Lemma var_in_row_false (var : str) (row : gmap str Term) :
  var_in_row var row = false.
Proof.
  unfold var_in_row. induction ((map_to_list row).*2) as [|value values IH].
  - reflexivity.
  - cbn [existsb]. rewrite IH. by destruct value.
Qed.

Lemma result_row_fold (pv : list str) (row : gmap str Term) (acc : Row) :
  fold_left (λ (acc : Row) var,
               match (if var_in_row var row then row !! var else None) with
               | Some value =>
                   if term_truthy value then <[var := cell_of value]> acc else acc
               | None => acc
               end) pv acc
  = acc.
Proof.
  revert acc. induction pv as [|var pv IH]; intros acc; [done|].
  cbn [fold_left]. by rewrite var_in_row_false, IH.
Qed.

Lemma result_row_empty (pv : list str) (row : gmap str Term) :
  result_row pv row = ∅.
Proof. apply result_row_fold. Qed.

Lemma result_rows_empty (pv : list str) (sols : list (gmap str Term)) :
  map (result_row pv) sols = replicate (length sols) ∅.
Proof.
  induction sols as [|row sols IH]; [done|].
  cbn [map length replicate]. by rewrite result_row_empty, IH.
Qed.

Lemma apply_limit_replicate (n : nat) (row : Row) (k : Z) :
  apply_limit (replicate n row) k
  = replicate (length (apply_limit (replicate n row) k)) row.
Proof.
  unfold apply_limit, slice_to.
  destruct (decide _); [|by rewrite length_replicate].
  destruct (0 <=? k)%Z; by rewrite take_replicate, !length_replicate.
Qed.

Lemma no_insight_in_empty_rows (bc : BrainContext) (n : nat) :
  flat_map (λ row, generate_brain_insights row bc) (replicate n (∅ : Row)) = [].
Proof.
  induction n as [|n IH]; [done|].
  cbn [replicate flat_map]. rewrite IH.
  unfold generate_brain_insights. by rewrite lookup_empty.
Qed.

(** X7: no binding reaches the response of a SELECT query: the test
    [var in row] looks for the variable among the values of the
    solution, where it never is, so every row of [results] is the empty
    dict, and the response tells the number of rows (after the limit)
    and nothing of their content. *)
Theorem result_rows_are_empty s q (p : Prepared)
    (sols : list (gmap str Term)) :
  cache_miss s (query_key_prefix ++ cache_key q) →
  prepareQuery (enhance_query_with_brain_context (query q) (brain_context q))
  = Ok p →
  query_type q = lit "SELECT" →
  graph_query (working_triples s q) p = Ok sols →
  ∃ s' response,
    execute_sparql_query q s = (s', Ok response) ∧
    success response = true ∧
    results response = replicate (Z.to_nat (total_results response)) ∅ ∧
    (total_results response ≤ Z.of_nat (length sols))%Z ∧
    ((0 ≤ limit q)%Z →
     total_results response = Z.min (limit q) (Z.of_nat (length sols))).
Proof.
  intros Hmiss Hp Ht Hq. eexists _, _.
  split; [by apply (execute_miss s q p sols)|].
  split; [done|].
  cbn [results total_results success_response].
  rewrite result_rows_empty, Nat2Z.id. split; [apply apply_limit_replicate|].
  rewrite length_apply_limit, length_replicate.
  split; [destruct (0 <=? limit q)%Z eqn:Hn; lia|].
  intros Hn. by rewrite (proj2 (Z.leb_le 0 _) Hn).
Qed.

(** X8: no insight is ever produced: the rows handed to
    [generate_brain_insights] are empty, so none has a [concept], and
    every query that is evaluated without an error, with a context or
    without, whatever it binds, is answered with an empty
    [concept_insights] and [concepts_analyzed] 0. *)
Theorem no_insight_is_ever_produced s q (p : Prepared)
    (sols : list (gmap str Term)) :
  cache_miss s (query_key_prefix ++ cache_key q) →
  prepareQuery (enhance_query_with_brain_context (query q) (brain_context q))
  = Ok p →
  solutions_for q s p = Ok sols →
  ∃ s' response,
    execute_sparql_query q s = (s', Ok response) ∧
    success response = true ∧
    concept_insights response = Some [] ∧
    (concepts_analyzed <$> brain_memory_integration response) = Some 0%Z ∧
    (memory_contexts_used <$> brain_memory_integration response)
    = Some (match brain_context q with Some _ => 1%Z | None => 0%Z end).
Proof.
  intros Hmiss Hp Hsols. eexists _, _. split.
  { rewrite run_execute_miss by exact Hmiss. by rewrite Hp, Hsols. }
  split; [done|].
  assert (Hnone : collect_insights q (map (result_row (PV p)) sols) = []).
  { unfold collect_insights. destruct (brain_context q) as [bc|]; [|done].
    rewrite result_rows_empty. apply no_insight_in_empty_rows. }
  unfold response_for.
  cbn [concept_insights brain_memory_integration success_response fmap
       option_fmap option_map concepts_analyzed memory_contexts_used].
  rewrite Hnone. split; [done|]. split; [done|].
  by destruct (brain_context q).
Qed.

Lemma last_segment_fold (sep : N) (s acc : str) :
  sep ∉ s →
  fold_left (λ acc c, if c =? sep then [] else acc ++ [c]) s acc = acc ++ s.
Proof.
  revert acc. induction s as [|c s IH]; intros acc Hs; simpl.
  - by rewrite app_nil_r.
  - apply not_elem_of_cons in Hs as [Hc Hs].
    destruct (N.eqb_spec c sep) as [->|_]; [done|].
    rewrite IH by done. by rewrite <- app_assoc.
Qed.

Lemma last_segment_reset (sep : N) (s acc acc' : str) :
  sep ∈ s →
  fold_left (λ acc c, if c =? sep then [] else acc ++ [c]) s acc
  = fold_left (λ acc c, if c =? sep then [] else acc ++ [c]) s acc'.
Proof.
  revert acc acc'. induction s as [|c s IH]; intros acc acc' Hs; simpl.
  - by apply elem_of_nil in Hs.
  - destruct (N.eqb_spec c sep) as [->|Hne]; [done|].
    apply IH. apply elem_of_cons in Hs as [?|?]; [congruence|done].
Qed.

(** X9: the concept id of an insight is the part of the IRI behind its
    last [#], and the whole IRI when it has none. *)
Theorem last_segment_spec (a b : str) :
  35 ∉ b →
  last_segment 35 (a ++ 35 :: b) = b ∧ last_segment 35 b = b.
Proof.
  intros Hb. unfold last_segment. split.
  - rewrite fold_left_app. cbn [fold_left]. change (35 =? 35) with true.
    cbv iota. by rewrite last_segment_fold.
  - by rewrite last_segment_fold.
Qed.

End RowFacts.

(** ** Further properties: imports *)

Section ImportMoreFacts.
Context {L : Libraries}.
Implicit Types (s : State) (req : RDFImportRequest).

Lemma reasoning_cache_add_all (l : loc) (ts : list Triple) s :
  reasoning_cache (add_all l ts s) = reasoning_cache s.
Proof.
  revert s. induction ts as [|t ts IH]; intros s; [done|].
  rewrite add_all_cons, IH. reflexivity.
Qed.

Lemma wf_validated req s : wf (cleared req s) → wf (validated req s).
Proof.
  intros Hwf. unfold validated. destruct (validation req); [|done].
  by apply wf_add_all, wf_alloc.
Qed.

Lemma wf_merged req s : wf (cleared req s) → wf (merged req s).
Proof. intros Hwf. unfold merged. by apply wf_add_all, wf_validated. Qed.

Lemma wf_invalidated s : wf s → wf (invalidated s).
Proof.
  unfold invalidated. destruct (redis_client s) as [r|]; [|done].
  by destruct (reachable r).
Qed.

Lemma wf_imported req s :
  clear_graph req = true ∨ wf s → wf (import_rdf_data req s).1.
Proof.
  intros Hwf. apply wf_cleared in Hwf. rewrite run_import_rdf_data.
  destruct (parse_error req) as [e|].
  - destruct (validation req); cbn [fst];
      [by apply wf_validated|by apply wf_merged].
  - cbn [fst]. apply wf_invalidated.
    change (wf (merged req s)). by apply wf_merged.
Qed.

Lemma size_union_difference (P G : Graph) :
  size (P ∪ G) = (size G + size (P ∖ G))%nat.
Proof. rewrite (union_comm_L P G). apply size_union_alt. Qed.

(** X10: an import without [clear_graph] whose data parses adds the
    parsed triples to the graph; [triples_imported] is the number of
    distinct parsed triples the graph did not hold, so between 0 and the
    number of triples parsed, and [total_triples] is the size of the
    graph afterwards. *)
Theorem import_without_clear_merges req s :
  wf s → clear_graph req = false → parse_error req = None →
  ∃ s' res,
    import_rdf_data req s = (s', Ok res) ∧
    import_success res = true ∧
    base_graph s' = list_to_set (parsed req) ∪ base_graph s ∧
    triples_imported res
    = Z.of_nat (size (list_to_set (parsed req) ∖ base_graph s : Graph)) ∧
    (0 ≤ triples_imported res ≤ Z.of_nat (length (parsed req)))%Z ∧
    total_triples res = Some (Z.of_nat (size (base_graph s'))).
Proof.
  intros Hwf Hc He. eexists _, _. split.
  { rewrite run_import_rdf_data, He. reflexivity. }
  cbn zeta.
  assert (Hbase : base_graph (invalidated (set_reasoning_cache ∅ (merged req s)))
                  = list_to_set (parsed req) ∪ base_graph s).
  { rewrite base_graph_invalidated, base_graph_set_reasoning_cache.
    rewrite base_graph_merged by (apply wf_cleared; by right).
    by rewrite base_graph_cleared, Hc. }
  cbn [import_success triples_imported total_triples].
  split; [reflexivity|]. split; [exact Hbase|].
  rewrite Hbase, size_union_difference.
  assert (size (list_to_set (parsed req) ∖ base_graph s : Graph)
          ≤ length (parsed req))%nat.
  { etransitivity; [|apply size_list_to_set_le].
    apply subseteq_size, subseteq_difference_l. done. }
  repeat split; lia.
Qed.

(** X11: importing the same data a second time, with the same flags,
    adds nothing: the graph is the one the first import left and
    [triples_imported] is 0. *)
Theorem reimport_adds_nothing req s :
  wf s → parse_error req = None →
  let s1 := (import_rdf_data req s).1 in
  ∃ s2 res,
    import_rdf_data req s1 = (s2, Ok res) ∧
    import_success res = true ∧
    base_graph s2 = base_graph s1 ∧
    triples_imported res = 0%Z.
Proof.
  intros Hwf He s1.
  assert (Hwf1 : wf s1) by (apply wf_imported; by right).
  assert (H1 : base_graph s1
               = list_to_set (parsed req)
                 ∪ (if clear_graph req then baseline else base_graph s))
    by (apply base_graph_imported; [done|by right]).
  assert (H2 : base_graph (import_rdf_data req s1).1 = base_graph s1).
  { rewrite (base_graph_imported req s1) by (done || by right).
    rewrite H1. destruct (clear_graph req); [done|].
    by rewrite (assoc_L (∪)), (idemp_L (∪)). }
  rewrite import_parsed in H2 by done.
  eexists _, _. split.
  { rewrite run_import_rdf_data, He. reflexivity. }
  cbn zeta. cbn [import_success triples_imported].
  split; [reflexivity|]. split; [exact H2|].
  rewrite H2. lia.
Qed.

(** X12: without [clear_graph], an import with validation whose data
    does not parse changes nothing the service can observe: the graph
    holds the triples it held, the query cache and the reasoning cache
    are as before, and the response reports the parser's message with
    [triples_imported] 0. *)
Theorem failed_validation_changes_nothing req s (e : str) :
  wf s → clear_graph req = false → validation req = true →
  parse_error req = Some e →
  ∃ s',
    import_rdf_data req s = (s', Ok (import_failure e)) ∧
    graph s' = graph s ∧ base_graph s' = base_graph s ∧
    redis_client s' = redis_client s ∧
    reasoning_cache s' = reasoning_cache s.
Proof.
  intros Hwf Hc Hv He. exists (validated req s). split.
  { by rewrite run_import_rdf_data, He, Hv. }
  assert (Hcl : cleared req s = s) by (unfold cleared; by rewrite Hc).
  split; [by rewrite graph_validated, Hcl|].
  split.
  { rewrite base_graph_validated by (by rewrite Hcl). by rewrite Hcl. }
  split; [apply redis_validated|].
  unfold validated. rewrite Hv, Hcl. by rewrite reasoning_cache_add_all.
Qed.

(** X13: without validation, the data is parsed straight into the
    graph: when the parser fails, the triples it had handed over before
    the error stay in the graph though the response reports a failure
    with [triples_imported] 0, and the query cache is not cleared. *)
Theorem unvalidated_import_keeps_partial_parse req s (e : str) :
  wf s → clear_graph req = false → validation req = false →
  parse_error req = Some e →
  ∃ s',
    import_rdf_data req s = (s', Ok (import_failure e)) ∧
    base_graph s' = list_to_set (parsed req) ∪ base_graph s ∧
    redis_client s' = redis_client s.
Proof.
  intros Hwf Hc Hv He. exists (merged req s). split.
  { by rewrite run_import_rdf_data, He, Hv. }
  split.
  - rewrite base_graph_merged by (apply wf_cleared; by right).
    by rewrite base_graph_cleared, Hc.
  - apply redis_merged.
Qed.

End ImportMoreFacts.

(** ** Further properties: concept evolution *)

Section EvolveMoreFacts.
Context {L : Libraries}.
Implicit Types (s : State) (req : ConceptEvolutionRequest).

Lemma bind_ok {A B} (m : M A) (f : A → M B) s s' (b : B) :
  (m ≫= f) s = (s', Ok b) →
  ∃ s1 a, m s = (s1, Ok a) ∧ f a s1 = (s', Ok b).
Proof.
  unfold mbind, M_bind. destruct (m s) as [s1 [a|e]]; [|discriminate].
  intros H. by exists s1, a.
Qed.

Lemma length_map_m {A B} (f : A → M B) (l : list A) s s' (ys : list B) :
  map_m f l s = (s', Ok ys) → length ys = length l.
Proof.
  revert s s' ys. induction l as [|x l IH]; intros s s' ys; simpl.
  - unfold mret, M_ret. by intros [= _ <-].
  - intros (s1 & y & _ & H)%bind_ok.
    apply bind_ok in H as (s2 & ys' & H & Hret).
    unfold mret, M_ret in Hret. injection Hret as _ <-.
    simpl. f_equal. exact (IH _ _ _ H).
Qed.

Lemma map_m_raises {A B} (f : A → M B) (pre rest : list A) (x : A) :
  (∀ s, ∃ e, f x s = (s, Raise e)) →
  ∀ s, ∃ s' e, map_m f (pre ++ x :: rest) s = (s', Raise e).
Proof.
  intros Hx. induction pre as [|y pre IH]; intros s; simpl.
  - destruct (Hx s) as [e He]. exists s, e.
    unfold mbind, M_bind. by rewrite He.
  - unfold mbind at 1, M_bind at 1.
    destruct (f y s) as [s1 [b|e]]; [|by eexists _, _].
    destruct (IH s1) as (s2 & e & He). exists s2, e.
    unfold mbind, M_bind. by rewrite He.
Qed.

Lemma add_information_without_subject (concept_uri : Term)
    (info : gmap str Any) s :
  info !! lit "subject" = None →
  ∃ e, add_information concept_uri info s = (s, Raise e).
Proof.
  intros Hs. eexists. unfold add_information, getitem.
  unfold mbind at 1, M_bind at 1. rewrite Hs. reflexivity.
Qed.

(** The run of [evolve_concept] after its first two additions. *)
Lemma run_evolve_concept req s :
  ∃ (m : M EvolutionResult) (h : str → M EvolutionResult),
    keeps extends m ∧ (∀ e, keeps extends (h e)) ∧
    evolve_concept req s
    = try_except m h (add_all (graph s) (concept_triples req) s).
Proof.
  eexists _, _. split; [|split]; [| |unfold evolve_concept; reflexivity].
  - apply keeps_bind; [apply _| |].
    { apply keeps_map_m; [apply _..|]. intros info. apply keeps_add_information. }
    intros added.
    apply keeps_bind; [apply _| |].
    { destruct (current_properties req !! lit "activation_strength") as [[v|o]|];
        [apply keeps_raise; apply _|apply keeps_lift|apply keeps_ret; apply _]. }
    intros weak. apply keeps_ret. apply _.
  - intros e. apply keeps_ret. apply _.
Qed.

Lemma base_graph_add_all_base (ts : list Triple) s :
  base_graph (add_all (graph s) ts s) = list_to_set ts ∪ base_graph s.
Proof.
  unfold base_graph. rewrite graph_add_all, graph_at_add_all.
  by rewrite decide_True.
Qed.

(** X14: whatever happens to a call of [evolve_concept], the graph keeps
    the triples it had and holds the type and the label of the concept
    afterwards; the reference [self.graph] and the cache are as before.
    In particular a call that reports success:false has still changed
    the graph. *)
Theorem evolve_only_adds_triples req s :
  ∃ s' res,
    evolve_concept req s = (s', Ok res) ∧
    base_graph s ⊆ base_graph s' ∧
    (ns_term CONCEPT (concept_id req), RDF_type, ns_term OMNII "Concept")
    ∈ base_graph s' ∧
    (ns_term CONCEPT (concept_id req), RDFS_label,
     Literal (concept_name req) None None) ∈ base_graph s' ∧
    graph s' = graph s ∧ redis_client s' = redis_client s.
Proof.
  destruct (run_evolve_concept req s) as (m & h & Hm & Hh & Hrun).
  pose proof (keeps_try_except extends m h Hm Hh
                (add_all (graph s) (concept_triples req) s)) as Hk.
  rewrite <- Hrun in Hk.
  assert (Hret : ∃ s' res, evolve_concept req s = (s', Ok res))
    by apply try_except_returns.
  destruct Hret as (s' & res & Hret). exists s', res.
  rewrite Hret in Hk. cbn [fst] in Hk.
  destruct Hk as (Hg & Hc & _ & Hsub & _).
  rewrite base_graph_add_all_base in Hsub.
  rewrite graph_add_all in Hg. rewrite redis_add_all in Hc.
  split; [done|]. split; [set_solver|].
  unfold concept_triples in Hsub.
  split; [set_solver|]. split; [set_solver|]. done.
Qed.

(** X15: [evolve_concept] detects at most one change, so its
    [memory_consolidation_triggered], which asks for more than two, is
    never true.  [evolution_applied] is true exactly when the one change
    is reported, which needs an [activation_strength] that is missing or
    below 0.8; a failed call reports no change and an empty chain. *)
Theorem evolve_detects_at_most_one_change req s :
  ∃ s' res,
    evolve_concept req s = (s', Ok res) ∧
    (length (changes_detected res) ≤ 1)%nat ∧
    (evolution_applied res = true ↔ length (changes_detected res) = 1%nat) ∧
    (evolution_applied res = true →
       evolution_success res = true ∧
       length (reasoning_chain res) = S (length (new_information req)) ∧
       (current_properties req !! lit "activation_strength" = None ∨
        ∃ o, current_properties req !! lit "activation_strength"
             = Some (AObj o) ∧ py_lt_0_8 o = Ok true)) ∧
    (evolution_success res = true → evolution_applied res = false →
       length (reasoning_chain res) = length (new_information req) ∧
       ∃ o, current_properties req !! lit "activation_strength"
            = Some (AObj o) ∧ py_lt_0_8 o = Ok false) ∧
    (evolution_success res = false →
       evolution_applied res = false ∧ changes_detected res = [] ∧
       reasoning_chain res = [] ∧ is_Some (evolution_error res)).
Proof.
  unfold evolve_concept, try_except.
  match goal with
  | |- ∃ s' res, match ?body s with _ => _ end = _ ∧ _ =>
      destruct (body s) as [s1 [res|e]] eqn:Hbody
  end.
  2:{ eexists _, _. split; [reflexivity|]. cbn.
      repeat split; try done; try lia; by eexists. }
  exists s1, res. split; [reflexivity|].
  apply bind_ok in Hbody as (s2 & [] & _ & Hbody).
  apply bind_ok in Hbody as (s3 & [] & _ & Hbody).
  apply bind_ok in Hbody as (s4 & added & Hadded & Hbody).
  apply length_map_m in Hadded.
  apply bind_ok in Hbody as (s5 & weak & Hweak & Hbody).
  unfold mret, M_ret in Hbody. injection Hbody as _ <-.
  cbn [changes_detected evolution_applied evolution_success reasoning_chain
       evolution_error].
  assert (Hcase : if weak
                  then current_properties req !! lit "activation_strength" = None
                       ∨ ∃ o, current_properties req !! lit "activation_strength"
                              = Some (AObj o) ∧ py_lt_0_8 o = Ok true
                  else ∃ o, current_properties req !! lit "activation_strength"
                            = Some (AObj o) ∧ py_lt_0_8 o = Ok false).
  { destruct (current_properties req !! lit "activation_strength")
      as [[v|o]|] eqn:Hact.
    - discriminate Hweak.
    - unfold lift in Hweak. injection Hweak as _ Hlt.
      destruct weak; [right|]; by exists o.
    - unfold mret, M_ret in Hweak. injection Hweak as _ <-. by left. }
  destruct weak; cbn [length].
  - split; [lia|]. split; [done|]. split.
    + intros _. split; [done|]. split; [|exact Hcase].
      rewrite length_app. simpl. lia.
    + split; [intros _ Hf; discriminate Hf|intros Hf; discriminate Hf].
  - split; [lia|]. split; [split; [intros Hf; discriminate Hf|lia]|].
    split; [intros Hf; discriminate Hf|].
    split; [|intros Hf; discriminate Hf].
    intros _ _. split; [lia|exact Hcase].
Qed.

(** X16: an entry of [new_information] without a [subject] makes the
    call fail, wherever it stands in the list and whatever the other
    entries are: the response has success:false, no change and an empty
    chain, while the graph has the type and label of the concept and the
    triples of the entries before it that were added. *)
Theorem evolve_fails_on_entry_without_subject req s
    (pre rest : list (gmap str Any)) (info : gmap str Any) :
  new_information req = pre ++ info :: rest →
  info !! lit "subject" = None →
  ∃ s' res,
    evolve_concept req s = (s', Ok res) ∧
    evolution_success res = false ∧ evolution_applied res = false ∧
    changes_detected res = [] ∧ reasoning_chain res = [] ∧
    is_Some (evolution_error res) ∧
    list_to_set (concept_triples req) ∪ base_graph s ⊆ base_graph s'.
Proof.
  intros Hinfo Hsub.
  assert (Hframe : ∀ s' res, evolve_concept req s = (s', Ok res) →
            list_to_set (concept_triples req) ∪ base_graph s ⊆ base_graph s').
  { intros s' res Hrun.
    destruct (run_evolve_concept req s) as (m & h & Hm & Hh & Heq).
    pose proof (keeps_try_except extends m h Hm Hh
                  (add_all (graph s) (concept_triples req) s)) as Hk.
    rewrite <- Heq, Hrun in Hk. cbn [fst] in Hk.
    destruct Hk as (_ & _ & _ & Hk & _).
    by rewrite base_graph_add_all_base in Hk. }
  destruct (map_m_raises (add_information (ns_term CONCEPT (concept_id req)))
              pre rest info
              (λ s0, add_information_without_subject _ info s0 Hsub)
              (add_all (graph s) (concept_triples req) s))
    as (s3 & e & Hraise).
  assert (Hrun : evolve_concept req s
                 = (s3, Ok {| evolution_success := false;
                              evolution_concept_id := concept_id req;
                              evolution_applied := false;
                              changes_detected := [];
                              reasoning_chain := [];
                              evolution_error := Some e |})).
  { unfold evolve_concept, try_except.
    unfold mbind at 1, M_bind at 1.
    change (base_add (ns_term CONCEPT (concept_id req), RDF_type,
                      ns_term OMNII "Concept") s)
      with (add_all (graph s)
              [(ns_term CONCEPT (concept_id req), RDF_type,
                ns_term OMNII "Concept")] s, Ok tt).
    unfold mbind at 1, M_bind at 1.
    match goal with
    | |- context [base_add ?t ?s0] =>
        change (base_add t s0)
          with (add_all (graph s) (concept_triples req) s, Ok tt)
    end.
    unfold mbind at 1, M_bind at 1. rewrite Hinfo, Hraise. reflexivity. }
  eexists _, _. split; [exact Hrun|]. cbn.
  repeat split; try done. by eapply Hframe.
Qed.

Lemma run_add_plain_item (concept_uri : Term) (info : gmap str Any)
    (item : str * str * str) s :
  plain_item info item →
  ∃ line,
    add_information concept_uri info s
    = (add_all (graph s) [item_triple concept_uri item] s, Ok line).
Proof.
  intros (Hs & Hp & Ho & Hc). eexists.
  unfold add_information, getitem.
  unfold mbind at 1, M_bind at 1. rewrite Hs.
  unfold mbind at 1, M_bind at 1.
  unfold mbind at 1, M_bind at 1. rewrite Hp.
  unfold mbind at 1, M_bind at 1.
  unfold mbind at 1, M_bind at 1. rewrite Ho.
  rewrite Hc. reflexivity.
Qed.

Lemma run_map_plain_items (concept_uri : Term) (infos : list (gmap str Any))
    (items : list (str * str * str)) s :
  Forall2 plain_item infos items →
  ∃ lines,
    map_m (add_information concept_uri) infos s
    = (add_all (graph s) (map (item_triple concept_uri) items) s, Ok lines).
Proof.
  intros Hall. revert s.
  induction Hall as [|info item infos items Hitem _ IH]; intros s.
  - by exists [].
  - destruct (run_add_plain_item concept_uri info item s Hitem) as [line Hline].
    destruct (IH (add_all (graph s) [item_triple concept_uri item] s))
      as [lines Hlines].
    exists (line :: lines). cbn [map_m].
    unfold mbind at 1, M_bind at 1. rewrite Hline.
    unfold mbind at 1, M_bind at 1. rewrite Hlines.
    rewrite graph_add_all. reflexivity.
Qed.

(** X17: when every entry of [new_information] gives subject, predicate
    and object as strings, without a confidence, and no
    [activation_strength] is known, the call succeeds and the graph
    gains the type and label of the concept and one triple per entry:
    the object as a plain literal, and as subject the given IRI only if
    it starts with [http], otherwise the concept itself. *)
Theorem evolve_adds_one_triple_per_entry req s
    (items : list (str * str * str)) :
  Forall2 plain_item (new_information req) items →
  current_properties req !! lit "activation_strength" = None →
  ∃ s' res,
    evolve_concept req s = (s', Ok res) ∧
    evolution_success res = true ∧ evolution_applied res = true ∧
    length (reasoning_chain res) = S (length items) ∧
    base_graph s'
    = list_to_set (map (item_triple (ns_term CONCEPT (concept_id req))) items)
      ∪ (list_to_set (concept_triples req) ∪ base_graph s).
Proof.
  intros Hitems Hact.
  set (s2 := add_all (graph s) (concept_triples req) s).
  destruct (run_map_plain_items (ns_term CONCEPT (concept_id req))
              (new_information req) items s2 Hitems) as [lines Hlines].
  pose proof (length_map_m _ _ _ _ _ Hlines) as Hlen.
  eexists _, _. split.
  { unfold evolve_concept, try_except.
    unfold mbind at 1, M_bind at 1.
    change (base_add (ns_term CONCEPT (concept_id req), RDF_type,
                      ns_term OMNII "Concept") s)
      with (add_all (graph s)
              [(ns_term CONCEPT (concept_id req), RDF_type,
                ns_term OMNII "Concept")] s, Ok tt).
    unfold mbind at 1, M_bind at 1.
    match goal with
    | |- context [base_add ?t ?s0] =>
        change (base_add t s0) with (s2, Ok tt)
    end.
    unfold mbind at 1, M_bind at 1. rewrite Hlines.
    unfold mbind at 1, M_bind at 1. rewrite Hact.
    reflexivity. }
  cbn [evolution_success evolution_applied reasoning_chain changes_detected
       length bool_decide decide_rel].
  split; [done|]. split; [done|]. split.
  { rewrite length_app, Hlen. rewrite (Forall2_length _ _ _ Hitems).
    simpl. lia. }
  rewrite base_graph_add_all_base.
  subst s2. by rewrite base_graph_add_all_base.
Qed.

End EvolveMoreFacts.

(** ** Further properties: the format of the digest *)

Module MD5Facts.

Lemma le_bytes_length (k : nat) (x : N) : length (MD5.le_bytes k x) = k.
Proof. revert x. induction k as [|k IH]; intros x; simpl; [done|]. by rewrite IH. Qed.

Lemma le_bytes_bound (k : nat) (x : N) :
  Forall (λ b, b < 256) (MD5.le_bytes k x).
Proof.
  revert x. induction k as [|k IH]; intros x; simpl; constructor.
  - by apply N.mod_lt.
  - apply IH.
Qed.

Lemma hexdigit_hex_char (n : N) : n < 16 → hex_char (PyJson.hexdigit n).
Proof.
  intros Hn. unfold PyJson.hexdigit, hex_char.
  destruct (N.ltb_spec n 10); lia.
Qed.

Lemma hex_byte_hex_chars (b : N) : b < 256 → Forall hex_char (MD5.hex_byte b).
Proof.
  intros Hb. unfold MD5.hex_byte.
  constructor; [|constructor; [|constructor]].
  - apply hexdigit_hex_char. by apply N.Div0.div_lt_upper_bound.
  - apply hexdigit_hex_char. by apply N.mod_lt.
Qed.

Lemma hex_bytes_hex_chars (bytes : list N) :
  Forall (λ b, b < 256) bytes → Forall hex_char (flat_map MD5.hex_byte bytes).
Proof.
  induction 1 as [|b bytes Hb _ IH]; [constructor|].
  cbn [flat_map]. apply Forall_app. split; [|exact IH].
  by apply hex_byte_hex_chars.
Qed.

Lemma length_hex_bytes (bytes : list N) :
  length (flat_map MD5.hex_byte bytes) = (2 * length bytes)%nat.
Proof. induction bytes as [|b bytes IH]; simpl; [done|]. rewrite IH. lia. Qed.

Lemma hexdigest_format (r : MD5.regs) :
  length (MD5.hexdigest r) = 32%nat ∧ Forall hex_char (MD5.hexdigest r).
Proof.
  unfold MD5.hexdigest. split.
  - rewrite length_hex_bytes, !length_app, !le_bytes_length. reflexivity.
  - apply hex_bytes_hex_chars.
    repeat (apply Forall_app; split); apply le_bytes_bound.
Qed.

End MD5Facts.

(** X18: the computed digest of any request is a string of 32 lower-case
    hexadecimal digits; so is the cache key of a request that brings no
    digest of its own. *)
Theorem query_hash_is_32_hex_digits (q : QueryRequest) :
  length (generate_query_hash q) = 32%nat ∧
  Forall hex_char (generate_query_hash q) ∧
  (query_hash q = None → cache_key q = generate_query_hash q).
Proof.
  unfold generate_query_hash, MD5.md5_hex.
  destruct (MD5Facts.hexdigest_format
              (MD5.digest (PyBytes.encode (PyJson.dumps (hash_input q)))))
    as [Hlen Hhex].
  split; [exact Hlen|]. split; [exact Hhex|].
  intros Hq. unfold cache_key. by rewrite Hq.
Qed.

(** ** Further properties: the introspection endpoints *)

Section IntrospectionFacts.
Implicit Types (s : State).

Lemma run_redis_dbsize s :
  redis_dbsize s
  = match reachable_cache s with
    | Some r => (s, Ok (Z.of_nat (size (entries r))))
    | None =>
        (s, Raise (match redis_client s with
                   | Some _ => lit "Error connecting to Redis"
                   | None => lit "'NoneType' object has no attribute"
                   end))
    end.
Proof.
  unfold redis_dbsize, redis_command, reachable_cache.
  destruct (redis_client s) as [r|] eqn:Hr; [|done].
  destruct (reachable r); [|done]. by rewrite set_redis_same.
Qed.

Lemma run_health_cache_size s :
  health_cache_size s
  = (s, Ok (match reachable_cache s with
            | Some r => Z.of_nat (size (entries r))
            | None => 0%Z
            end)).
Proof.
  unfold health_cache_size. unfold mbind at 1, M_bind at 1.
  rewrite run_has_redis.
  destruct (redis_client s) as [r|] eqn:Hr.
  - rewrite bool_decide_eq_true_2 by (by eexists).
    unfold try_except. rewrite run_redis_dbsize.
    by destruct (reachable_cache s).
  - rewrite bool_decide_eq_false_2 by (by intros [? ?]).
    unfold reachable_cache. by rewrite Hr.
Qed.

Lemma run_metrics_cache_stats s :
  metrics_cache_stats s
  = (s, Ok (match reachable_cache s with
            | Some r => (true, Z.of_nat (size (entries r)))
            | None => (false, 0%Z)
            end)).
Proof.
  unfold metrics_cache_stats. unfold mbind at 1, M_bind at 1.
  rewrite run_has_redis.
  destruct (redis_client s) as [r|] eqn:Hr.
  - rewrite bool_decide_eq_true_2 by (by eexists).
    unfold try_except. unfold mbind at 1, M_bind at 1.
    rewrite run_redis_dbsize. by destruct (reachable_cache s).
  - rewrite bool_decide_eq_false_2 by (by intros [? ?]).
    unfold reachable_cache. by rewrite Hr.
Qed.

Lemma class_is_no_property (t : Triple) :
  declares_class t → declares_property t → False.
Proof.
  intros [_ Hc] [_ [Hp|Hp]]; rewrite Hc in Hp; revert Hp;
    apply (bool_decide_unpack _); vm_compute; exact I.
Qed.

Lemma size_classes_and_properties (g : Graph) :
  (size (filter declares_class g) + size (filter declares_property g)
   ≤ size g)%nat.
Proof.
  rewrite <- size_union.
  - apply subseteq_size. intros t [Ht|Ht]%elem_of_union;
      by apply elem_of_filter in Ht as [_ Ht].
  - intros t [Hc _]%elem_of_filter [Hp _]%elem_of_filter.
    by apply (class_is_no_property t).
Qed.

Lemma size_filter_list_to_set (P : Triple → Prop) `{!∀ t, Decision (P t)}
    (ts : list Triple) :
  NoDup ts →
  size (filter P (list_to_set ts : Graph)) = length (filter P ts).
Proof.
  intros Hnd.
  assert (Heq : filter P (list_to_set ts : Graph) = list_to_set (filter P ts)).
  { apply set_eq. intros t.
    rewrite elem_of_filter, !elem_of_list_to_set, list_elem_of_filter.
    done. }
  rewrite Heq. apply size_list_to_set. by apply NoDup_filter.
Qed.

Lemma run_get_metrics s :
  ∃ m,
    get_metrics s = (s, Ok m) ∧
    metrics_graph_size m = Z.of_nat (size (base_graph s)) ∧
    metrics_cache_connected m = bool_decide (is_Some (reachable_cache s)) ∧
    metrics_cache_key_count m
    = from_option (λ r, Z.of_nat (size (entries r))) 0%Z (reachable_cache s) ∧
    metrics_namespaces m = namespace_prefixes ∧
    metrics_ontology_classes m
    = Z.of_nat (size (filter declares_class (base_graph s))) ∧
    metrics_ontology_properties m
    = Z.of_nat (size (filter declares_property (base_graph s))).
Proof.
  eexists. split.
  { unfold get_metrics. unfold mbind at 1, M_bind at 1.
    rewrite run_metrics_cache_stats. reflexivity. }
  cbn [metrics_graph_size metrics_cache_key_count metrics_cache_connected
       metrics_ontology_classes metrics_ontology_properties metrics_namespaces].
  repeat split; by destruct (reachable_cache s).
Qed.

Lemma run_health_check s :
  ∃ h,
    health_check s = (s, Ok h) ∧
    health_graph_size h = Z.of_nat (size (base_graph s)) ∧
    health_cache_size_value h
    = from_option (λ r, Z.of_nat (size (entries r))) 0%Z (reachable_cache s).
Proof.
  eexists. split.
  { unfold health_check. unfold mbind at 1, M_bind at 1.
    rewrite run_health_cache_size. reflexivity. }
  cbn [health_graph_size health_cache_size_value].
  split; [reflexivity|]. by destruct (reachable_cache s).
Qed.

(** X19: the health and metrics endpoints read the service without
    changing it and never fail.  Both report the size of the graph; the
    key count is that of the whole cache server, 0 when there is no
    client or the server cannot be reached, and only the metrics tell
    the two apart; the classes and properties counted are distinct
    triples of the graph. *)
Theorem introspection_is_read_only s :
  ∃ h m,
    health_check s = (s, Ok h) ∧ get_metrics s = (s, Ok m) ∧
    health_graph_size h = Z.of_nat (size (base_graph s)) ∧
    metrics_graph_size m = Z.of_nat (size (base_graph s)) ∧
    health_cache_size_value h = metrics_cache_key_count m ∧
    match reachable_cache s with
    | Some r => metrics_cache_connected m = true ∧
                metrics_cache_key_count m = Z.of_nat (size (entries r))
    | None => metrics_cache_connected m = false ∧
              metrics_cache_key_count m = 0%Z
    end ∧
    (metrics_ontology_classes m + metrics_ontology_properties m
     ≤ metrics_graph_size m)%Z.
Proof.
  destruct (run_health_check s) as (h & Hh & Hhg & Hhc).
  destruct (run_get_metrics s) as (m & Hm & Hg & Hconn & Hkeys & _ & Hcl & Hpr).
  exists h, m. split; [exact Hh|]. split; [exact Hm|].
  split; [exact Hhg|]. split; [exact Hg|].
  split; [by rewrite Hhc, Hkeys|].
  split.
  - rewrite Hconn, Hkeys. by destruct (reachable_cache s).
  - rewrite Hcl, Hpr, Hg.
    pose proof (size_classes_and_properties (base_graph s)). lia.
Qed.

Lemma NoDup_ontology_triples : NoDup ontology_triples.
Proof. apply (bool_decide_unpack _). vm_compute. exact I. Qed.

Lemma length_ontology_classes :
  length (filter declares_class ontology_triples) = 6%nat.
Proof. vm_compute. reflexivity. Qed.

Lemma length_ontology_properties :
  length (filter declares_property ontology_triples) = 11%nat.
Proof. vm_compute. reflexivity. Qed.

(** X20: a service that has just started reports the 17 triples of the
    ontology, as 6 classes and 11 properties, under 8 namespace
    prefixes. *)
Theorem fresh_service_metrics (server : Redis) :
  ∃ m,
    get_metrics (init server) = (init server, Ok m) ∧
    metrics_graph_size m = 17%Z ∧
    metrics_ontology_classes m = 6%Z ∧
    metrics_ontology_properties m = 11%Z ∧
    length (metrics_namespaces m) = 8%nat.
Proof.
  generalize (base_graph_init server).
  generalize (run_get_metrics (init server)).
  generalize (init server). intros s (m & Hm & Hg & _ & _ & Hns & Hcl & Hpr) Hb.
  exists m. split; [exact Hm|].
  rewrite Hb in Hg, Hcl, Hpr. unfold baseline in Hcl, Hpr.
  rewrite size_filter_list_to_set in Hcl, Hpr by exact NoDup_ontology_triples.
  rewrite size_baseline in Hg.
  rewrite length_ontology_classes in Hcl.
  rewrite length_ontology_properties in Hpr.
  rewrite Hns. by repeat split.
Qed.

End IntrospectionFacts.

(** ** Further properties: brain memory analysis *)

Ltac split_binds :=
  repeat match goal with
         | |- context [decide ?P] =>
             let H := fresh "Hmany" in
             destruct (decide P) as [H|H]; cbn [result_bind]
         | |- context [PyDict.slice ?v ?n] =>
             let H := fresh "Hslice" in
             destruct (PyDict.slice v n) eqn:H; cbn [result_bind]
         | |- context [result_bind ?r _] =>
             let H := fresh "Hstep" in
             destruct r eqn:H; cbn [result_bind]
         | |- context [if ?b then _ else _] =>
             let H := fresh "Hcase" in
             destruct b eqn:H; cbn [result_bind]
         end.

Section AnalysisFacts.
Variable py_gt : PyVal → PyVal → Result bool.
Implicit Types (ctx wm ts : list (str * PyVal)).

Lemma failed_analysis_is_empty ctx :
  analysis_success (analyze_brain_memory py_gt ctx) = false →
  temporal_patterns (analyze_brain_memory py_gt ctx) = [] ∧
  consolidation_recommendations (analyze_brain_memory py_gt ctx) = [].
Proof.
  unfold analyze_brain_memory, analyze_body.
  split_binds;
    cbn [temporal_patterns consolidation_recommendations analysis_success];
    by intros.
Qed.

(** X21: whatever the request holds, the analysis returns at most one
    temporal pattern and at most one recommendation, and never a
    semantic connection; on success a recommendation is made exactly
    when more than five concepts are active, and a failed analysis
    returns empty lists beside the error. *)
Theorem analysis_result_shape ctx :
  let a := analyze_brain_memory py_gt ctx in
  semantic_connections a = [] ∧
  (length (temporal_patterns a) ≤ 1)%nat ∧
  (length (consolidation_recommendations a) ≤ 1)%nat ∧
  (analysis_success a = true →
     analysis_error a = None ∧
     (consolidation_recommendations a ≠ []
      ↔ (5 < length (analysis_concept_insights a))%nat)) ∧
  (analysis_success a = false →
     analysis_concept_insights a = [] ∧ temporal_patterns a = [] ∧
     consolidation_recommendations a = [] ∧ is_Some (analysis_error a)).
Proof.
  unfold analyze_brain_memory, analyze_body.
  split_binds;
    cbn [semantic_connections temporal_patterns consolidation_recommendations
         analysis_success analysis_error analysis_concept_insights length];
    repeat split; try done; try lia; try (by eexists); try (intros _; lia).
Qed.

(** X22: with a working memory and ordered week counts, the analysis
    reads [active_concepts] by iteration: a list gives one insight per
    element, in order; a string gives one per character; a dict gives
    one per key, but fails as a whole once it has more than five keys,
    since it cannot be sliced; a number fails.  A recommendation names
    the first five concepts, and the temporal pattern is reported
    exactly when the current week's count is the greater. *)
Theorem analysis_reads_active_concepts ctx wm ts (ac : PyVal) (b : bool) :
  PyDict.lookup ctx (lit "working_memory") = Some (PDict wm) →
  PyDict.lookup wm (lit "active_concepts") = Some ac →
  from_option id (PDict []) (PyDict.lookup wm (lit "time_window_stats"))
  = PDict ts →
  py_gt (from_option id (PInt 0) (PyDict.lookup ts (lit "current_week_count")))
        (from_option id (PInt 0) (PyDict.lookup ts (lit "previous_week_count")))
  = Ok b →
  let a := analyze_brain_memory py_gt ctx in
  match ac with
  | PList cs =>
      analysis_success a = true ∧
      map analysed_concept_id (analysis_concept_insights a) = cs ∧
      map concepts_involved (consolidation_recommendations a)
      = if decide (5 < length cs)%nat then [PList (firstn 5 cs)] else []
  | PStr text =>
      analysis_success a = true ∧
      map analysed_concept_id (analysis_concept_insights a)
      = map (λ c, PStr [c]) text ∧
      map concepts_involved (consolidation_recommendations a)
      = if decide (5 < length text)%nat then [PStr (firstn 5 text)] else []
  | PDict items =>
      if decide (5 < length items)%nat then analysis_success a = false
      else analysis_success a = true ∧
           map analysed_concept_id (analysis_concept_insights a)
           = map (λ kv, PStr kv.1) items ∧
           consolidation_recommendations a = []
  | _ => analysis_success a = false
  end ∧
  (analysis_success a = true →
     map temporal_distribution (temporal_patterns a)
     = if b then [PDict ts] else []).
Proof.
  intros Hwm Hac Hts Hgt. unfold analyze_brain_memory, analyze_body.
  rewrite Hwm. cbn [from_option id PyDict.get result_bind].
  rewrite Hac, Hts. cbn [from_option id PyDict.get result_bind].
  destruct ac as [| | | |text|cs|items];
    cbn [PyDict.iterate result_bind]; try (split; [reflexivity|discriminate]).
  - rewrite Hgt. cbn [result_bind]. rewrite !length_map.
    destruct (decide (5 < length text)%nat);
      cbn [PyDict.slice result_bind analysis_success analysis_concept_insights
           consolidation_recommendations temporal_patterns map];
      rewrite map_map; cbn [analysed_concept_id]; rewrite map_id;
      (split; [done|]); intros _; by destruct b.
  - rewrite Hgt. cbn [result_bind]. rewrite !length_map.
    destruct (decide (5 < length cs)%nat);
      cbn [PyDict.slice result_bind analysis_success analysis_concept_insights
           consolidation_recommendations temporal_patterns map];
      rewrite map_map; cbn [analysed_concept_id]; rewrite map_id;
      (split; [done|]); intros _; by destruct b.
  - rewrite Hgt. cbn [result_bind]. rewrite !length_map.
    destruct (decide (5 < length items)%nat);
      cbn [PyDict.slice result_bind analysis_success analysis_concept_insights
           consolidation_recommendations temporal_patterns map].
    + split; [reflexivity|discriminate].
    + rewrite map_map; cbn [analysed_concept_id]. rewrite map_id.
      split; [done|]. intros _. by destruct b.
Qed.

End AnalysisFacts.

(** ** Further properties: the analysis endpoint *)

Section AnalyzeRdfFacts.
Variable py_gt : PyVal → PyVal → Result bool.
Variable float_truthy : str → bool.
Variable coerce_dict : PyVal → Result (list (str * PyVal)).
Implicit Types (data rd full npi : list (str * PyVal)).

Lemma run_node_concepts npi (cs : list PyVal) :
  from_option id (PList []) (PyDict.lookup npi (lit "concepts")) = PList cs →
  node_concepts float_truthy (PDict npi)
  = Ok (if decide (npi = []) then [] else cs).
Proof.
  intros Hcs. unfold node_concepts. cbn [py_truthy].
  destruct (decide (npi = [])) as [->|Hne].
  - by rewrite bool_decide_eq_true_2.
  - rewrite bool_decide_eq_false_2 by done.
    cbn [negb PyDict.get result_bind]. by rewrite Hcs.
Qed.

(** X23: the endpoint wraps the brain memory analysis and answers
    success:true whenever the request has the expected shape, also when
    the analysis inside has failed; its summary then counts no pattern
    and no recommendation.  [concepts_analyzed] counts the concepts of
    [nodeProcessing], not the active concepts the analysis looked at,
    and is 0 for an empty [nodeProcessing]. *)
Theorem analyze_rdf_succeeds_around_the_analysis data rd full npi
    (cs : list PyVal) :
  from_option id (PDict data) (PyDict.lookup data (lit "rdfData")) = PDict rd →
  dict_or_absent rd (lit "brain_memory_context") →
  dict_or_absent rd (lit "rdf_analysis_request") →
  dict_or_absent rd (lit "expected_outputs") →
  from_option id (PDict []) (PyDict.lookup rd (lit "full_brain_context"))
  = PDict full →
  from_option id (PDict []) (PyDict.lookup data (lit "nodeProcessing"))
  = PDict npi →
  from_option id (PList []) (PyDict.lookup npi (lit "concepts")) = PList cs →
  let r := analyze_rdf py_gt float_truthy coerce_dict data in
  let brain := analyze_brain_memory py_gt full in
  rdf_success r = true ∧ rdf_brain_analysis r = Some brain ∧
  rdf_concepts_analyzed r
  = (if decide (npi = []) then 0 else Z.of_nat (length cs))%Z ∧
  rdf_patterns_found r = Z.of_nat (length (temporal_patterns brain)) ∧
  rdf_recommendations r
  = Z.of_nat (length (consolidation_recommendations brain)) ∧
  (analysis_success brain = false →
     rdf_patterns_found r = 0%Z ∧ rdf_recommendations r = 0%Z).
Proof.
  intros Hrd [i1 H1] [i2 H2] [i3 H3] Hfull Hnp Hcs r brain. subst r brain.
  unfold analyze_rdf, analyze_rdf_body.
  rewrite Hrd, Hnp. cbn [PyDict.get result_bind].
  rewrite H1, H2, H3, Hfull. cbn [dict_field result_bind].
  rewrite (run_node_concepts npi cs Hcs). cbn [result_bind].
  cbn [rdf_success rdf_brain_analysis rdf_concepts_analyzed rdf_patterns_found
       rdf_recommendations].
  split; [done|]. split; [done|].
  split; [by destruct (decide (npi = []))|].
  split; [done|]. split; [done|].
  intros Hfail.
  destruct (failed_analysis_is_empty py_gt full Hfail) as [-> ->]. done.
Qed.

(** X24: a request whose [rdfData] is not an object, or whose
    [nodeProcessing] is a non-empty list or string, a non-zero number
    or [true], is answered with success:false and an empty analysis. *)
Theorem analyze_rdf_rejects_other_shapes data (v : PyVal) :
  (∀ items, v ≠ PDict items) →
  PyDict.lookup data (lit "rdfData") = Some v ∨
  (PyDict.lookup data (lit "nodeProcessing") = Some v ∧
   py_truthy float_truthy v = true) →
  let r := analyze_rdf py_gt float_truthy coerce_dict data in
  rdf_success r = false ∧ rdf_brain_analysis r = None ∧
  rdf_concepts_analyzed r = 0%Z ∧ is_Some (rdf_error r).
Proof.
  intros Hv Hcase r. subst r.
  assert (Hget : ∀ k d, ∃ e, PyDict.get v k d = Raise e).
  { intros k d. destruct v; try (by eexists). by destruct (Hv items). }
  unfold analyze_rdf, analyze_rdf_body.
  destruct Hcase as [Hrd|[Hnp Ht]].
  - rewrite Hrd. cbn [from_option id].
    destruct (Hget (lit "brain_memory_context") (PDict [])) as [e ->].
    cbn [result_bind rdf_success rdf_brain_analysis rdf_concepts_analyzed
         rdf_error].
    repeat split. by eexists.
  - rewrite Hnp. cbn [from_option id].
    assert (Hnode : ∃ e, node_concepts float_truthy v = Raise e).
    { unfold node_concepts. rewrite Ht.
      destruct (Hget (lit "concepts") (PList [])) as [e ->]. by exists e. }
    destruct Hnode as [e Hnode]. rewrite Hnode.
    split_binds;
      cbn [rdf_success rdf_brain_analysis rdf_concepts_analyzed rdf_error];
      repeat split; by eexists.
Qed.

End AnalyzeRdfFacts.

(** ** Further properties: a service without a cache *)

Section StartupFacts.
Context {L : Libraries}.
Implicit Types (s : State) (q : QueryRequest).

Lemma stored_without_client (key : str) (ttl : Z) (response : QueryResponse) s :
  redis_client s = None → stored key ttl response s = s.
Proof. intros Hr. unfold stored. by rewrite Hr. Qed.

Lemma redis_imported (req : RDFImportRequest) s :
  redis_client s = None → redis_client (import_rdf_data req s).1 = None.
Proof.
  intros Hr. rewrite run_import_rdf_data.
  destruct (parse_error req) as [e|].
  - destruct (validation req); cbn [fst];
      [by rewrite redis_validated|by rewrite redis_merged].
  - cbn [fst]. unfold invalidated.
    rewrite redis_set_reasoning_cache, redis_merged, Hr.
    by rewrite redis_set_reasoning_cache, redis_merged.
Qed.

(** X25: the connection to the cache is made once, when the service
    starts: a service that has no client, as after a start while the
    server could not be reached, has none after any query, evolution or
    import, and answers every query that parses by evaluating it on the
    graph as it is. *)
Theorem cache_client_is_never_reconnected s :
  redis_client s = None →
  (∀ q, redis_client (execute_sparql_query q s).1 = None) ∧
  (∀ req, redis_client (evolve_concept req s).1 = None) ∧
  (∀ req, redis_client (import_rdf_data req s).1 = None) ∧
  (∀ q (p : Prepared) (sols : list (gmap str Term)),
     prepareQuery (enhance_query_with_brain_context (query q) (brain_context q))
     = Ok p →
     solutions_for q s p = Ok sols →
     execute_sparql_query q s
     = (working_state q s, Ok (response_for q (cache_key q) p sols))).
Proof.
  intros Hr.
  assert (Hmiss : ∀ key, cache_miss s key).
  { intros key r Hr'. rewrite Hr in Hr'. discriminate Hr'. }
  split; [|split; [|split]].
  - intros q. destruct (execute_state s q) as [->|[->|[response ->]]].
    + exact Hr.
    + by rewrite redis_working_state.
    + rewrite stored_without_client; by rewrite redis_working_state.
  - intros req. destruct (keeps_evolve_concept req s) as (_ & Hc & _).
    by rewrite Hc.
  - intros req. by apply redis_imported.
  - intros q p sols Hp Hsols.
    rewrite run_execute_miss by apply Hmiss. rewrite Hp, Hsols.
    rewrite stored_without_client; [done|]. by rewrite redis_working_state.
Qed.

End StartupFacts.

(** ** The further properties on sample requests *)

Section SampleFacts.
Import Fixture.

Lemma select_all_solutions_for (n : Z) :
  solutions_for (L := libraries) (select_all n) (init cache_server)
                (query (select_all n))
  = Ok (solutions_of baseline).
Proof.
  unfold solutions_for. rewrite decide_True by reflexivity.
  apply Scenario.select_all_solutions.
Qed.

Lemma redis_fresh : redis_client (init cache_server) = Some cache_server.
Proof. by rewrite redis_init. Qed.

Lemma concept_request_prepared :
  @prepareQuery Sample.concept_libraries
    (enhance_query_with_brain_context (query Sample.concept_request)
                                      (brain_context Sample.concept_request))
  = Ok (enhance_query_with_brain_context (query Sample.concept_request)
                                         (brain_context Sample.concept_request)).
Proof. vm_compute. reflexivity. Qed.

Lemma concept_request_solutions :
  solutions_for (L := Sample.concept_libraries) Sample.concept_request
    (init cache_server)
    (enhance_query_with_brain_context (query Sample.concept_request)
                                      (brain_context Sample.concept_request))
  = Ok (map (λ t : Triple, {[ lit "concept" := t.1.1 ]})
            (elements (base_graph (init cache_server)))).
Proof.
  unfold solutions_for. rewrite decide_True by reflexivity. reflexivity.
Qed.

Lemma concept_request_graph_query :
  @graph_query Sample.concept_libraries
    (working_triples (L := Sample.concept_libraries) (init cache_server)
                     Sample.concept_request)
    (enhance_query_with_brain_context (query Sample.concept_request)
                                      (brain_context Sample.concept_request))
  = Ok (map (λ t : Triple, {[ lit "concept" := t.1.1 ]})
            (elements (base_graph (init cache_server)))).
Proof. unfold working_triples. cbn [reasoning Sample.concept_request]. reflexivity. Qed.

Lemma length_elements_base_graph_init :
  length (elements (base_graph (init cache_server))) = 17%nat.
Proof.
  rewrite base_graph_init. change (size baseline = 17%nat). apply size_baseline.
Qed.

End SampleFacts.

Lemma queries_leave_the_base_graph_witness :
  wf (init Fixture.cache_server) ∧
  base_graph
    (execute_sparql_query (L := Fixture.libraries) Sample.select_reasoned
                          (init Fixture.cache_server)).1
  = base_graph (init Fixture.cache_server).
Proof.
  split; [apply wf_init|].
  exact (proj1 (queries_leave_the_base_graph (L := Fixture.libraries)
                  (init Fixture.cache_server) Sample.select_reasoned
                  (wf_init Fixture.cache_server))).
Defined.

Lemma failed_query_response_witness :
  ∃ s' response,
    execute_sparql_query (L := Fixture.libraries) Sample.unparsable
                         (init Fixture.cache_server)
    = (s', Ok response) ∧
    success response = false ∧ total_results response = 0%Z ∧
    is_Some (error response) ∧ s' = init Fixture.cache_server.
Proof.
  destruct (failed_query_response (L := Fixture.libraries)
              (init Fixture.cache_server) Sample.unparsable
              (lit "Expected {SelectQuery | ConstructQuery | DescribeQuery | AskQuery}")
              (Scenario.fresh_cache_miss _) (or_introl eq_refl))
    as (s' & response & Hrun & Hs & _ & Ht & _ & He & _ & _ & Hstate).
  exists s', response. split; [exact Hrun|]. split; [exact Hs|].
  split; [exact Ht|]. split; [by rewrite He|]. by apply Hstate.
Defined.

Lemma answered_query_is_cached_witness :
  ∃ s' response,
    execute_sparql_query (L := Fixture.libraries) (Fixture.select_all 5)
                         (init Fixture.cache_server)
    = (s', Ok response) ∧
    success response = true ∧
    redis_client s'
    = Some {| entries :=
                <[query_key_prefix ++ cache_key (Fixture.select_all 5)
                  := (1800%Z, response)]> ∅;
              reachable := true |}.
Proof.
  destruct (answered_query_is_cached (L := Fixture.libraries)
              (init Fixture.cache_server) (Fixture.select_all 5)
              (query (Fixture.select_all 5))
              (Fixture.solutions_of baseline)
              (Scenario.fresh_cache_miss _) (Scenario.select_all_prepared 5)
              (select_all_solutions_for 5))
    as (s' & Hrun & Hs & Hcache & _).
  eexists s', _. split; [exact Hrun|]. split; [exact Hs|].
  exact (Hcache Fixture.cache_server redis_fresh eq_refl).
Defined.

Lemma other_query_types_are_not_evaluated_witness :
  ∃ s' response,
    execute_sparql_query (L := Fixture.libraries) Sample.ask_all
                         (init Fixture.cache_server)
    = (s', Ok response) ∧
    success response = true ∧ results response = [].
Proof.
  assert (Hp : @prepareQuery Fixture.libraries
                 (enhance_query_with_brain_context
                    (query Sample.ask_all) (brain_context Sample.ask_all))
               = Ok (query Sample.ask_all))
    by (vm_compute; reflexivity).
  assert (Ht : query_type Sample.ask_all ≠ lit "SELECT")
    by (apply (bool_decide_unpack _); vm_compute; exact I).
  destruct (other_query_types_are_not_evaluated (L := Fixture.libraries)
              (init Fixture.cache_server) Sample.ask_all
              (query Sample.ask_all) (Scenario.fresh_cache_miss _) Hp Ht)
    as (s' & response & Hrun & Hs & Hr & _).
  exists s', response. split; [exact Hrun|]. split; [exact Hs|exact Hr].
Defined.

Lemma cached_response_survives_evolve_witness :
  ∃ s1 s2 response,
    execute_sparql_query (L := Fixture.libraries) (Fixture.select_all 5)
                         (init Fixture.cache_server)
    = (s1, Ok response) ∧
    s2 = (evolve_concept (L := Fixture.libraries)
                         Sample.evolution_with_statement s1).1 ∧
    execute_sparql_query (L := Fixture.libraries) (Fixture.select_all 5) s2
    = (s2, Ok response) ∧
    (ns_term CONCEPT (concept_id Sample.evolution_with_statement), RDF_type,
     ns_term OMNII "Concept") ∈ base_graph s2.
Proof.
  destruct (cached_response_survives_evolve (L := Fixture.libraries)
              (init Fixture.cache_server) (Fixture.select_all 5)
              (query (Fixture.select_all 5))
              (Fixture.solutions_of baseline) Fixture.cache_server
              Sample.evolution_with_statement
              redis_fresh eq_refl (lookup_empty _)
              (Scenario.select_all_prepared 5) (select_all_solutions_for 5))
    as (Hrun1 & Hrun2 & Hin).
  eexists _, _, _. split; [exact Hrun1|]. split; [reflexivity|].
  split; [exact Hrun2|exact Hin].
Defined.

Lemma result_rows_are_empty_witness :
  ∃ s' response,
    execute_sparql_query (L := Sample.concept_libraries) Sample.concept_request
                         (init Fixture.cache_server)
    = (s', Ok response) ∧
    success response = true ∧
    total_results response = 17%Z ∧
    results response = replicate 17 ∅.
Proof.
  destruct (result_rows_are_empty (L := Sample.concept_libraries)
              (init Fixture.cache_server) Sample.concept_request
              (enhance_query_with_brain_context
                 (query Sample.concept_request)
                 (brain_context Sample.concept_request))
              (map (λ t : Triple, {[ lit "concept" := t.1.1 ]})
                   (elements (base_graph (init Fixture.cache_server))))
              (Scenario.fresh_cache_miss _) concept_request_prepared
              eq_refl concept_request_graph_query)
    as (s' & response & Hrun & Hs & Hrows & _ & Htotal).
  assert (Hn : total_results response = 17%Z).
  { rewrite (Htotal (proj1 (Z.leb_le 0 100) eq_refl)).
    rewrite length_map, length_elements_base_graph_init. reflexivity. }
  exists s', response. split; [exact Hrun|]. split; [exact Hs|].
  split; [exact Hn|]. rewrite Hrows, Hn. reflexivity.
Defined.

Lemma no_insight_is_ever_produced_witness :
  ∃ s' response,
    execute_sparql_query (L := Sample.concept_libraries) Sample.concept_request
                         (init Fixture.cache_server)
    = (s', Ok response) ∧
    success response = true ∧
    concept_insights response = Some [] ∧
    (concepts_analyzed <$> brain_memory_integration response) = Some 0%Z.
Proof.
  destruct (no_insight_is_ever_produced (L := Sample.concept_libraries)
              (init Fixture.cache_server) Sample.concept_request
              (enhance_query_with_brain_context
                 (query Sample.concept_request)
                 (brain_context Sample.concept_request))
              (map (λ t : Triple, {[ lit "concept" := t.1.1 ]})
                   (elements (base_graph (init Fixture.cache_server))))
              (Scenario.fresh_cache_miss _) concept_request_prepared
              concept_request_solutions)
    as (s' & response & Hrun & Hs & Hins & Hn & _).
  exists s', response. split; [exact Hrun|]. split; [exact Hs|].
  split; [exact Hins|exact Hn].
Defined.

Lemma last_segment_spec_witness :
  (35 ∉ lit "c1") ∧
  last_segment 35 (lit "https://omnii.ai/concept" ++ 35 :: lit "c1") = lit "c1".
Proof.
  assert (H : 35 ∉ lit "c1")
    by (apply (bool_decide_unpack _); vm_compute; exact I).
  split; [exact H|].
  exact (proj1 (last_segment_spec (lit "https://omnii.ai/concept") (lit "c1") H)).
Defined.

Lemma import_without_clear_merges_witness :
  ∃ s' res,
    import_rdf_data (L := Fixture.libraries) (Fixture.import_c1 false)
                    (init Fixture.cache_server)
    = (s', Ok res) ∧
    import_success res = true ∧
    base_graph s'
    = list_to_set (parsed (L := Fixture.libraries) (Fixture.import_c1 false))
      ∪ base_graph (init Fixture.cache_server) ∧
    (0 ≤ triples_imported res ≤ 1)%Z.
Proof.
  destruct (import_without_clear_merges (L := Fixture.libraries)
              (Fixture.import_c1 false) (init Fixture.cache_server)
              (wf_init _) eq_refl (proj1 (Scenario.parse_import_c1 false)))
    as (s' & res & Hrun & Hs & Hg & _ & Hn & _).
  exists s', res. split; [exact Hrun|]. split; [exact Hs|].
  split; [exact Hg|].
  by rewrite (proj2 (Scenario.parse_import_c1 false)) in Hn.
Defined.

Lemma reimport_adds_nothing_witness :
  ∃ s2 res,
    import_rdf_data (L := Fixture.libraries) (Fixture.import_c1 false)
                    Fixture.after_import
    = (s2, Ok res) ∧
    import_success res = true ∧ triples_imported res = 0%Z.
Proof.
  destruct (reimport_adds_nothing (L := Fixture.libraries)
              (Fixture.import_c1 false) (init Fixture.cache_server)
              (wf_init _) (proj1 (Scenario.parse_import_c1 false)))
    as (s2 & res & Hrun & Hs & _ & Hn).
  exists s2, res. split; [exact Hrun|]. split; [exact Hs|exact Hn].
Defined.

Lemma failed_validation_changes_nothing_witness :
  ∃ s',
    import_rdf_data (L := Fixture.libraries) (Fixture.malformed false)
                    (init Fixture.cache_server)
    = (s', Ok (import_failure (lit "Bad syntax"))) ∧
    base_graph s' = base_graph (init Fixture.cache_server) ∧
    redis_client s' = redis_client (init Fixture.cache_server).
Proof.
  destruct (failed_validation_changes_nothing (L := Fixture.libraries)
              (Fixture.malformed false) (init Fixture.cache_server)
              (lit "Bad syntax") (wf_init _) eq_refl eq_refl
              (Scenario.parse_malformed false))
    as (s' & Hrun & _ & Hg & Hc & _).
  exists s'. split; [exact Hrun|]. split; [exact Hg|exact Hc].
Defined.

Lemma unvalidated_import_keeps_partial_parse_witness :
  ∃ s',
    import_rdf_data (L := Sample.partial_libraries) Sample.truncated
                    (init Fixture.cache_server)
    = (s', Ok (import_failure (lit "Bad syntax"))) ∧
    Fixture.c1 ∈ base_graph s'.
Proof.
  assert (He : parse_error (L := Sample.partial_libraries) Sample.truncated
               = Some (lit "Bad syntax")) by (vm_compute; reflexivity).
  assert (Hp : parsed (L := Sample.partial_libraries) Sample.truncated = [Fixture.c1])
    by (vm_compute; reflexivity).
  destruct (unvalidated_import_keeps_partial_parse (L := Sample.partial_libraries)
              Sample.truncated (init Fixture.cache_server) (lit "Bad syntax")
              (wf_init _) eq_refl eq_refl He)
    as (s' & Hrun & Hg & _).
  exists s'. split; [exact Hrun|].
  rewrite Hg, Hp. apply elem_of_union_l.
  rewrite list_to_set_cons. apply elem_of_union_l. by apply elem_of_singleton.
Defined.

Lemma evolve_fails_on_entry_without_subject_witness :
  ∃ s' res,
    evolve_concept (L := Fixture.libraries) Sample.evolution_without_subject
                   (init Fixture.cache_server)
    = (s', Ok res) ∧
    evolution_success res = false ∧
    (ns_term CONCEPT (concept_id Sample.evolution_without_subject), RDF_type,
     ns_term OMNII "Concept") ∈ base_graph s'.
Proof.
  destruct (evolve_fails_on_entry_without_subject (L := Fixture.libraries)
              Sample.evolution_without_subject (init Fixture.cache_server)
              [] [] ∅ eq_refl (lookup_empty _))
    as (s' & res & Hrun & Hs & _ & _ & _ & _ & Hg).
  exists s', res. split; [exact Hrun|]. split; [exact Hs|].
  apply Hg, elem_of_union_l. unfold concept_triples.
  rewrite list_to_set_cons. apply elem_of_union_l. by apply elem_of_singleton.
Defined.

Lemma evolve_adds_one_triple_per_entry_witness :
  ∃ s' res,
    evolve_concept (L := Fixture.libraries) Sample.evolution_with_statement
                   (init Fixture.cache_server)
    = (s', Ok res) ∧
    evolution_success res = true ∧
    (ns_term CONCEPT (concept_id Sample.evolution_with_statement),
     URIRef (lit "https://omnii.ai/ontology#relatedTo"),
     Literal (lit "memory") None None) ∈ base_graph s'.
Proof.
  assert (Hitem : Forall2 (plain_item (L := Fixture.libraries))
                    (new_information Sample.evolution_with_statement)
                    [Sample.statement]).
  { constructor; [|constructor].
    unfold plain_item. repeat split; vm_compute; reflexivity. }
  destruct (evolve_adds_one_triple_per_entry (L := Fixture.libraries)
              Sample.evolution_with_statement (init Fixture.cache_server)
              [Sample.statement] Hitem (lookup_empty _))
    as (s' & res & Hrun & Hs & _ & _ & Hg).
  exists s', res. split; [exact Hrun|]. split; [exact Hs|].
  rewrite Hg. apply elem_of_union_l.
  cbn [map]. rewrite list_to_set_cons. apply elem_of_union_l.
  by apply elem_of_singleton.
Defined.

Lemma analysis_reads_active_concepts_witness :
  let a := analyze_brain_memory Sample.int_gt Sample.full_brain_context in
  analysis_success a = true ∧
  map analysed_concept_id (analysis_concept_insights a)
  = [PStr (lit "concept1"); PStr (lit "concept2")] ∧
  consolidation_recommendations a = [] ∧
  length (temporal_patterns a) = 1%nat.
Proof.
  pose proof (analysis_reads_active_concepts Sample.int_gt
                Sample.full_brain_context Sample.working_memory
                [ (lit "current_week_count", PInt 10);
                  (lit "previous_week_count", PInt 5) ]
                (PList [PStr (lit "concept1"); PStr (lit "concept2")]) true
                eq_refl eq_refl eq_refl eq_refl) as H.
  cbv zeta in H. destruct H as ((Hs & Hids & Hrec) & Htime).
  intros a. subst a. split; [exact Hs|]. split; [exact Hids|].
  pose proof (Htime Hs) as Ht. split.
  - revert Hrec. by destruct (consolidation_recommendations _).
  - by rewrite <- (length_map temporal_distribution), Ht.
Defined.

Lemma analyze_rdf_succeeds_around_the_analysis_witness :
  let r := analyze_rdf Sample.int_gt Sample.float_nonzero Sample.strict_dict
                       Sample.analysis_request in
  rdf_success r = true ∧
  (analysis_success <$> rdf_brain_analysis r) = Some false ∧
  rdf_concepts_analyzed r = 1%Z ∧ rdf_patterns_found r = 0%Z.
Proof.
  pose proof (analyze_rdf_succeeds_around_the_analysis
                Sample.int_gt Sample.float_nonzero Sample.strict_dict
                Sample.analysis_request
                [ (lit "full_brain_context",
                   PDict [ (lit "working_memory", PList []) ]) ]
                [ (lit "working_memory", PList []) ]
                [ (lit "concepts", PList [PStr (lit "c1")]) ]
                [PStr (lit "c1")]
                eq_refl (ex_intro _ [] eq_refl) (ex_intro _ [] eq_refl)
                (ex_intro _ [] eq_refl) eq_refl eq_refl eq_refl) as H.
  cbv zeta in H. destruct H as (Hs & Hb & Hn & _ & _ & Hfail).
  intros r. subst r. split; [exact Hs|]. split; [by rewrite Hb|].
  split; [exact Hn|]. exact (proj1 (Hfail eq_refl)).
Defined.

Lemma analyze_rdf_rejects_other_shapes_witness :
  let r := analyze_rdf Sample.int_gt Sample.float_nonzero Sample.strict_dict
                       Sample.misshapen_request in
  rdf_success r = false ∧ rdf_brain_analysis r = None.
Proof.
  pose proof (analyze_rdf_rejects_other_shapes
                Sample.int_gt Sample.float_nonzero Sample.strict_dict
                Sample.misshapen_request (PList [])
                (λ items H, eq_ind (PList []) (λ v, match v with
                                                    | PList _ => True
                                                    | _ => False
                                                    end) I _ H)
                (or_introl eq_refl)) as H.
  cbv zeta in H. destruct H as (Hs & Hb & _).
  intros r. subst r. by split.
Defined.

Lemma cache_client_is_never_reconnected_witness :
  redis_client (init Sample.server_down) = None ∧
  redis_client
    (execute_sparql_query (L := Fixture.libraries) (Fixture.select_all 5)
                          (init Sample.server_down)).1 = None.
Proof.
  assert (Hr : redis_client (init Sample.server_down) = None)
    by (rewrite redis_init; reflexivity).
  split; [exact Hr|].
  exact (proj1 (cache_client_is_never_reconnected (L := Fixture.libraries)
                  (init Sample.server_down) Hr) (Fixture.select_all 5)).
Defined.
